(** * BCFind 2.1: the DoG blob detector and its parameter optimizer

    A shallow embedding of [bcfind/blob_dog.py]: the free function
    [blob_dog] and the class [BlobDoG] with its methods [evaluate],
    [predict_and_evaluate], [_objective] and [fit].

    Conventions.
    - The entries of arrays are finite floats, read as the real numbers
      they denote.  The float64 arithmetic of line 88 of [blob_dog]
      ([/], [np.log], [+], [np.mean]), whose result is truncated to an
      integer, and the products of line 91 are operations of a class
      [Numpy] of which nothing is assumed; the result of line 88 can
      be infinite or NaN, on which [int] raises, and a power of line 91
      can raise.
    - Scores and radii of the optimizer are rationals ([Q]), so that the
      checkpoint logic can be evaluated.
    - A Python exception is a value of [exn]; a call that may raise
      returns a [result].
    - Parameter dictionaries and the checkpoint's JSON object are
      [gmap string Q]. *)

From Stdlib Require Import ZArith QArith Reals Lra Lia List Permutation.
From Stdlib Require Lqa.
From stdpp Require Import gmap strings list fin_maps.
Import ListNotations.

(** ** Python exceptions *)

Inductive exn : Type :=
| ValueError (msg : string)
| KeyError (key : string)
| AssertionError (msg : string)
| UnboundLocalError (var : string)
| Exception (msg : string).

Inductive result (A : Type) : Type :=
| Ok (a : A)
| Raise (e : exn).

Arguments Ok {A} a.
Arguments Raise {A} e.

#[global] Instance result_ret : MRet result := fun _ a => Ok a.

#[global] Instance result_bind : MBind result := fun _ _ f m =>
  match m with
  | Ok a => f a
  | Raise e => Raise e
  end.

Definition is_ok {A : Type} (m : result A) : bool :=
  match m with Ok _ => true | Raise _ => false end.

(** ** The detector function [blob_dog] *)

Module BlobDog.

Local Open Scope R_scope.

(** [min_sigma] and [max_sigma] are "scalar or sequence of scalars". *)
Inductive sigma_arg : Type :=
| Scalar (s : R)
| Sequence (l : list R).

(** [np.isscalar] *)
Definition isscalar (a : sigma_arg) : bool :=
  match a with Scalar _ => true | Sequence _ => false end.

(** Lines 78-85: [np.array([s] * image.ndim)] for a scalar,
    [np.array(s)] for a sequence. *)
Definition as_array (ndim : nat) (a : sigma_arg) : list R :=
  match a with
  | Scalar s => repeat s ndim
  | Sequence l => l
  end.

(** A float64 as line 88 can produce it: a finite value, read as the
    real number it denotes, an infinity or NaN. *)
Inductive float : Type :=
| Fin (x : R)
| Inf (negative : bool)
| NaN.

(** The float64 arithmetic of numpy that lines 88-92 use.  Which float
    an operation returns (its rounding, its overflow to an infinity, its
    NaN) is numpy's and the C library's: nothing is assumed of it. *)
Class Numpy : Type := {
  (** [x / y] *)
  f_div : float -> float -> float;
  (** [np.log(x)] *)
  f_log : float -> float;
  (** [x + y] *)
  f_add : float -> float -> float;
  (** [np.mean(a)] of a non-empty one-dimensional array *)
  f_mean : list float -> float;
  (** [r ** i] for an integer [i >= 0]: on a Python float it raises
      [OverflowError] when the power is out of range. *)
  f_pow : R -> nat -> result R;
  (** [s * p] *)
  f_mul : R -> R -> R
}.

(** [int(x)] on a finite float: truncation toward zero. *)
Definition py_int (x : R) : Z :=
  if Rle_dec 0 x then Int_part x else (- Int_part (- x))%Z.

(** [int(x)] on a float64: Python raises on the infinities and on NaN. *)
Definition int_of_float (x : float) : result Z :=
  match x with
  | Fin v => Ok (py_int v)
  | Inf _ => Raise (Exception "OverflowError: cannot convert float infinity to integer")
  | NaN => Raise (ValueError "cannot convert float NaN to integer")
  end.

Definition np_sum (l : list R) : R := fold_right Rplus 0 l.

(** Element-wise binary operation of two one-dimensional arrays with
    numpy's broadcasting: equal lengths, or one operand of length 1. *)
Definition broadcast2 {A B : Type} (f : A -> A -> B) (a b : list A)
  : result (list B) :=
  if Nat.eqb (length a) (length b) then
    Ok (map (fun p => f (fst p) (snd p)) (combine a b))
  else match a, b with
       | [x], _ => Ok (map (fun y => f x y) b)
       | _, [y] => Ok (map (fun x => f x y) a)
       | _, _ => Raise (ValueError "operands could not be broadcast together")
       end.

Section Scales.

Context {N : Numpy}.

(** [np.mean] of a one-dimensional array; the mean of an empty array is
    NaN. *)
Definition np_mean (l : list float) : float :=
  match l with
  | [] => NaN
  | _ :: _ => f_mean l
  end.

(** The array under [np.mean] on line 88:
    [np.log(max_sigma / min_sigma) / np.log(sigma_ratio) + 1]. *)
Definition log_ratio_plus_one (min_sigma max_sigma : list R) (sigma_ratio : R)
  : result (list float) :=
  q ← broadcast2 (fun x y => f_div (Fin x) (Fin y)) max_sigma min_sigma;
  Ok (map (fun x => f_add (f_div (f_log x) (f_log (Fin sigma_ratio))) (Fin 1))
          q).

(** The float that line 88 hands to [int]:
    [np.mean(np.log(max_sigma / min_sigma) / np.log(sigma_ratio) + 1)]. *)
Definition scale_mean (min_sigma max_sigma : list R) (sigma_ratio : R)
  : result float :=
  a ← log_ratio_plus_one min_sigma max_sigma sigma_ratio;
  Ok (np_mean a).

(** Line 88:
    [k = int(np.mean(np.log(max_sigma / min_sigma) / np.log(sigma_ratio) + 1))]. *)
Definition scale_count (min_sigma max_sigma : list R) (sigma_ratio : R)
  : result Z :=
  m ← scale_mean min_sigma max_sigma sigma_ratio;
  int_of_float m.

(** [range(n)] for an integer [n]: empty when [n <= 0]. *)
Definition py_range (n : Z) : list nat := seq 0 (Z.to_nat n).

(** Lines 91-92:
    [np.array([min_sigma * (sigma_ratio ** i) for i in range(k + 1)])];
    the comprehension stops at the first power that raises. *)
Definition sigma_list (min_sigma : list R) (sigma_ratio : R) (k : Z)
  : result (list (list R)) :=
  mapM (fun i => p ← f_pow sigma_ratio i;
                 Ok (map (fun s => f_mul s p) min_sigma))
       (py_range (k + 1)).

(** The progression that lines 91-92 build, when they do. *)
Definition sigma_progression (min_sigma : list R) (sigma_ratio : R) (k : Z)
  : list (list R) :=
  match sigma_list min_sigma sigma_ratio k with
  | Ok sl => sl
  | Raise _ => []
  end.

End Scales.

(** A two-dimensional array: its second shape component and its rows.
    The first shape component is the number of rows. *)
Record ndarray : Type := mk_ndarray {
  ncols : nat;
  rows : list (list R)
}.

Definition nrows (a : ndarray) : nat := length (rows a).
Definition size (a : ndarray) : nat := (nrows a * ncols a)%nat.

(** [np.empty((0, c))] *)
Definition np_empty (c : nat) : ndarray := mk_ndarray c [].

(** [cp.concatenate] along axis 0 of a list of two-dimensional arrays. *)
Definition concatenate (l : list ndarray) : result ndarray :=
  match l with
  | [] => Raise (ValueError "need at least one array to concatenate")
  | a :: rest =>
      if forallb (fun b => Nat.eqb (ncols b) (ncols a)) rest then
        Ok (mk_ndarray (ncols a) (concat (map rows l)))
      else
        Raise (ValueError "all the input array dimensions except for the concatenation axis must match exactly")
  end.

(** The numerical backend: the image type with the cucim filters and the
    skimage pruning routine that [blob_dog] calls.  They are not part of
    the repository. *)
Class Backend (image : Type) : Type := {
  (** [image.ndim] *)
  ndim : image -> nat;
  (** [cm_skim_filt.gaussian(image, sigma)] with a sequence [sigma]; it
      raises when the filter refuses [sigma]. *)
  gaussian : image -> list R -> result image;
  (** [(low - high) * c] *)
  dog : image -> image -> R -> image;
  (** [cm_skim_feat.peak_local_max(img, threshold_rel=t,
      footprint=np.ones((3,) * image.ndim))]: the coordinates of the
      local maxima, one row of [ndim] integers per maximum. *)
  peak_local_max : image -> R -> list (list Z);
  (** [skblob._prune_blobs(blobs, overlap, sigma_dim=d)] *)
  prune_blobs : ndarray -> R -> nat -> ndarray
}.

(** What [blob_dog] relies on from the backend: the Gaussian filter
    takes one sigma per axis of the image (it raises on a sequence of
    another length) and keeps the dimensionality, as does the
    difference; every peak has one coordinate per axis; pruning returns
    some of the rows it was given, in an array of the same width. *)
Class BackendLaws (image : Type) `{Backend image} : Prop := {
  gaussian_ndim : forall img s g,
    gaussian img s = Ok g -> length s = ndim img /\ ndim g = ndim img;
  ndim_dog : forall a b c, ndim (dog a b c) = ndim a;
  peak_width : forall img t r,
    In r (peak_local_max img t) -> length r = ndim img;
  prune_ncols : forall a ov d, ncols (prune_blobs a ov d) = ncols a;
  prune_rows : forall a ov d r,
    In r (rows (prune_blobs a ov d)) -> In r (rows a)
}.

Section Blobs.

Context {N : Numpy} {image : Type} `{Backend image}.

(** Line 106: [cp.c_[lm, cp.ones(lm.shape[0]) * i]], an array of
    [lm.shape[1] + 1] columns. *)
Definition with_scale_index (img : image) (lm : list (list Z)) (i : nat)
  : ndarray :=
  mk_ndarray (ndim img + 1) (map (fun r => map IZR r ++ [INR i]) lm).

(** The body of the loop on lines 96-107 for the scale index [i]. *)
Definition scale_peaks (img : image) (sigma_list : list (list R))
    (threshold_rel : R) (i : nat) : result ndarray :=
  let s_lo := nth i sigma_list [] in
  let s_hi := nth (i + 1) sigma_list [] in
  low ← gaussian img s_lo;
  high ← gaussian img s_hi;
  let dog_image := dog low high (np_sum s_lo / INR (length s_lo)) in
  let lm := peak_local_max dog_image threshold_rel in
  Ok (with_scale_index img lm i).

(** Line 122: [sigma_list[detected_blobs[:, -1].astype(int)]]. *)
Definition sigmas_of_peaks (sigma_list : list (list R)) (blobs : list (list R))
  : list (list R) :=
  map (fun r => nth (Z.to_nat (py_int (List.last r 0))) sigma_list []) blobs.

(** Line 129: [np.hstack([detected_blobs[:, :-1], sigmas_of_peaks])]. *)
Definition hstack_sigmas (blobs sigmas : list (list R)) : list (list R) :=
  map (fun p => List.removelast (fst p) ++ snd p) (combine blobs sigmas).

(** Lines 95-134: the search over the [k] pairs of adjacent scales of
    [sigma_list] and the assembly of the result.  The loop stops at the
    first pass that raises. *)
Definition detect (img : image) (scalar_sigma : bool)
    (sigma_list : list (list R)) (k : Z) (threshold_rel overlap : R)
  : result ndarray :=
  detected_blobs ← mapM (scale_peaks img sigma_list threshold_rel) (py_range k);
  detected_blobs ← concatenate detected_blobs;
  if Nat.eqb (size detected_blobs) 0 then
    Ok (np_empty 3)
  else
    let sigmas := sigmas_of_peaks sigma_list (rows detected_blobs) in
    let sigmas := if scalar_sigma then map (firstn 1) sigmas else sigmas in
    let sigma_dim := length (hd [] sigmas) in
    let detected_blobs :=
      mk_ndarray (ncols detected_blobs - 1 + sigma_dim)
                 (hstack_sigmas (rows detected_blobs) sigmas) in
    Ok (prune_blobs detected_blobs overlap sigma_dim).

Definition blob_dog (img : image) (min_sigma max_sigma : sigma_arg)
    (sigma_ratio threshold_rel overlap : R) : result ndarray :=
  let scalar_sigma := isscalar max_sigma && isscalar min_sigma in
  let min_sigma := as_array (ndim img) min_sigma in
  let max_sigma := as_array (ndim img) max_sigma in
  k ← scale_count min_sigma max_sigma sigma_ratio;
  sigma_list ← sigma_list min_sigma sigma_ratio k;
  detect img scalar_sigma sigma_list k threshold_rel overlap.

(** No local maximum is found at any scale: every pass of the loop on
    lines 96-107 runs and yields zero rows. *)
Definition no_peaks (img : image) (min_sigma max_sigma : sigma_arg)
    (sigma_ratio threshold_rel : R) : Prop :=
  let min_sigma := as_array (ndim img) min_sigma in
  let max_sigma := as_array (ndim img) max_sigma in
  forall (k : Z) (sl : list (list R)) (i : nat),
    scale_count min_sigma max_sigma sigma_ratio = Ok k ->
    sigma_list min_sigma sigma_ratio k = Ok sl ->
    In i (py_range k) ->
    exists lm : ndarray,
      scale_peaks img sl threshold_rel i = Ok lm /\
      rows lm = [].

End Blobs.

(** Two small backends on which the statements below are exercised.  An
    image is given by its dimensionality alone; the Gaussian filter
    wants one sigma per axis and leaves the image as it is; the first
    backend finds no peak, the second finds the origin at every scale;
    pruning keeps every row. *)
Definition toy_gaussian (n : nat) (sigma : list R) : result nat :=
  if Nat.eqb (length sigma) n then Ok n
  else Raise (Exception "RuntimeError: sequence argument must have length equal to input rank").

Definition blank_backend : Backend nat :=
  {| ndim := fun n => n;
     gaussian := toy_gaussian;
     dog := fun a _ _ => a;
     peak_local_max := fun _ _ => [];
     prune_blobs := fun a _ _ => a |}.

Definition origin_backend : Backend nat :=
  {| ndim := fun n => n;
     gaussian := toy_gaussian;
     dog := fun a _ _ => a;
     peak_local_max := fun n _ => [repeat 0%Z n];
     prune_blobs := fun a _ _ => a |}.

(** An arithmetic on which the statements below are exercised: every
    operation returns the exact value, without rounding. *)
Definition exact_div (x y : float) : float :=
  match x, y with
  | Fin a, Fin b =>
      if Req_dec_T b 0 then
        if Req_dec_T a 0 then NaN
        else Inf (if Rlt_dec a 0 then true else false)
      else Fin (a / b)
  | Fin _, Inf _ => Fin 0
  | Inf s, Fin b => Inf (if Rlt_dec b 0 then negb s else s)
  | _, _ => NaN
  end.

Definition exact_log (x : float) : float :=
  match x with
  | Fin a =>
      if Rlt_dec 0 a then Fin (ln a)
      else if Req_dec_T a 0 then Inf true else NaN
  | Inf false => Inf false
  | _ => NaN
  end.

Definition exact_add (x y : float) : float :=
  match x, y with
  | Fin a, Fin b => Fin (a + b)
  | Fin _, Inf s => Inf s
  | Inf s, Fin _ => Inf s
  | Inf s, Inf t => if Bool.eqb s t then Inf s else NaN
  | _, _ => NaN
  end.

Definition exact_arithmetic : Numpy :=
  {| f_div := exact_div;
     f_log := exact_log;
     f_add := exact_add;
     f_mean := fun l =>
       exact_div (fold_right exact_add (Fin 0) l) (Fin (INR (length l)));
     f_pow := fun r i => Ok (r ^ i);
     f_mul := Rmult |}.

(** The scale count as the specification words it:
    [round(mean(log(maxSigma/minSigma)/log(sigmaRatio)) + 1)], with
    rounding to the nearest integer, ties to the even one. *)
Definition np_round (x : R) : Z :=
  let f := Int_part x in
  if Rlt_dec (x - IZR f) (1 / 2) then f
  else if Rlt_dec (1 / 2) (x - IZR f) then (f + 1)%Z
  else if Z.even f then f else (f + 1)%Z.

Definition round_of_float (x : float) : result Z :=
  match x with
  | Fin v => Ok (np_round v)
  | Inf _ => Raise (Exception "OverflowError: cannot convert float infinity to integer")
  | NaN => Raise (ValueError "cannot convert float NaN to integer")
  end.

(** The float that the specification rounds. *)
Definition spec_scale_mean {N : Numpy} (min_sigma max_sigma : list R)
    (sigma_ratio : R) : result float :=
  q ← broadcast2 (fun x y => f_div (Fin x) (Fin y)) max_sigma min_sigma;
  Ok (f_add (np_mean (map (fun x => f_div (f_log x) (f_log (Fin sigma_ratio)))
                          q))
            (Fin 1)).

Definition spec_scale_count {N : Numpy} (min_sigma max_sigma : list R)
    (sigma_ratio : R) : result Z :=
  m ← spec_scale_mean min_sigma max_sigma sigma_ratio;
  round_of_float m.

(** The parameter sets the detector is meant for: one positive minimum
    and maximum per axis, the maximum not below the minimum, and a ratio
    above 1. *)
Definition admissible (min_sigma max_sigma : list R) (sigma_ratio : R) : Prop :=
  min_sigma <> [] /\
  Forall2 (fun lo hi => 0 < lo <= hi) min_sigma max_sigma /\
  1 < sigma_ratio.

(** The mean of line 88 in exact arithmetic, written out for arrays of
    equal length. *)
Definition mean_log_ratio (min_sigma max_sigma : list R) (sigma_ratio : R) : R :=
  np_sum (map (fun p => ln (fst p / snd p) / ln sigma_ratio + 1)
              (combine max_sigma min_sigma))
  / INR (length max_sigma).

End BlobDog.

(** ** The class [BlobDoG] *)

Module Detector.

Local Open Scope string_scope.

(** Python dictionaries with string keys and numeric values: the
    parameter sets and the JSON object of the checkpoint file. *)
Abbreviation dict := (gmap string Q).

(** [d[key]] *)
Definition getitem (d : dict) (key : string) : result Q :=
  match d !! key with
  | Some v => Ok v
  | None => Raise (KeyError key)
  end.

(** [x < y] on numbers, as a boolean. *)
Definition Qltb (x y : Q) : bool := negb (Qle_bool y x).

(** The attributes of a [BlobDoG] object. *)
Record BlobDoG : Type := mk_BlobDoG {
  D : nat;
  dim_resolution : list Q;
  exclude_border : option (list Z);
  train_step : nat;
  min_rad : Q;
  max_rad : Q;
  sigma_ratio : Q;
  overlap : Q;
  threshold : Q
}.

(** [BlobDoG.__init__], with [dim_resolution] already a sequence. *)
Definition init (n_dim : nat) (dim_resolution : list Q)
    (exclude_border : option (list Z)) : BlobDoG :=
  {| D := n_dim;
     dim_resolution := dim_resolution;
     exclude_border := exclude_border;
     train_step := 0;
     min_rad := 7;
     max_rad := 15;
     sigma_ratio := 14 # 10;
     overlap := 8 # 10;
     threshold := 5 # 100 |}.

Definition set_train_step (v : nat) (s : BlobDoG) : BlobDoG :=
  mk_BlobDoG (D s) (dim_resolution s) (exclude_border s) v
             (min_rad s) (max_rad s) (sigma_ratio s) (overlap s) (threshold s).
Definition set_min_rad (v : Q) (s : BlobDoG) : BlobDoG :=
  mk_BlobDoG (D s) (dim_resolution s) (exclude_border s) (train_step s)
             v (max_rad s) (sigma_ratio s) (overlap s) (threshold s).
Definition set_max_rad (v : Q) (s : BlobDoG) : BlobDoG :=
  mk_BlobDoG (D s) (dim_resolution s) (exclude_border s) (train_step s)
             (min_rad s) v (sigma_ratio s) (overlap s) (threshold s).
Definition set_sigma_ratio (v : Q) (s : BlobDoG) : BlobDoG :=
  mk_BlobDoG (D s) (dim_resolution s) (exclude_border s) (train_step s)
             (min_rad s) (max_rad s) v (overlap s) (threshold s).
Definition set_overlap (v : Q) (s : BlobDoG) : BlobDoG :=
  mk_BlobDoG (D s) (dim_resolution s) (exclude_border s) (train_step s)
             (min_rad s) (max_rad s) (sigma_ratio s) v (threshold s).
Definition set_threshold (v : Q) (s : BlobDoG) : BlobDoG :=
  mk_BlobDoG (D s) (dim_resolution s) (exclude_border s) (train_step s)
             (min_rad s) (max_rad s) (sigma_ratio s) (overlap s) v.

(** [get_parameters] *)
Definition get_parameters (s : BlobDoG) : dict :=
  <["threshold" := threshold s]>
    (<["overlap" := overlap s]>
      (<["sigma_ratio" := sigma_ratio s]>
        (<["max_rad" := max_rad s]>
          (<["min_rad" := min_rad s]> ∅)))).

(** The [name] column of the frame returned by [bipartite_match]. *)
Inductive label : Type := TP | FP | FN.

Definition label_eqb (a b : label) : bool :=
  match a, b with
  | TP, TP | FP, FP | FN, FN => true
  | _, _ => false
  end.

(** A row of the frame with columns
    [["TP", "FP", "FN", "tot_pred", "tot_true"]]. *)
Record counts : Type := mk_counts {
  c_TP : Z;
  c_FP : Z;
  c_FN : Z;
  tot_pred : Z;
  tot_true : Z
}.

(** What [evaluate] returns: the labelled frame, a frame of counts, or
    one metric. *)
Inductive evaluation : Type :=
| Labeled (names : list label)
| Counts (df : list counts)
| Metric (v : Q).

(** The collaborators of the class that are outside this file of the
    repository: the detection pipeline behind [predict], the helpers of
    [bcfind.utils] and [bcfind.bipartite_match] and the search algorithm
    of hyperopt. *)
Class Env : Type := {
  image : Type;
  truth : Type;
  centers : Type;
  (** [BlobDoG.predict(x, parameters)]: [blob_dog] on the sigmas derived
      from the radii, then border removal. *)
  predict : BlobDoG -> image -> option dict -> result centers;
  (** [y_pred.shape[0]] and [y_true.shape[0]] *)
  pred_rows : centers -> Z;
  true_rows : truth -> Z;
  (** [remove_border_points_from_array(y, x.shape, exclude_border)] *)
  remove_border_points_from_array : truth -> image -> list Z -> truth;
  (** [bipartite_match(y_true, y_pred, max_match_dist, dim_resolution)] *)
  bipartite_match : truth -> centers -> Q -> list Q -> result (list label);
  (** The accuracy that [metrics] derives from the summed counts. *)
  accuracy : Z -> Z -> Z -> Q;
  (** [ho.tpe.suggest]: the next candidate, from the search space and
      the trials so far. *)
  suggest : list (string * Q * Q) -> list (dict * Q) -> dict
}.

(** A candidate lies in the search space: every label has a value
    within its bounds. *)
Definition in_space (space : list (string * Q * Q)) (c : dict) : Prop :=
  Forall (fun e => match e with
                   | (l, lo, hi) =>
                       exists v, c !! l = Some v /\ (lo <= v)%Q /\ (v <= hi)%Q
                   end) space.

(** The thread pool: [cf.as_completed(futures)] hands the futures over
    in their completion order, some rearrangement of the order in which
    they were submitted. *)
Class Scheduler : Type := {
  as_completed : list (result evaluation) -> list (result evaluation)
}.

Class SchedulerLaws (S : Scheduler) : Prop := {
  as_completed_perm : forall l, Permutation l (as_completed l)
}.

Definition sumZ (l : list Z) : Z := fold_right Z.add 0%Z l.

(** Modelled from the spec: [bcfind.utils.metrics] is not among the
    sources.  Section 4.4: counts sum across all inputs before ratios are
    computed; precision = TP/(TP+FP), recall = TP/(TP+FN),
    F1 = 2*precision*recall/(precision+recall), each defined as 0 when
    its denominator is 0.  The keys are those the class reads. *)
Definition metrics `{Env} (df : list counts) : dict :=
  let tp := sumZ (map c_TP df) in
  let fp := sumZ (map c_FP df) in
  let fn := sumZ (map c_FN df) in
  let prec := if Z.eqb (tp + fp) 0 then 0%Q
              else (inject_Z tp / inject_Z (tp + fp))%Q in
  let rec := if Z.eqb (tp + fn) 0 then 0%Q
             else (inject_Z tp / inject_Z (tp + fn))%Q in
  let f1 := if Qeq_bool (prec + rec) 0 then 0%Q
            else (2 * prec * rec / (prec + rec))%Q in
  <["acc" := accuracy tp fp fn]>
    (<["f1" := f1]> (<["rec" := rec]> (<["prec" := prec]> ∅))).

Section Methods.

Context `{Env}.

Definition admitted_types : list string :=
  ["complete"; "counts"; "f1"; "acc"; "prec"; "rec"].

(** [np.sum(labeled_centers.name == l)] *)
Definition count_label (l : label) (names : list label) : Z :=
  Z.of_nat (length (filter (fun n => label_eqb n l = true) names)).

(** [BlobDoG.evaluate], lines 240-261. *)
Definition evaluate (self : BlobDoG) (y_pred : centers) (y_true : truth)
    (max_match_dist : Q) (evaluation_type : string) : result evaluation :=
  if negb (existsb (String.eqb evaluation_type) admitted_types) then
    Raise (AssertionError "Wrong evaluation_type provided.")
  else
    labeled_centers ←
      bipartite_match y_true y_pred max_match_dist (dim_resolution self);
    if String.eqb evaluation_type "complete" then
      Ok (Labeled labeled_centers)
    else
      let eval_counts :=
        [ mk_counts (count_label TP labeled_centers)
                    (count_label FP labeled_centers)
                    (count_label FN labeled_centers)
                    (pred_rows y_pred) (true_rows y_true) ] in
      if String.eqb evaluation_type "counts" then
        Ok (Counts eval_counts)
      else
        v ← getitem (metrics eval_counts) evaluation_type;
        Ok (Metric v).

(** [BlobDoG.predict_and_evaluate], lines 292-302; the cast
    [x.astype('float32')] is left to [predict]. *)
Definition predict_and_evaluate (self : BlobDoG) (x : image) (y : truth)
    (max_match_dist : Q) (evaluation_type : string)
    (parameters : option dict) : result evaluation :=
  let y := match exclude_border self with
           | Some b => remove_border_points_from_array y x b
           | None => y
           end in
  centers ← predict self x parameters;
  evaluate self centers y max_match_dist evaluation_type.

End Methods.

(** *** The mutable world of a training run *)

(** The detector object, the JSON files on disk by path, and two traces
    kept for the statements below: every [json.dump] in order (path and
    object written) and every parameter set handed to
    [predict_and_evaluate]. *)
Record world : Type := mk_world {
  self : BlobDoG;
  fs : gmap string dict;
  dumps : list (string * dict);
  evaluated : list dict
}.

(** A method that reads and writes the world and may raise; the world
    reached when it raises is kept. *)
Definition M (A : Type) : Type := world -> result A * world.

#[global] Instance M_ret : MRet M := fun _ a w => (Ok a, w).

#[global] Instance M_bind : MBind M := fun _ _ f m w =>
  match m w with
  | (Ok a, w') => f a w'
  | (Raise e, w') => (Raise e, w')
  end.

Definition raise {A : Type} (e : exn) : M A := fun w => (Raise e, w).

Definition lift {A : Type} (r : result A) : M A := fun w => (r, w).

Definition get_self : M BlobDoG := fun w => (Ok (self w), w).

Definition modify_self (f : BlobDoG -> BlobDoG) : M unit := fun w =>
  (Ok tt, mk_world (f (self w)) (fs w) (dumps w) (evaluated w)).

(** [os.path.isfile(path)] followed by [json.load]: [None] when there is
    no such file. *)
Definition load_if_isfile (path : string) : M (option dict) := fun w =>
  (Ok (fs w !! path), w).

(** [with open(path, "w") as f: json.dump(obj, f)] *)
Definition json_dump (path : string) (obj : dict) : M unit := fun w =>
  (Ok tt, mk_world (self w) (<[path := obj]> (fs w))
                   (dumps w ++ [(path, obj)])%list (evaluated w)).

Definition note_evaluated (parameters : dict) : M unit := fun w =>
  (Ok tt, mk_world (self w) (fs w) (dumps w)
                   (evaluated w ++ [parameters])%list).

(** [os.path.join(checkpoint_dir, "BlobDoG_parameters.json")] *)
Definition checkpoint_file (checkpoint_dir : string) : string :=
  checkpoint_dir +:+ "/" +:+ "BlobDoG_parameters.json".

(** [set_parameters], lines 165-169: five attribute assignments in
    order, each reading one key. *)
Definition set_parameters (parameters : dict) : M unit :=
  v ← lift (getitem parameters "min_rad");
  _ ← modify_self (set_min_rad v);
  v ← lift (getitem parameters "max_rad");
  _ ← modify_self (set_max_rad v);
  v ← lift (getitem parameters "sigma_ratio");
  _ ← modify_self (set_sigma_ratio v);
  v ← lift (getitem parameters "overlap");
  _ ← modify_self (set_overlap v);
  v ← lift (getitem parameters "threshold");
  modify_self (set_threshold v).

Section Training.

Context `{Env} `{Scheduler}.

(** [pd.concat(res)] of the frames of counts; with no frame at all it
    raises. *)
Definition pd_concat (res : list evaluation) : result (list counts) :=
  match res with
  | [] => Raise (ValueError "No objects to concatenate")
  | _ :: _ =>
      dfs ← mapM (fun r => match r with
                           | Counts df => Ok df
                           | _ => Raise (Exception "cannot concatenate a non-frame object")
                           end) res;
      Ok (concat dfs)
  end.

(** Lines 323-338: the per-element evaluations, in dataset order when
    [n_cpu == 1], in completion order otherwise.
    [cf.ThreadPoolExecutor(n_cpu)] raises when [n_cpu <= 0], before any
    element is submitted. *)
Definition evaluate_dataset (self : BlobDoG) (parameters : dict)
    (X : list image) (Y : list truth) (max_match_dist : Q) (n_cpu : Z)
  : result (list evaluation) :=
  let jobs :=
    map (fun xy => predict_and_evaluate self (fst xy) (snd xy)
                     max_match_dist "counts" (Some parameters))
        (combine X Y) in
  if Z.eqb n_cpu 1 then mapM (fun r => r) jobs
  else if Z.leb n_cpu 0 then
    Raise (ValueError "max_workers must be greater than 0")
  else mapM (fun r => r) (as_completed jobs).

(** Lines 323-342: the F1 of the counts of the whole dataset. *)
Definition dataset_f1 (self : BlobDoG) (parameters : dict)
    (X : list image) (Y : list truth) (max_match_dist : Q) (n_cpu : Z)
  : result Q :=
  res ← evaluate_dataset self parameters X Y max_match_dist n_cpu;
  res ← pd_concat res;
  getitem (metrics res) "f1".

(** [BlobDoG._objective], lines 313-358.  The local variable [state] is
    [None] while it is unbound.  The value returned is the ['loss']. *)
Definition _objective (parameters : dict) (X : list image) (Y : list truth)
    (max_match_dist : Q) (checkpoint_dir : option string) (n_cpu : Z) : M Q :=
  _ ← modify_self (fun s => set_train_step (train_step s + 1) s);
  lo ← lift (getitem parameters "min_rad");
  diff ← lift (getitem parameters "min_max_rad_diff");
  let parameters := <["max_rad" := (lo + diff)%Q]> parameters in
  state ← match checkpoint_dir with
          | Some dir => load_if_isfile (checkpoint_file dir)
          | None => mret None
          end;
  s ← get_self;
  _ ← note_evaluated parameters;
  f1 ← lift (dataset_f1 s parameters X Y max_match_dist n_cpu);
  _ ← match checkpoint_dir with
      | Some dir =>
          s ← get_self;
          let new_state :=
            <["step" := inject_Z (Z.of_nat (train_step s))]>
              (<["f1" := f1]> parameters) in
          if Nat.eqb (train_step s) 1 then
            json_dump (checkpoint_file dir) new_state
          else
            match state with
            | None => raise (UnboundLocalError "state")
            | Some state =>
                best ← lift (getitem state "f1");
                if Qltb best f1 then json_dump (checkpoint_file dir) new_state
                else mret tt
            end
      | None => mret tt
      end;
  mret (- f1)%Q.

(** *** hyperopt's [fmin] *)

(** The evaluation loop of [fmin]: [n] times, ask the algorithm for a
    candidate, evaluate the objective on it, record the trial. *)
Fixpoint fmin_loop (fn : dict -> M Q) (space : list (string * Q * Q))
    (n : nat) (trials : list (dict * Q)) : M (list (dict * Q)) :=
  match n with
  | O => mret trials
  | S n' =>
      let c := suggest space trials in
      loss ← fn c;
      fmin_loop fn space n' (trials ++ [(c, loss)])%list
  end.

(** [trials.argmin]: the values of the first trial of least loss. *)
Fixpoint argmin (trials : list (dict * Q)) : option (dict * Q) :=
  match trials with
  | [] => None
  | t :: rest =>
      match argmin rest with
      | Some b => if Qltb (snd b) (snd t) then Some b else Some t
      | None => Some t
      end
  end.

(** [ho.fmin(fn, space, algo=ho.tpe.suggest, max_evals=n)]: with no
    trial at all there is no argmin to return and [fmin] raises. *)
Definition fmin (fn : dict -> M Q) (space : list (string * Q * Q))
    (max_evals : Z) : M dict :=
  trials ← fmin_loop fn space (Z.to_nat max_evals) [];
  match argmin trials with
  | Some b => mret (fst b)
  | None =>
      raise (Exception "There are no evaluation tasks, cannot return argmin of task losses.")
  end.

(** Lines 391-397 *)
Definition search_space : list (string * Q * Q) :=
  [ ("min_rad", 2, 15);
    ("min_max_rad_diff", 1, 10);
    ("sigma_ratio", 1, 2);
    ("overlap", 0, 1);
    ("threshold", 0, 1) ]%Q.

(** [BlobDoG.fit], lines 381-407. *)
Definition fit (X : list image) (Y : list truth) (max_match_dist : Q)
    (n_iter : Z) (checkpoint_dir : option string) (n_cpu : Z) : M unit :=
  let obj_wrapper := fun parameters =>
    _objective parameters X Y max_match_dist checkpoint_dir n_cpu in
  best_par ← fmin obj_wrapper search_space n_iter;
  lo ← lift (getitem best_par "min_rad");
  diff ← lift (getitem best_par "min_max_rad_diff");
  let best_par := <["max_rad" := (lo + diff)%Q]> best_par in
  set_parameters best_par.

End Training.

(** *** A small environment

    On it the statements below are exercised.  An image is the list of
    labels that matching its detections yields; a threshold above 1/2
    loses the last detection.  The search alternates between a low and a
    high threshold. *)

Definition toy_candidate (high : bool) : dict :=
  <["min_rad" := 5%Q]>
    (<["min_max_rad_diff" := 3%Q]>
      (<["sigma_ratio" := 3 # 2]>
        (<["overlap" := 1 # 2]>
          (<["threshold" := if high then 3 # 4 else 1 # 4]> ∅)))).

Definition toy_env : Env :=
  {| image := list label;
     truth := unit;
     centers := list label;
     predict := fun _ x parameters =>
       Ok (match parameters with
           | Some p =>
               match p !! "threshold" with
               | Some t => if Qltb (1 # 2) t then List.removelast x else x
               | None => x
               end
           | None => x
           end);
     pred_rows := fun c => Z.of_nat (length c);
     true_rows := fun _ => 0%Z;
     remove_border_points_from_array := fun y _ _ => y;
     bipartite_match := fun _ y_pred _ _ => Ok y_pred;
     accuracy := fun tp fp fn => (inject_Z tp / inject_Z (tp + fp + fn))%Q;
     suggest := fun _ trials => toy_candidate (Nat.odd (length trials)) |}.

Definition in_order : Scheduler := {| as_completed := fun l => l |}.

Definition reversed : Scheduler := {| as_completed := fun l => rev l |}.

(** A new detector, no file on disk, empty traces. *)
Definition fresh_world : world :=
  mk_world (init 3 [1%Q; 1%Q; 1%Q] None) ∅ [] [].

(** The same with a checkpoint of score 9/10 left by an earlier run in
    the directory [ckpt]. *)
Definition resumed_world : world :=
  mk_world (init 3 [1%Q; 1%Q; 1%Q] None)
           (<[checkpoint_file "ckpt" :=
                <["step" := 7%Q]> (<["f1" := 9 # 10]> (toy_candidate true))]> ∅)
           [] [].

(** The scores written to the checkpoint, in order. *)
Definition written_scores (ds : list (string * dict)) : list (option Q) :=
  map (fun d => snd d !! "f1") ds.

(** Each score is present and strictly above the one before it. *)
Fixpoint strictly_increasing (l : list (option Q)) : Prop :=
  match l with
  | [] => True
  | a :: rest =>
      is_Some a /\
      match rest with
      | [] => True
      | b :: _ =>
          match a, b with
          | Some x, Some y => (x < y)%Q
          | _, _ => False
          end
      end /\
      strictly_increasing rest
  end.

(** The dumps [new] of a run so far, seen from the world [w]: all went
    to [path], their scores increase strictly, and once there is one the
    detector has been stepped and the file holds the last of them. *)
Definition checkpoint_trace (path : string) (new : list (string * dict))
    (w : world) : Prop :=
  Forall (fun d => fst d = path) new /\
  strictly_increasing (written_scores new) /\
  (new <> [] ->
   (1 <= train_step (self w))%nat /\
   exists obj, List.last new (path, ∅) = (path, obj) /\
               fs w !! path = Some obj).



End Detector.

(** ** Further notions about the class [BlobDoG] *)

Module DetectorAux.

Import Detector.
Local Open Scope string_scope.

(** Two detector objects with the same five detection parameters. *)
Definition same_parameters (s s' : BlobDoG) : Prop :=
  min_rad s' = min_rad s /\ max_rad s' = max_rad s /\
  sigma_ratio s' = sigma_ratio s /\ overlap s' = overlap s /\
  threshold s' = threshold s.

(** Two detector objects with the same construction arguments. *)
Definition same_geometry (s s' : BlobDoG) : Prop :=
  D s' = D s /\ dim_resolution s' = dim_resolution s /\
  exclude_border s' = exclude_border s.

(** The JSON object that line 346-348 (or 353-355) builds from the
    candidate [c], its radii, the score and the step. *)
Definition checkpoint_of (c : dict) (lo diff f1 : Q) (step : nat) : dict :=
  <["step" := inject_Z (Z.of_nat step)]>
    (<["f1" := f1]> (<["max_rad" := (lo + diff)%Q]> c)).

(** The detector has been stepped once per trial and the checkpoint
    file of [dir] holds the state of the best trial so far. *)
Definition tracks_best (dir : string) (trials : list (dict * Q)) (w : world)
  : Prop :=
  train_step (self w) = length trials /\
  forall b, argmin trials = Some b ->
    exists (lo diff f1 : Q) (step : nat),
      fst b !! "min_rad" = Some lo /\
      fst b !! "min_max_rad_diff" = Some diff /\
      snd b = (- f1)%Q /\
      fs w !! checkpoint_file dir
      = Some (checkpoint_of (fst b) lo diff f1 step).

(** A detector that has already been through one evaluation, with no
    file on disk. *)
Definition stepped_world : world :=
  mk_world (set_train_step 1 (init 3 [1%Q; 1%Q; 1%Q] None)) ∅ [] [].

End DetectorAux.

(** ** [BlobDoG.predict] *)

Module Prediction.

Import BlobDog Detector.
Local Open Scope R_scope.

(** The keys that [set_parameters] and [predict] read, in the order in
    which they read them. *)
Definition parameter_keys : list string :=
  ["min_rad"; "max_rad"; "sigma_ratio"; "overlap"; "threshold"]%string.

(** [(rad / self.dim_resolution) / np.sqrt(self.D)]: [dim_resolution]
    being an array, so is the quotient, with one entry per entry of
    [dim_resolution]; it is never a scalar. *)
Definition sigma_of_radius (rad : Q) (dim_resolution : list Q) (D : nat)
  : sigma_arg :=
  Sequence (map (fun res => Q2R rad / Q2R res / sqrt (INR D)) dim_resolution).

Section Predict.

Context {N : Numpy} {image : Type} `{Backend image}.

(** [remove_border_points_from_array(centers, x.shape, exclude_border)]
    of [bcfind.utils]. *)
Variable remove_border_points_from_array :
  ndarray -> image -> list Z -> ndarray.

(** [BlobDoG.predict], lines 187-216. *)
Definition predict (self : BlobDoG) (x : image) (parameters : option dict)
  : result ndarray :=
  centers ←
    match parameters with
    | None =>
        let min_sigma :=
          sigma_of_radius (min_rad self) (dim_resolution self) (D self) in
        let max_sigma :=
          sigma_of_radius (max_rad self) (dim_resolution self) (D self) in
        blob_dog x min_sigma max_sigma (Q2R (sigma_ratio self))
                 (Q2R (threshold self)) (Q2R (overlap self))
    | Some parameters =>
        lo ← getitem parameters "min_rad";
        let min_sigma := sigma_of_radius lo (dim_resolution self) (D self) in
        hi ← getitem parameters "max_rad";
        let max_sigma := sigma_of_radius hi (dim_resolution self) (D self) in
        sr ← getitem parameters "sigma_ratio";
        ov ← getitem parameters "overlap";
        th ← getitem parameters "threshold";
        blob_dog x min_sigma max_sigma (Q2R sr) (Q2R th) (Q2R ov)
    end;
  Ok (match exclude_border self with
      | Some border => remove_border_points_from_array centers x border
      | None => centers
      end).

End Predict.

End Prediction.

(** ** [bcfind/augmentation.py] *)

Module Augmentation.

Local Open Scope string_scope.

(** The augmentation operations are TensorFlow functions; only which one
    is meant matters to [get_op_list]. *)
Inductive tf_op : Type :=
| random_gamma_tf
| random_contrast_tf
| random_brightness_tf
| random_noise_tf
| random_rotation_tf
| random_zoom_tf
| random_blur_tf.

(** What an element of [augmentations] can be: a string, a callable
    (named by a number), a list or tuple (sized, not callable), or
    anything else (neither sized nor callable, such as a number). *)
Inductive pyobj : Type :=
| Str (s : string)
| Callable (f : nat)
| Sized (l : list Q)
| Other.

(** [augmentations]: a list or tuple, a dictionary in insertion order,
    or anything else. *)
Inductive augmentations : Type :=
| AList (l : list pyobj)
| ADict (d : list (string * pyobj))
| ANeither.

(** An element of the returned list: an implemented operation with its
    defaults, [ft.partial(op, param_range=v)], or the user's callable. *)
Inductive operation : Type :=
| Default (op : tf_op)
| Partial (op : tf_op) (param_range : pyobj)
| Custom (f : nat).

Definition implemented_ops : gmap string tf_op :=
  list_to_map
    [ ("gamma", random_gamma_tf);
      ("contrast", random_contrast_tf);
      ("brightness", random_brightness_tf);
      ("noise", random_noise_tf);
      ("rotation", random_rotation_tf);
      ("zoom", random_zoom_tf);
      ("blur", random_blur_tf) ].

(** [len(v)]; an object without a length raises [TypeError], rendered
    here as an [Exception] with its message. *)
Definition py_len (v : pyobj) : result nat :=
  match v with
  | Str s => Ok (String.length s)
  | Sized l => Ok (length l)
  | Callable _ | Other => Raise (Exception "TypeError: object has no len()")
  end.

(** The body of the loop over a list or tuple. *)
Definition op_of_element (op : pyobj) : result operation :=
  match op with
  | Str s =>
      match implemented_ops !! s with
      | Some f => Ok (Default f)
      | None => Raise (AssertionError "not allowed")
      end
  | Callable f => Ok (Custom f)
  | _ => Raise (ValueError "neither a string nor a callable")
  end.

(** The body of the loop over a dictionary. *)
Definition op_of_item (item : string * pyobj) : result operation :=
  match implemented_ops !! fst item with
  | Some f =>
      n ← py_len (snd item);
      if Nat.eqb n 2 then Ok (Partial f (snd item))
      else Raise (AssertionError "value must be of length 2")
  | None =>
      match snd item with
      | Callable f => Ok (Custom f)
      | _ => Raise (ValueError "neither a list of parameter range nor a callable")
      end
  end.

(** [get_op_list] *)
Definition get_op_list (a : augmentations) : result (list operation) :=
  match a with
  | AList l => mapM op_of_element l
  | ADict d => mapM op_of_item d
  | ANeither => Raise (ValueError "augmentations is neither a list nor a dictionary.")
  end.

(** *** [random_crop] *)

(** Lines 14-15: [high = np.array(x.shape[-3:]) - target_shape] with the
    zeros replaced by 1. *)
Definition crop_high (shape target : list Z) : list Z :=
  map (fun p => let h := (fst p - snd p)%Z in if Z.eqb h 0 then 1%Z else h)
      (combine shape target).

(** Lines 14-17 of the inner [random_crop]: the window [(f, t)] with
    which both [x] and [y] are sliced on their last three axes.  [draw]
    is the generator behind [rng.integers(0, high)], which raises unless
    every bound is positive. *)
Definition random_crop (draw : list Z -> list Z) (shape target : list Z)
  : result (list Z * list Z) :=
  let high := crop_high shape target in
  if forallb (fun h => Z.ltb 0 h) high then
    let f := draw high in
    Ok (f, map (fun p => (fst p + snd p)%Z) (combine f target))
  else Raise (ValueError "low >= high").

(** [rng.integers(0, high)] returns, for each bound, an integer from 0
    up to the bound excluded. *)
Definition draws_below (draw : list Z -> list Z) : Prop :=
  forall high, Forall (fun h => 0 < h)%Z high ->
    Forall2 (fun h x => 0 <= x < h)%Z high (draw high).

(** A generator that always returns the largest admitted offsets. *)
Definition draw_last (high : list Z) : list Z := map (fun h => (h - 1)%Z) high.

End Augmentation.

(** ** [bcfind/train.py]: the padded U-Net prediction *)

Module Training.

(** The three spatial dimensions of the tensor [x], whose shape is
    [(1, d1, d2, d3, 1)]. *)
Definition shape : Type := (nat * nat * nat)%type.

(** What a call [unet(x, training=False)] does: it returns a prediction,
    raises one of the two exceptions that the loop catches
    ([tf.errors.InvalidArgumentError], [ValueError]), or raises another
    exception. *)
Inductive call (P : Type) : Type :=
| Returned (pred : P)
| ShapeError (e : string)
| OtherError (e : string).

Arguments Returned {P} pred.
Arguments ShapeError {P} e.
Arguments OtherError {P} e.

Definition max_attempts : nat := 10.

(** Lines 222-229: [tf.pad] with one more plane on axis 1 when [attempt]
    is even, one more on axes 2 and 3 when it is odd. *)
Definition pad (x : shape) (attempt : nat) : shape :=
  match x with
  | (d1, d2, d3) =>
      if Nat.even attempt then (S d1, d2, d3) else (d1, S d2, S d3)
  end.

(** The loop [while True] of lines 212-231, with [fuel] bounding the
    number of passes: [None] when the fuel runs out; otherwise the
    prediction with the tensor's final shape and the value of
    [attempt], or the exception that leaves the loop (the caught one,
    written [ValueError] for either of the two kinds). *)
Fixpoint predict_padded {P : Type} (unet : shape -> call P) (fuel : nat)
    (attempt : nat) (x : shape) : option (result (P * shape * nat)) :=
  match fuel with
  | O => None
  | S fuel' =>
      match unet x with
      | Returned pred => Some (Ok (pred, x, attempt))
      | OtherError e => Some (Raise (Exception e))
      | ShapeError e =>
          if Nat.eqb attempt max_attempts then Some (Raise (ValueError e))
          else predict_padded unet fuel' (S attempt) (pad x attempt)
      end
  end.

(** The shape after the first [j] paddings. *)
Fixpoint padded (x : shape) (j : nat) : shape :=
  match j with
  | O => x
  | S j' => pad (padded x j') j'
  end.

(** The tensor after [i] paddings is refused for every [i < j]. *)
Definition refused_before {P : Type} (unet : shape -> call P) (x : shape)
    (j : nat) : Prop :=
  forall i, (i < j)%nat -> exists e, unet (padded x i) = ShapeError e.

(** A network that accepts a tensor when its three dimensions are
    even. *)
Definition even_unet (x : shape) : call nat :=
  match x with
  | (d1, d2, d3) =>
      if Nat.even d1 && Nat.even d2 && Nat.even d3 then Returned (d1 + d2 + d3)
      else ShapeError "Invalid input shape for concat layer"
  end.

End Training.

(** * Lists of results *)

Module ResultFacts.

Lemma mapM_ok_Forall2 {A B : Type} (f : A -> result B) (l : list A)
    (k : list B) :
  mapM f l = Ok k <-> Forall2 (fun x y => f x = Ok y) l k.
Proof.
  revert k. induction l as [|x l IH]; intros k; cbn.
  - split.
    + intros [= <-]. constructor.
    + intros Hall. inversion Hall. reflexivity.
  - split.
    + destruct (f x) as [y|e] eqn:Ex; cbn; [|discriminate].
      destruct (mapM f l) as [k'|e] eqn:El; cbn; [|discriminate].
      intros [= <-]. constructor; [exact Ex|]. now apply IH.
    + intros Hall. inversion Hall as [|x' y l' k' Hx Hrest]; subst.
      rewrite Hx. cbn. apply IH in Hrest. rewrite Hrest. reflexivity.
Qed.

Lemma mapM_first_error {A B : Type} (f : A -> result B) (good rest : list A)
    (bad : A) (e : exn) :
  Forall (fun x => exists y, f x = Ok y) good ->
  f bad = Raise e ->
  mapM f (good ++ bad :: rest) = Raise e.
Proof.
  intros Hgood Hbad. induction Hgood as [|x l [y Hy] _ IH]; cbn.
  - rewrite Hbad. reflexivity.
  - rewrite Hy. cbn. rewrite IH. reflexivity.
Qed.

(** A loop whose every pass returns, returns. *)
Lemma mapM_all_ok {A B : Type} (f : A -> result B) (l : list A) :
  (forall x, In x l -> exists y, f x = Ok y) ->
  exists k, mapM f l = Ok k.
Proof.
  induction l as [|x l IH]; intros Hall.
  - now exists [].
  - destruct (Hall x) as [y Hy]; [now left|].
    destruct IH as [k Hk]; [intros z Hz; apply Hall; now right|].
    exists (y :: k). cbn. rewrite Hy. cbn. rewrite Hk. reflexivity.
Qed.

End ResultFacts.

(** * Properties of [blob_dog] *)

Module BlobDogFacts.

Import BlobDog ResultFacts.
Local Open Scope R_scope.

(** ** Truncation *)

Lemma py_int_nonneg (x : R) :
  0 <= x -> IZR (py_int x) <= x < IZR (py_int x) + 1.
Proof.
  intros Hx. unfold py_int. destruct (Rle_dec 0 x) as [_|Hn]; [|lra].
  destruct (base_Int_part x) as [Hlo Hhi]. lra.
Qed.

Lemma py_int_neg (x : R) :
  x < 0 -> IZR (py_int x) - 1 < x <= IZR (py_int x).
Proof.
  intros Hx. unfold py_int. destruct (Rle_dec 0 x) as [Hp|_]; [lra|].
  destruct (base_Int_part (- x)) as [Hlo Hhi].
  rewrite opp_IZR. lra.
Qed.

Lemma py_int_unique (x : R) (z : Z) :
  0 <= x -> IZR z <= x < IZR z + 1 -> py_int x = z.
Proof.
  intros Hx [Hlo Hhi]. unfold py_int.
  destruct (Rle_dec 0 x) as [_|Hn]; [|lra].
  symmetry. apply Int_part_spec. lra.
Qed.

Lemma py_int_INR (n : nat) : py_int (INR n) = Z.of_nat n.
Proof.
  unfold py_int. destruct (Rle_dec 0 (INR n)) as [_|Hn].
  - apply Int_part_INR.
  - exfalso. apply Hn, pos_INR.
Qed.

Lemma py_int_ge_1 (x : R) : 1 <= x -> (1 <= py_int x)%Z.
Proof.
  intros Hx. destruct (py_int_nonneg x) as [_ Hhi]; [lra|].
  assert (Hlt : IZR 0 < IZR (py_int x)) by (simpl; lra).
  apply lt_IZR in Hlt. lia.
Qed.

Lemma py_int_below_1 (x : R) : x < 1 -> (py_int x <= 0)%Z.
Proof.
  intros Hx. destruct (Rle_lt_dec 0 x) as [Hp|Hn].
  - destruct (py_int_nonneg x Hp) as [Hlo _].
    assert (Hlt : IZR (py_int x) < IZR 1) by (simpl; lra).
    apply lt_IZR in Hlt. lia.
  - destruct (py_int_neg x Hn) as [Hlo _].
    assert (Hlt : IZR (py_int x) < IZR 1) by (simpl; lra).
    apply lt_IZR in Hlt. lia.
Qed.

Lemma py_int_truncates (x : R) :
  Rabs (IZR (py_int x)) <= Rabs x < Rabs (IZR (py_int x)) + 1
  /\ 0 <= IZR (py_int x) * x.
Proof.
  destruct (Rle_lt_dec 0 x) as [Hx|Hx].
  - destruct (py_int_nonneg x Hx) as [Hlo Hhi].
    assert (Hk : 0 <= IZR (py_int x)).
    { apply IZR_le. assert (IZR (-1) < IZR (py_int x)) by (simpl; lra).
      apply lt_IZR in H. lia. }
    rewrite !Rabs_pos_eq by assumption. split; [lra|].
    now apply Rmult_le_pos.
  - destruct (py_int_neg x Hx) as [Hlo Hhi].
    assert (Hk : IZR (py_int x) <= 0).
    { apply IZR_le. assert (IZR (py_int x) < IZR 1) by (simpl; lra).
      apply lt_IZR in H. lia. }
    rewrite (Rabs_left1 _ Hk), (Rabs_left x Hx). split; [lra|].
    replace (IZR (py_int x) * x) with ((- IZR (py_int x)) * (- x)) by ring.
    apply Rmult_le_pos; lra.
Qed.

(** Truncation toward zero is characterised by its two inequalities:
    no other integer has them. *)
Lemma truncation_unique (x : R) (z : Z) :
  Rabs (IZR z) <= Rabs x < Rabs (IZR z) + 1 -> 0 <= IZR z * x ->
  z = py_int x.
Proof.
  intros [Hlo Hhi] Hsign.
  destruct (py_int_truncates x) as [[Plo Phi] Psign].
  set (p := py_int x) in *.
  assert (Habs : Rabs (IZR z) = Rabs (IZR p)).
  { rewrite <- !abs_IZR in *.
    assert (H1 : IZR (Z.abs z) < IZR (Z.abs p + 1)) by (rewrite plus_IZR; lra).
    assert (H2 : IZR (Z.abs p) < IZR (Z.abs z + 1)) by (rewrite plus_IZR; lra).
    apply lt_IZR in H1, H2. f_equal. lia. }
  rewrite <- !abs_IZR in Habs. apply eq_IZR in Habs.
  destruct (Z.eq_dec z p) as [E|E]; [exact E|exfalso].
  assert (Hz : z = (- p)%Z) by lia.
  assert (Hp : p <> 0%Z) by lia.
  subst z. rewrite opp_IZR in Hsign.
  assert (Hx : IZR p * x = 0) by lra.
  apply Rmult_integral in Hx as [Hx|Hx].
  - apply (eq_IZR p 0) in Hx. contradiction.
  - subst x. rewrite Rabs_R0 in Plo.
    assert (Hzero : Rabs (IZR p) = 0) by (pose proof (Rabs_pos (IZR p)); lra).
    rewrite <- abs_IZR in Hzero. apply (eq_IZR _ 0) in Hzero. lia.
Qed.

Lemma np_sum_ge_length (l : list R) :
  Forall (fun v => 1 <= v) l -> INR (length l) <= np_sum l.
Proof.
  induction 1 as [|v l Hv _ IH].
  - simpl. lra.
  - cbn [length np_sum fold_right]. rewrite S_INR.
    unfold np_sum in IH. lra.
Qed.

Lemma mean_ge_1 (l : list R) :
  l <> [] -> Forall (fun v => 1 <= v) l -> 1 <= np_sum l / INR (length l).
Proof.
  intros Hne Hall.
  assert (Hpos : 0 < INR (length l)).
  { destruct l; [congruence|]. apply lt_0_INR. simpl. lia. }
  apply np_sum_ge_length in Hall.
  apply Rmult_le_reg_r with (INR (length l)); [exact Hpos|].
  unfold Rdiv. rewrite Rmult_assoc, Rinv_l by lra. lra.
Qed.

Lemma Forall2_seq_nth {B : Type} (P : nat -> B -> Prop) (d : B) (n : nat) :
  forall (a : nat) (l : list B),
    Forall2 P (seq a n) l ->
    length l = n /\ forall i, (i < n)%nat -> P (a + i)%nat (nth i l d).
Proof.
  induction n as [|n IH]; intros a l Hall; cbn [seq] in Hall.
  - inversion Hall. split; [reflexivity|]. intros i Hi. lia.
  - inversion Hall as [|x y l1 l2 Hxy Hrest]; subst.
    destruct (IH _ _ Hrest) as [Hlen Hnth]. split; [cbn; lia|].
    intros [|i] Hi.
    + now rewrite Nat.add_0_r.
    + replace (a + S i)%nat with (S a + i)%nat by lia.
      cbn [nth]. apply Hnth. lia.
Qed.

Lemma broadcast2_same_length {A B : Type} (f : A -> A -> B) (a b : list A) :
  length a = length b ->
  broadcast2 f a b = Ok (map (fun p => f (fst p) (snd p)) (combine a b)).
Proof.
  intros Hlen. unfold broadcast2.
  rewrite (proj2 (Nat.eqb_eq _ _) Hlen). reflexivity.
Qed.

Lemma Rabs_le_bounds (x d : R) : Rabs x <= d -> - d <= x <= d.
Proof. unfold Rabs. destruct (Rcase_abs x); lra. Qed.

(** Bounds on [log(3)/log(2)], about 1.585. *)
Lemma log2_3_bounds : 31 / 20 < ln 3 / ln 2 < 8 / 5.
Proof.
  assert (H2 : 0 < ln 2).
  { rewrite <- ln_1. apply ln_increasing; lra. }
  assert (Hlo : 31 * ln 2 < 20 * ln 3).
  { change 31 with (IZR (Z.of_nat 31)). change 20 with (IZR (Z.of_nat 20)).
    rewrite <- !INR_IZR_INZ, <- !ln_pow by lra.
    apply ln_increasing; [apply pow_lt; lra|].
    rewrite !pow_IZR. apply IZR_lt. vm_compute. reflexivity. }
  assert (Hhi : 5 * ln 3 < 8 * ln 2).
  { change 5 with (IZR (Z.of_nat 5)). change 8 with (IZR (Z.of_nat 8)).
    rewrite <- !INR_IZR_INZ, <- !ln_pow by lra.
    apply ln_increasing; [apply pow_lt; lra|].
    rewrite !pow_IZR. apply IZR_lt. vm_compute. reflexivity. }
  split.
  - apply Rmult_lt_reg_r with (ln 2); [exact H2|].
    unfold Rdiv at 2. rewrite Rmult_assoc, Rinv_l by lra. lra.
  - apply Rmult_lt_reg_r with (ln 2); [exact H2|].
    unfold Rdiv at 1. rewrite Rmult_assoc, Rinv_l by lra. lra.
Qed.

(** ** The scale count, whatever the arithmetic *)

Section AnyArithmetic.

Context {N : Numpy}.

Lemma scale_count_of_mean (min_sigma max_sigma : list R) (sigma_ratio : R)
    (m : float) :
  scale_mean min_sigma max_sigma sigma_ratio = Ok m ->
  scale_count min_sigma max_sigma sigma_ratio = int_of_float m.
Proof. intros Hm. unfold scale_count. now rewrite Hm. Qed.

(** A scale count is the truncation of a finite mean. *)
Lemma scale_count_ok_mean (min_sigma max_sigma : list R) (sigma_ratio : R)
    (k : Z) :
  scale_count min_sigma max_sigma sigma_ratio = Ok k ->
  exists m : R,
    scale_mean min_sigma max_sigma sigma_ratio = Ok (Fin m) /\ k = py_int m.
Proof.
  unfold scale_count.
  destruct (scale_mean min_sigma max_sigma sigma_ratio) as [[m|s|]|e];
    cbn [mbind result_bind int_of_float]; try discriminate.
  intros [= <-]. now exists m.
Qed.

Lemma scale_count_ok_nonempty (mn mx : list R) (r : R) (k : Z) :
  scale_count mn mx r = Ok k -> mn <> [].
Proof.
  unfold scale_count, scale_mean, log_ratio_plus_one, broadcast2.
  intros Hok ->.
  destruct mx as [|x [|y mx]]; cbn in Hok; discriminate.
Qed.

(** When lines 91-92 build the progression, it has [k + 1] vectors
    (none when [k + 1 <= 0]), the [i]-th being [min_sigma] times the
    power [sigma_ratio ** i]. *)
Lemma sigma_list_ok (min_sigma : list R) (sigma_ratio : R) (k : Z)
    (sl : list (list R)) :
  sigma_list min_sigma sigma_ratio k = Ok sl ->
  length sl = Z.to_nat (k + 1) /\
  forall i : nat, (i < Z.to_nat (k + 1))%nat ->
    exists p : R,
      f_pow sigma_ratio i = Ok p /\
      nth i sl [] = map (fun s => f_mul s p) min_sigma.
Proof.
  unfold sigma_list, py_range. intros Hm. apply mapM_ok_Forall2 in Hm.
  destruct (Forall2_seq_nth _ [] _ _ _ Hm) as [Hlen Hnth].
  split; [exact Hlen|]. intros i Hi. specialize (Hnth i Hi).
  cbn [Nat.add] in Hnth.
  destruct (f_pow sigma_ratio i) as [p|e]; cbn [mbind result_bind] in Hnth;
    [|discriminate].
  exists p. split; [reflexivity|congruence].
Qed.

Lemma sigma_list_nth_length (min_sigma : list R) (sigma_ratio : R) (k : Z)
    (sl : list (list R)) (i : nat) :
  sigma_list min_sigma sigma_ratio k = Ok sl ->
  (i < Z.to_nat (k + 1))%nat ->
  length (nth i sl []) = length min_sigma.
Proof.
  intros Hsl Hi. destruct (sigma_list_ok _ _ _ _ Hsl) as [_ Hnth].
  destruct (Hnth i Hi) as (p & _ & ->). now rewrite length_map.
Qed.

Lemma sigma_progression_ok (min_sigma : list R) (sigma_ratio : R) (k : Z)
    (sl : list (list R)) :
  sigma_list min_sigma sigma_ratio k = Ok sl ->
  sigma_progression min_sigma sigma_ratio k = sl.
Proof. intros Hsl. unfold sigma_progression. now rewrite Hsl. Qed.

(** With [min_sigma = 1], [max_sigma = 3] and [sigma_ratio = 2] the mean
    is [log(3)/log(2) + 1], about 2.585.  In any arithmetic that is
    within 1/20 of it, the code's scale count is 2 and the rounded one
    of the specification is 3. *)
Lemma scale_count_truncates_under_rounding (m m' : R) :
  scale_mean [1] [3] 2 = Ok (Fin m) ->
  spec_scale_mean [1] [3] 2 = Ok (Fin m') ->
  Rabs (m - (ln 3 / ln 2 + 1)) <= 1 / 20 ->
  Rabs (m' - (ln 3 / ln 2 + 1)) <= 1 / 20 ->
  scale_count [1] [3] 2 = Ok 2%Z /\ spec_scale_count [1] [3] 2 = Ok 3%Z.
Proof.
  intros Hm Hm' Herr Herr'.
  pose proof log2_3_bounds as [Hlo Hhi].
  apply Rabs_le_bounds in Herr, Herr'.
  split.
  - rewrite (scale_count_of_mean _ _ _ _ Hm). cbn [int_of_float]. f_equal.
    apply py_int_unique; simpl; lra.
  - unfold spec_scale_count. rewrite Hm'.
    cbn [mbind result_bind round_of_float]. f_equal. unfold np_round.
    assert (Hf : Int_part m' = 2%Z).
    { symmetry. apply Int_part_spec. simpl. lra. }
    rewrite Hf.
    destruct (Rlt_dec (m' - 2) (1 / 2)) as [Hc|_]; [lra|].
    destruct (Rlt_dec (1 / 2) (m' - 2)) as [_|Hc]; [reflexivity|lra].
Qed.

End AnyArithmetic.

(** ** The exact arithmetic *)

Lemma exact_sum (l : list R) :
  fold_right exact_add (Fin 0) (map Fin l) = Fin (np_sum l).
Proof.
  induction l as [|x l IH]; [reflexivity|].
  cbn [map fold_right]. rewrite IH. reflexivity.
Qed.

Lemma exact_mean (l : list R) :
  l <> [] ->
  np_mean (N := exact_arithmetic) (map Fin l)
  = Fin (np_sum l / INR (length l)).
Proof.
  intros Hne. destruct l as [|x l]; [congruence|].
  change (np_mean (N := exact_arithmetic) (map Fin (x :: l)))
    with (exact_div (fold_right exact_add (Fin 0) (map Fin (x :: l)))
                    (Fin (INR (length (map Fin (x :: l)))))).
  rewrite exact_sum, length_map. unfold exact_div.
  destruct (Req_dec_T (INR (length (x :: l))) 0) as [E|_]; [|reflexivity].
  exfalso. apply (not_0_INR (length (x :: l))); [discriminate|exact E].
Qed.

Lemma exact_log_ratio (lo hi r : R) :
  0 < lo -> 0 < hi -> 0 < r -> ln r <> 0 ->
  exact_div (exact_log (exact_div (Fin hi) (Fin lo))) (exact_log (Fin r))
  = Fin (ln (hi / lo) / ln r).
Proof.
  intros Hlo Hhi Hr Hlr. unfold exact_div at 2.
  destruct (Req_dec_T lo 0) as [E|_]; [lra|].
  assert (Hq : 0 < hi / lo) by (apply Rdiv_lt_0_compat; assumption).
  unfold exact_log.
  destruct (Rlt_dec 0 (hi / lo)) as [_|Hn]; [|contradiction].
  destruct (Rlt_dec 0 r) as [_|Hn]; [|contradiction].
  unfold exact_div.
  destruct (Req_dec_T (ln r) 0) as [E|_]; [contradiction|reflexivity].
Qed.

(** In exact arithmetic, with positive sigmas of one length and a ratio
    other than 1, the mean of line 88 is [mean_log_ratio]. *)
Lemma exact_scale_mean (min_sigma max_sigma : list R) (sigma_ratio : R) :
  min_sigma <> [] ->
  Forall2 (fun lo hi => 0 < lo /\ 0 < hi) min_sigma max_sigma ->
  0 < sigma_ratio -> ln sigma_ratio <> 0 ->
  scale_mean (N := exact_arithmetic) min_sigma max_sigma sigma_ratio
  = Ok (Fin (mean_log_ratio min_sigma max_sigma sigma_ratio)).
Proof.
  intros Hne Hall Hr Hlr.
  pose proof (Forall2_length _ _ _ Hall) as Hlen.
  unfold scale_mean, log_ratio_plus_one.
  rewrite broadcast2_same_length by (symmetry; exact Hlen).
  cbn [mbind result_bind]. rewrite map_map. f_equal.
  cbn [f_add f_div f_log exact_arithmetic].
  assert (E : map (fun p : R * R =>
                     exact_add
                       (exact_div
                          (exact_log (exact_div (Fin (fst p)) (Fin (snd p))))
                          (exact_log (Fin sigma_ratio)))
                       (Fin 1))
                  (combine max_sigma min_sigma)
              = map Fin (map (fun p => ln (fst p / snd p) / ln sigma_ratio + 1)
                             (combine max_sigma min_sigma))).
  { clear Hne Hlen. induction Hall as [|lo hi ls hs [Hlo Hhi] _ IH];
      [reflexivity|].
    cbn [combine map fst snd]. rewrite IH. f_equal.
    rewrite exact_log_ratio by assumption. reflexivity. }
  rewrite E. rewrite exact_mean.
  - unfold mean_log_ratio. rewrite length_map, length_combine.
    do 3 f_equal. lia.
  - destruct min_sigma as [|a mn]; [congruence|].
    destruct max_sigma as [|b mx]; [discriminate|]. discriminate.
Qed.

Lemma exact_scale_count (min_sigma max_sigma : list R) (sigma_ratio : R) :
  min_sigma <> [] ->
  Forall2 (fun lo hi => 0 < lo /\ 0 < hi) min_sigma max_sigma ->
  0 < sigma_ratio -> ln sigma_ratio <> 0 ->
  scale_count (N := exact_arithmetic) min_sigma max_sigma sigma_ratio
  = Ok (py_int (mean_log_ratio min_sigma max_sigma sigma_ratio)).
Proof.
  intros Hne Hall Hr Hlr.
  now rewrite (scale_count_of_mean _ _ _ _
                 (exact_scale_mean _ _ _ Hne Hall Hr Hlr)).
Qed.

Lemma ln_above_1 (r : R) : 1 < r -> 0 < ln r.
Proof. intros Hr. rewrite <- ln_1. apply ln_increasing; lra. Qed.

Lemma log_ratio_terms_ge_1 (min_sigma max_sigma : list R) (sigma_ratio : R) :
  Forall2 (fun lo hi => 0 < lo <= hi) min_sigma max_sigma ->
  1 < sigma_ratio ->
  Forall (fun v => 1 <= v)
    (map (fun p => ln (fst p / snd p) / ln sigma_ratio + 1)
         (combine max_sigma min_sigma)).
Proof.
  intros Hall Hr.
  pose proof (ln_above_1 _ Hr) as Hlr.
  induction Hall as [|lo hi ls hs [Hlo Hhi] _ IH]; cbn [combine map].
  - constructor.
  - constructor; [|exact IH]. cbn [fst snd].
    assert (Hq : 1 <= hi / lo).
    { apply Rmult_le_reg_r with lo; [exact Hlo|].
      unfold Rdiv. rewrite Rmult_assoc, Rinv_l by lra. lra. }
    assert (Hln : 0 <= ln (hi / lo)).
    { destruct Hq as [Hq|Hq].
      - left. rewrite <- ln_1. apply ln_increasing; lra.
      - rewrite <- Hq, ln_1. lra. }
    assert (0 <= ln (hi / lo) / ln sigma_ratio).
    { apply Rmult_le_pos; [exact Hln|]. left. now apply Rinv_0_lt_compat. }
    lra.
Qed.

(** In exact arithmetic admissible parameters give at least one pair of
    adjacent scales. *)
Lemma admissible_scale_count (min_sigma max_sigma : list R) (sigma_ratio : R) :
  admissible min_sigma max_sigma sigma_ratio ->
  exists k,
    scale_count (N := exact_arithmetic) min_sigma max_sigma sigma_ratio = Ok k /\
    (1 <= k)%Z.
Proof.
  intros (Hne & Hall & Hr).
  pose proof (Forall2_length _ _ _ Hall) as Hlen.
  pose proof (ln_above_1 _ Hr) as Hlr.
  eexists. split.
  - apply exact_scale_count; [exact Hne| |lra|lra].
    eapply Forall2_impl; [exact Hall|]. cbn. intros lo hi [H1 H2]. lra.
  - apply py_int_ge_1. unfold mean_log_ratio.
    pose proof (log_ratio_terms_ge_1 _ _ _ Hall Hr) as Hge.
    set (l := map _ _) in *.
    assert (Hl : length l = length max_sigma).
    { unfold l. rewrite length_map, length_combine. lia. }
    rewrite <- Hl. apply mean_ge_1; [|exact Hge].
    intros ->. simpl in Hl. destruct max_sigma; [|discriminate].
    destruct min_sigma; [congruence|discriminate].
Qed.

Lemma admissible_1_3 (n : nat) :
  admissible (as_array (S n) (Scalar 1)) (as_array (S n) (Scalar 3)) 2.
Proof.
  split; [discriminate|]. split; [|lra].
  cbn [as_array]. induction (S n); cbn [repeat]; constructor; [lra|assumption].
Qed.

(** In exact arithmetic the mean for [min_sigma = 3], [max_sigma = 1],
    [sigma_ratio = 2] on every axis is [1 - log(3)/log(2)], about
    -0.585, which truncates to 0. *)
Lemma exact_scale_count_3_1 (n : nat) :
  scale_count (N := exact_arithmetic) (repeat 3 (S n)) (repeat 1 (S n)) 2
  = Ok 0%Z.
Proof.
  pose proof log2_3_bounds as [Hlo Hhi].
  pose proof (ln_above_1 2 ltac:(lra)) as H2.
  rewrite exact_scale_count; [|discriminate| |lra|lra].
  2:{ induction (S n); cbn [repeat]; constructor; [lra|assumption]. }
  f_equal. unfold mean_log_ratio.
  assert (Hterm : ln (1 / 3) / ln 2 + 1 = 1 - ln 3 / ln 2).
  { replace (1 / 3) with (/ 3) by lra. rewrite ln_Rinv by lra.
    unfold Rdiv. ring. }
  assert (Hsum : forall j,
            np_sum (map (fun p => ln (fst p / snd p) / ln 2 + 1)
                        (combine (repeat 1 j) (repeat 3 j)))
            = INR j * (1 - ln 3 / ln 2)).
  { induction j as [|j IH]; [cbn; lra|].
    cbn [repeat combine map fst snd].
    change (np_sum (?a :: ?l)) with (a + np_sum l).
    rewrite IH, Hterm, S_INR. ring. }
  rewrite Hsum, repeat_length.
  assert (Hn : INR (S n) <> 0) by (apply not_0_INR; discriminate).
  replace (INR (S n) * (1 - ln 3 / ln 2) / INR (S n))
    with (1 - ln 3 / ln 2) by (field; split; [lra|exact Hn]).
  set (x := 1 - ln 3 / ln 2).
  assert (Hx : -1 < x < 0) by (unfold x; lra).
  destruct (py_int_neg x) as [H1 H3]; [lra|].
  assert (Ha : IZR (py_int x) < IZR 1) by (simpl; lra).
  assert (Hb : IZR (-1) < IZR (py_int x)) by (simpl; lra).
  apply lt_IZR in Ha, Hb. lia.
Qed.

(** ** The search over the scales *)

Lemma Forall2_In_r {A B : Type} (P : A -> B -> Prop) (l : list A)
    (k : list B) (y : B) :
  Forall2 P l k -> In y k -> exists x, In x l /\ P x y.
Proof.
  induction 1 as [|x y' l k Hxy _ IH]; intros Hin; [contradiction|].
  destruct Hin as [<-|Hin].
  - exists x. split; [now left|exact Hxy].
  - destruct (IH Hin) as (x' & Hx' & Hp). exists x'. split; [now right|exact Hp].
Qed.

Lemma combine_map_self {A B : Type} (g : A -> B) (l : list A) :
  combine l (map g l) = map (fun x => (x, g x)) l.
Proof. induction l as [|x l IH]; cbn; [reflexivity|now rewrite IH]. Qed.

Lemma concatenate_same_width (c : nat) (arrs : list ndarray) :
  arrs <> [] ->
  Forall (fun a => ncols a = c) arrs ->
  concatenate arrs = Ok (mk_ndarray c (concat (map rows arrs))).
Proof.
  intros Hne Hall. destruct arrs as [|a rest]; [congruence|].
  apply Forall_cons in Hall as [Ha Hrest].
  cbn [concatenate]. rewrite (proj2 (forallb_forall _ _)).
  - now rewrite Ha.
  - intros b Hb. apply Nat.eqb_eq. rewrite Ha.
    rewrite List.Forall_forall in Hrest. now apply Hrest.
Qed.

Section WithBackend.

Context {N : Numpy} {image : Type} `{BackendLaws image}.

(** C1 (as the code has it): the scale count [k] of [blob_dog] is
    [int(m)], where [m] is the float64 that numpy computes for the mean
    of [log(max_sigma/min_sigma)/log(sigma_ratio) + 1]: [m] truncated
    toward zero (not rounded), that is [|k| <= |m| < |k| + 1] with the
    sign of [m].  The progression built from it has [k + 1] vectors
    (none when [k + 1 <= 0]), the [i]-th being
    [min_sigma * sigma_ratio ** i], and [blob_dog] searches the [k]
    pairs of adjacent vectors of this progression.  When [m] is an
    infinity or NaN, when the sigmas cannot be broadcast or when a
    power of the progression is out of range, [blob_dog] raises. *)
Theorem blob_dog_scale_count_truncates (img : image)
    (min_sigma max_sigma : sigma_arg) (sigma_ratio threshold_rel overlap : R) :
  let mn := as_array (ndim img) min_sigma in
  let mx := as_array (ndim img) max_sigma in
  match scale_mean mn mx sigma_ratio with
  | Ok (Fin m) =>
      exists k : Z,
        (Rabs (IZR k) <= Rabs m < Rabs (IZR k) + 1 /\ 0 <= IZR k * m) /\
        scale_count mn mx sigma_ratio = Ok k /\
        match sigma_list mn sigma_ratio k with
        | Ok sl =>
            length sl = Z.to_nat (k + 1) /\
            (forall i : nat, (i < Z.to_nat (k + 1))%nat ->
               exists p : R,
                 f_pow sigma_ratio i = Ok p /\
                 nth i sl [] = map (fun s => f_mul s p) mn) /\
            blob_dog img min_sigma max_sigma sigma_ratio threshold_rel overlap
            = detect img (isscalar max_sigma && isscalar min_sigma) sl k
                     threshold_rel overlap
        | Raise e =>
            blob_dog img min_sigma max_sigma sigma_ratio threshold_rel overlap
            = Raise e
        end
  | Ok (Inf _) =>
      blob_dog img min_sigma max_sigma sigma_ratio threshold_rel overlap
      = Raise (Exception "OverflowError: cannot convert float infinity to integer")
  | Ok NaN =>
      blob_dog img min_sigma max_sigma sigma_ratio threshold_rel overlap
      = Raise (ValueError "cannot convert float NaN to integer")
  | Raise e =>
      blob_dog img min_sigma max_sigma sigma_ratio threshold_rel overlap
      = Raise e
  end.
Proof.
  cbn zeta. unfold blob_dog, scale_count.
  destruct (scale_mean _ _ sigma_ratio) as [[m|s|]|e];
    cbn [mbind result_bind int_of_float]; try reflexivity.
  exists (py_int m).
  split; [apply py_int_truncates|].
  split; [reflexivity|].
  destruct (sigma_list _ sigma_ratio (py_int m)) as [sl|e] eqn:Esl;
    cbn [mbind result_bind]; [|reflexivity].
  destruct (sigma_list_ok _ _ _ _ Esl) as [Hlen Hnth].
  split; [exact Hlen|]. split; [exact Hnth|reflexivity].
Qed.

(** A pass of the loop that returns has run both filters; its array has
    one column more than the image has axes, and its rows are the
    coordinates of a peak followed by the index of the scale. *)
Lemma scale_peaks_ok (img : image) (sl : list (list R)) (t : R) (i : nat)
    (a : ndarray) :
  scale_peaks img sl t i = Ok a ->
  length (nth i sl []) = ndim img /\
  length (nth (i + 1) sl []) = ndim img /\
  ncols a = (ndim img + 1)%nat /\
  Forall (fun b => exists r0 : list Z,
                     b = (map IZR r0 ++ [INR i])%list /\ length r0 = ndim img)
         (rows a).
Proof.
  unfold scale_peaks.
  destruct (gaussian img (nth i sl [])) as [low|e] eqn:Elow;
    cbn [mbind result_bind]; [|discriminate].
  destruct (gaussian img (nth (i + 1) sl [])) as [high|e] eqn:Ehigh;
    cbn [mbind result_bind]; [|discriminate].
  intros [= <-].
  apply gaussian_ndim in Elow as [Hlo Hlow], Ehigh as [Hhi _].
  split; [exact Hlo|]. split; [exact Hhi|]. split; [reflexivity|].
  cbn [rows with_scale_index]. apply List.Forall_forall. intros b Hb.
  apply List.in_map_iff in Hb as (r0 & <- & Hr0).
  exists r0. split; [reflexivity|].
  apply peak_width in Hr0. now rewrite ndim_dog, Hlow in Hr0.
Qed.

(** [detect] once every pass of a loop of at least one pass has
    returned. *)
Lemma detect_eq (img : image) (sc : bool) (sl : list (list R)) (k : Z)
    (t ov : R) (arrs : list ndarray) :
  (1 <= k)%Z ->
  mapM (scale_peaks img sl t) (py_range k) = Ok arrs ->
  detect img sc sl k t ov
  = let blobs := concat (map rows arrs) in
    match blobs with
    | [] => Ok (np_empty 3)
    | _ :: _ =>
        let sigmas := sigmas_of_peaks sl blobs in
        let sigmas := if sc then map (firstn 1) sigmas else sigmas in
        let sigma_dim := length (hd [] sigmas) in
        Ok (prune_blobs
              (mk_ndarray (ndim img + 1 - 1 + sigma_dim)
                          (hstack_sigmas blobs sigmas))
              ov sigma_dim)
    end.
Proof.
  intros Hk Hm. unfold detect. rewrite Hm. cbn [mbind result_bind].
  apply mapM_ok_Forall2 in Hm.
  rewrite (concatenate_same_width (ndim img + 1)).
  - cbn [mbind result_bind]. unfold size, nrows. cbn [rows ncols].
    destruct (concat (map rows arrs)) as [|b blobs]; [reflexivity|].
    cbn zeta. rewrite (proj2 (Nat.eqb_neq _ _)); [reflexivity|].
    cbn [length]. lia.
  - apply Forall2_length in Hm. unfold py_range in Hm.
    rewrite length_seq in Hm. destruct arrs; [cbn in Hm; lia|discriminate].
  - apply List.Forall_forall. intros a Ha.
    destruct (Forall2_In_r _ _ _ _ Hm Ha) as (i & _ & Hi).
    now apply scale_peaks_ok in Hi.
Qed.

(** A call that returns went through at least one scale pair, and every
    pass of its loop returned. *)
Lemma blob_dog_ok_inv (img : image) (min_sigma max_sigma : sigma_arg)
    (r t ov : R) (a : ndarray) :
  blob_dog img min_sigma max_sigma r t ov = Ok a ->
  exists (k : Z) (sl : list (list R)) (arrs : list ndarray),
    scale_count (as_array (ndim img) min_sigma)
                (as_array (ndim img) max_sigma) r = Ok k /\
    (1 <= k)%Z /\
    sigma_list (as_array (ndim img) min_sigma) r k = Ok sl /\
    mapM (scale_peaks img sl t) (py_range k) = Ok arrs.
Proof.
  unfold blob_dog.
  destruct (scale_count _ _ r) as [k|e]; cbn [mbind result_bind];
    [|discriminate].
  destruct (sigma_list _ r k) as [sl|e] eqn:Esl; cbn [mbind result_bind];
    [|discriminate].
  unfold detect.
  destruct (mapM _ (py_range k)) as [arrs|e] eqn:Em; cbn [mbind result_bind];
    [|discriminate].
  intros Hok. exists k, sl, arrs. split; [reflexivity|].
  split; [|split; [exact Esl|exact Em]].
  destruct (Z_le_gt_dec 1 k) as [Hk|Hk]; [exact Hk|exfalso].
  unfold py_range in Em. replace (Z.to_nat k) with 0%nat in Em by lia.
  cbn in Em. injection Em as <-. cbn in Hok. discriminate.
Qed.

(** With a scale count below 1 the loop does not run and
    [cp.concatenate] raises on the empty list. *)
Lemma blob_dog_no_scale (img : image) (min_sigma max_sigma : sigma_arg)
    (r t ov : R) (k : Z) :
  scale_count (as_array (ndim img) min_sigma)
              (as_array (ndim img) max_sigma) r = Ok k ->
  (k <= 0)%Z ->
  match sigma_list (as_array (ndim img) min_sigma) r k with
  | Ok _ =>
      blob_dog img min_sigma max_sigma r t ov
      = Raise (ValueError "need at least one array to concatenate")
  | Raise e => blob_dog img min_sigma max_sigma r t ov = Raise e
  end.
Proof.
  intros Hsc Hk. unfold blob_dog. rewrite Hsc. cbn [mbind result_bind].
  destruct (sigma_list _ r k) as [sl|e]; cbn [mbind result_bind];
    [|reflexivity].
  unfold detect, py_range. replace (Z.to_nat k) with 0%nat by lia.
  reflexivity.
Qed.

Lemma blob_dog_eq (img : image) (min_sigma max_sigma : sigma_arg)
    (r t ov : R) (k : Z) (sl : list (list R)) (arrs : list ndarray) :
  scale_count (as_array (ndim img) min_sigma) (as_array (ndim img) max_sigma) r
  = Ok k ->
  (1 <= k)%Z ->
  sigma_list (as_array (ndim img) min_sigma) r k = Ok sl ->
  mapM (scale_peaks img sl t) (py_range k) = Ok arrs ->
  blob_dog img min_sigma max_sigma r t ov
  = let blobs := concat (map rows arrs) in
    match blobs with
    | [] => Ok (np_empty 3)
    | _ :: _ =>
        let sigmas := sigmas_of_peaks sl blobs in
        let sigmas := if isscalar max_sigma && isscalar min_sigma
                      then map (firstn 1) sigmas else sigmas in
        let sigma_dim := length (hd [] sigmas) in
        Ok (prune_blobs
              (mk_ndarray (ndim img + 1 - 1 + sigma_dim)
                          (hstack_sigmas blobs sigmas))
              ov sigma_dim)
    end.
Proof.
  intros Hsc Hk Hsl Hm. unfold blob_dog. rewrite Hsc. cbn [mbind result_bind].
  rewrite Hsl. cbn [mbind result_bind]. now apply detect_eq.
Qed.

(** When the progression is built and the [k >= 1] passes of the loop
    all return without a peak, the result is the empty array of three
    columns. *)
Lemma blob_dog_no_peaks (img : image) (min_sigma max_sigma : sigma_arg)
    (r t ov : R) (k : Z) (sl : list (list R)) :
  scale_count (as_array (ndim img) min_sigma) (as_array (ndim img) max_sigma) r
  = Ok k ->
  (1 <= k)%Z ->
  sigma_list (as_array (ndim img) min_sigma) r k = Ok sl ->
  no_peaks img min_sigma max_sigma r t ->
  blob_dog img min_sigma max_sigma r t ov = Ok (np_empty 3).
Proof.
  intros Hsc Hk Hsl Hnone.
  destruct (mapM_all_ok (scale_peaks img sl t) (py_range k)) as [arrs Hm].
  { intros i Hi. destruct (Hnone k sl i Hsc Hsl Hi) as (lm & Hlm & _).
    now exists lm. }
  rewrite (blob_dog_eq _ _ _ _ _ _ k sl arrs Hsc Hk Hsl Hm). cbn zeta.
  assert (Hg : concat (map rows arrs) = []).
  { apply mapM_ok_Forall2 in Hm. apply concat_nil_Forall.
    apply List.Forall_forall. intros rs Hrs.
    apply List.in_map_iff in Hrs as (a & <- & Ha).
    destruct (Forall2_In_r _ _ _ _ Hm Ha) as (i & Hi & Hpi).
    destruct (Hnone k sl i Hsc Hsl Hi) as (lm & Hlm & Hrows). congruence. }
  now rewrite Hg.
Qed.

(** Every gathered row is the coordinates of a peak followed by the
    index of its scale. *)
Lemma gathered_row (img : image) (sl : list (list R)) (t : R) (k : Z)
    (arrs : list ndarray) (b : list R) :
  mapM (scale_peaks img sl t) (py_range k) = Ok arrs ->
  In b (concat (map rows arrs)) ->
  exists (r0 : list Z) (i : nat),
    b = (map IZR r0 ++ [INR i])%list /\ length r0 = ndim img /\
    (i < Z.to_nat k)%nat.
Proof.
  intros Hm Hin. apply mapM_ok_Forall2 in Hm.
  apply List.in_concat in Hin as (rs & Hrs & Hb).
  apply List.in_map_iff in Hrs as (a & <- & Ha).
  destruct (Forall2_In_r _ _ _ _ Hm Ha) as (i & Hi & Hpi).
  apply scale_peaks_ok in Hpi as (_ & _ & _ & Hrows).
  rewrite List.Forall_forall in Hrows.
  destruct (Hrows b Hb) as (r0 & -> & Hr0).
  exists r0, i. split; [reflexivity|]. split; [exact Hr0|].
  unfold py_range in Hi. apply List.in_seq in Hi. lia.
Qed.

(** The sigma columns attached to a gathered row: the vector of its
    scale, cut to its first entry in scalar mode. *)
Lemma sigma_columns_length (img : image) (mn : list R) (r t : R) (k : Z)
    (sl : list (list R)) (arrs : list ndarray) (scalar_sigma : bool)
    (b : list R) :
  mn <> [] ->
  sigma_list mn r k = Ok sl ->
  mapM (scale_peaks img sl t) (py_range k) = Ok arrs ->
  In b (concat (map rows arrs)) ->
  length b = (ndim img + 1)%nat /\
  length (List.removelast b) = ndim img /\
  length ((if scalar_sigma then firstn 1 else fun s => s)
            (nth (Z.to_nat (py_int (List.last b 0))) sl []))
  = if scalar_sigma then 1%nat else length mn.
Proof.
  intros Hne Hsl Hm Hin.
  destruct (gathered_row _ _ _ _ _ _ Hm Hin) as (r0 & i & -> & Hr0 & Hi).
  rewrite List.last_last, List.removelast_last, py_int_INR, Nat2Z.id.
  pose proof (sigma_list_nth_length _ _ _ _ i Hsl ltac:(lia)) as Hnth.
  rewrite length_app, !length_map. cbn [length].
  split; [lia|]. split; [exact Hr0|].
  destruct scalar_sigma; [|exact Hnth].
  rewrite length_firstn, Hnth.
  destruct mn; [congruence|]. cbn [length]. lia.
Qed.

(** C7: in a non-empty result every row has [image.ndim] coordinates
    followed by one sigma column when both [min_sigma] and [max_sigma]
    were scalars, and by one sigma column per image axis otherwise (a
    sequence [min_sigma] giving one value per axis). *)
Theorem blob_dog_sigma_columns (img : image) (min_sigma max_sigma : sigma_arg)
    (sigma_ratio threshold_rel overlap : R) (a : ndarray) :
  length (as_array (ndim img) min_sigma) = ndim img ->
  blob_dog img min_sigma max_sigma sigma_ratio threshold_rel overlap = Ok a ->
  rows a <> [] ->
  let sigma_dim :=
    if isscalar max_sigma && isscalar min_sigma then 1%nat else ndim img in
  ncols a = (ndim img + sigma_dim)%nat /\
  Forall (fun row => length row = (ndim img + sigma_dim)%nat) (rows a).
Proof.
  intros Hlen Hok Hrows.
  destruct (blob_dog_ok_inv _ _ _ _ _ _ _ Hok)
    as (k & sl & arrs & Hsc & Hk & Hsl & Hm).
  pose proof (scale_count_ok_nonempty _ _ _ _ Hsc) as Hne.
  rewrite (blob_dog_eq _ _ _ _ _ _ k sl arrs Hsc Hk Hsl Hm) in Hok.
  cbn zeta in Hok.
  set (mn := as_array (ndim img) min_sigma) in *.
  set (sc := isscalar max_sigma && isscalar min_sigma) in *.
  destruct (concat (map rows arrs)) as [|b0 blobs] eqn:Eg.
  { injection Hok as <-. now contradiction Hrows. }
  set (g := fun b : list R =>
              (if sc then firstn 1 else fun s => s)
                (nth (Z.to_nat (py_int (List.last b 0))) sl [])).
  assert (Hsig : (if sc then map (firstn 1) (sigmas_of_peaks sl (b0 :: blobs))
                  else sigmas_of_peaks sl (b0 :: blobs))
                 = map g (b0 :: blobs)).
  { unfold sigmas_of_peaks, g. destruct sc; [now rewrite map_map|reflexivity]. }
  rewrite Hsig in Hok. clear Hsig.
  assert (Hall : forall b, In b (b0 :: blobs) ->
            length (List.removelast b) = ndim img /\
            length (g b) = if sc then 1%nat else ndim img).
  { intros b Hb. rewrite <- Eg in Hb.
    destruct (sigma_columns_length img mn sigma_ratio threshold_rel k sl arrs
                sc b Hne Hsl Hm Hb) as (_ & H1 & H2).
    split; [exact H1|]. unfold g. rewrite H2. now rewrite Hlen. }
  assert (Hd : length (hd [] (map g (b0 :: blobs)))
               = if sc then 1%nat else ndim img).
  { cbn [map hd]. apply Hall. now left. }
  rewrite Hd in Hok. injection Hok as <-. cbn zeta. split.
  - rewrite prune_ncols. cbn [ncols]. lia.
  - apply List.Forall_forall. intros row Hrow.
    apply prune_rows in Hrow. cbn [rows] in Hrow.
    unfold hstack_sigmas in Hrow.
    change (g b0 :: map g blobs) with (map g (b0 :: blobs)) in Hrow.
    rewrite combine_map_self, map_map in Hrow.
    apply List.in_map_iff in Hrow as (b & <- & Hb). cbn [fst snd].
    destruct (Hall b Hb) as [H1 H2]. rewrite length_app. lia.
Qed.

(** C6 (as the code has it): when line 88 gives a scale count [k >= 1],
    lines 91-92 build the progression and each of the [k] passes of the
    loop returns without a local maximum, [blob_dog] returns (no
    exception) an array of zero rows. *)
Theorem blob_dog_no_peaks_returns_empty (img : image)
    (min_sigma max_sigma : sigma_arg) (sigma_ratio threshold_rel overlap : R)
    (k : Z) (sl : list (list R)) :
  scale_count (as_array (ndim img) min_sigma) (as_array (ndim img) max_sigma)
              sigma_ratio = Ok k ->
  (1 <= k)%Z ->
  sigma_list (as_array (ndim img) min_sigma) sigma_ratio k = Ok sl ->
  no_peaks img min_sigma max_sigma sigma_ratio threshold_rel ->
  exists a : ndarray,
    blob_dog img min_sigma max_sigma sigma_ratio threshold_rel overlap = Ok a /\
    nrows a = 0%nat /\ rows a = [].
Proof.
  intros Hsc Hk Hsl Hnone. exists (np_empty 3).
  split; [now apply (blob_dog_no_peaks _ _ _ _ _ _ k sl)|]. split; reflexivity.
Qed.

(** C10 (as the code has it): when line 88 gives a scale count
    [k >= 1], lines 91-92 build the progression and each of the [k]
    passes of the loop returns without a candidate, the result has
    shape (0, 3) whatever the dimensionality of the image and whether
    the sigmas were scalars or sequences; for a 3D image its 3 columns
    are neither the 4 nor the 6 of a non-empty result. *)
Theorem blob_dog_empty_result_shape (img : image)
    (min_sigma max_sigma : sigma_arg) (sigma_ratio threshold_rel overlap : R)
    (k : Z) (sl : list (list R)) :
  scale_count (as_array (ndim img) min_sigma) (as_array (ndim img) max_sigma)
              sigma_ratio = Ok k ->
  (1 <= k)%Z ->
  sigma_list (as_array (ndim img) min_sigma) sigma_ratio k = Ok sl ->
  no_peaks img min_sigma max_sigma sigma_ratio threshold_rel ->
  exists a : ndarray,
    blob_dog img min_sigma max_sigma sigma_ratio threshold_rel overlap = Ok a /\
    nrows a = 0%nat /\ ncols a = 3%nat /\
    (ndim img = 3%nat ->
     ncols a <> (ndim img + 1)%nat /\ ncols a <> (ndim img + ndim img)%nat).
Proof.
  intros Hsc Hk Hsl Hnone. exists (np_empty 3).
  split; [now apply (blob_dog_no_peaks _ _ _ _ _ _ k sl)|].
  split; [reflexivity|]. split; [reflexivity|].
  intros ->. cbn [np_empty ncols]. lia.
Qed.

End WithBackend.

(** ** On the small backends *)

Lemma toy_gaussian_ok (n : nat) (s : list R) (g : nat) :
  toy_gaussian n s = Ok g -> length s = n /\ g = n.
Proof.
  unfold toy_gaussian. destruct (Nat.eqb (length s) n) eqn:E; [|discriminate].
  apply Nat.eqb_eq in E. now intros [= <-].
Qed.

Lemma blank_backend_laws : @BackendLaws nat blank_backend.
Proof.
  split; cbn; intros; try reflexivity; try assumption.
  - now apply toy_gaussian_ok.
  - contradiction.
Qed.

Lemma origin_backend_laws : @BackendLaws nat origin_backend.
Proof.
  split; cbn; intros; try reflexivity; try assumption.
  - now apply toy_gaussian_ok.
  - destruct H as [<-|[]]. apply repeat_length.
Qed.

(** On an image of [n] axes the filter accepts every vector of a
    progression built from [n] sigmas. *)
Lemma toy_gaussian_progression {N : Numpy} (n : nat) (mn : list R) (r : R)
    (k : Z) (sl : list (list R)) (i : nat) :
  length mn = n -> sigma_list mn r k = Ok sl -> (i < Z.to_nat (k + 1))%nat ->
  toy_gaussian n (nth i sl []) = Ok n.
Proof.
  intros Hlen Hsl Hi. unfold toy_gaussian.
  rewrite (sigma_list_nth_length _ _ _ _ i Hsl Hi), Hlen, Nat.eqb_refl.
  reflexivity.
Qed.

Lemma blank_scale_peaks {N : Numpy} (n : nat) (mn : list R) (r t : R) (k : Z)
    (sl : list (list R)) (i : nat) :
  length mn = n -> sigma_list mn r k = Ok sl -> In i (py_range k) ->
  scale_peaks (H := blank_backend) n sl t i = Ok (mk_ndarray (n + 1) []).
Proof.
  intros Hlen Hsl Hi. unfold py_range in Hi. apply List.in_seq in Hi.
  unfold scale_peaks. cbn [gaussian blank_backend].
  rewrite !(toy_gaussian_progression n mn r k sl) by (assumption || lia).
  reflexivity.
Qed.

Lemma blank_no_peaks {N : Numpy} (n : nat) (min_sigma max_sigma : sigma_arg)
    (r t : R) :
  length (as_array n min_sigma) = n ->
  no_peaks (H := blank_backend) n min_sigma max_sigma r t.
Proof.
  intros Hlen k sl i _ Hsl Hi. eexists. split.
  - exact (blank_scale_peaks n _ r t k sl i Hlen Hsl Hi).
  - reflexivity.
Qed.

Lemma origin_scale_peaks {N : Numpy} (n : nat) (mn : list R) (r t : R) (k : Z)
    (sl : list (list R)) (i : nat) :
  length mn = n -> sigma_list mn r k = Ok sl -> In i (py_range k) ->
  scale_peaks (H := origin_backend) n sl t i
  = Ok (mk_ndarray (n + 1) [(map IZR (repeat 0%Z n) ++ [INR i])%list]).
Proof.
  intros Hlen Hsl Hi. unfold py_range in Hi. apply List.in_seq in Hi.
  unfold scale_peaks. cbn [gaussian origin_backend].
  rewrite !(toy_gaussian_progression n mn r k sl) by (assumption || lia).
  reflexivity.
Qed.

(** On the second backend, with one sigma per axis and at least one
    scale pair, every pass returns one row. *)
Lemma origin_passes {N : Numpy} (n : nat) (mn : list R) (r t : R) (k : Z)
    (sl : list (list R)) :
  length mn = n -> (1 <= k)%Z -> sigma_list mn r k = Ok sl ->
  exists arrs,
    mapM (scale_peaks (H := origin_backend) n sl t) (py_range k) = Ok arrs /\
    concat (map rows arrs) <> [].
Proof.
  intros Hlen Hk Hsl.
  destruct (mapM_all_ok (scale_peaks (H := origin_backend) n sl t)
              (py_range k)) as [arrs Hm].
  { intros i Hi. eexists. exact (origin_scale_peaks n mn r t k sl i Hlen Hsl Hi). }
  exists arrs. split; [exact Hm|].
  apply mapM_ok_Forall2 in Hm.
  assert (H0 : In 0%nat (py_range k)).
  { unfold py_range. apply List.in_seq. lia. }
  pose proof (origin_scale_peaks n mn r t k sl 0 Hlen Hsl H0) as E0.
  unfold py_range in Hm.
  destruct (Z.to_nat k) as [|j] eqn:Ej; [lia|].
  cbn [seq] in Hm. inversion Hm as [|i a l arrs' Ha Hrest]; subst.
  rewrite E0 in Ha. injection Ha as <-. cbn. discriminate.
Qed.

(** In exact arithmetic lines 91-92 always build the progression. *)
Lemma exact_sigma_list (mn : list R) (r : R) (k : Z) :
  exists sl, sigma_list (N := exact_arithmetic) mn r k = Ok sl.
Proof.
  unfold sigma_list. apply mapM_all_ok. intros i _. eexists. reflexivity.
Qed.

(** In exact arithmetic, with [min_sigma = 1], [max_sigma = 3] and
    [sigma_ratio = 2]: the mean of line 88, the scale count of the code
    and the rounded count of the specification. *)
Lemma exact_scale_count_1_3 :
  scale_mean (N := exact_arithmetic) [1] [3] 2 = Ok (Fin (ln 3 / ln 2 + 1)) /\
  scale_count (N := exact_arithmetic) [1] [3] 2 = Ok 2%Z /\
  spec_scale_count (N := exact_arithmetic) [1] [3] 2 = Ok 3%Z.
Proof.
  pose proof (ln_above_1 2 ltac:(lra)) as H2.
  assert (E : 3 / 1 = 3) by lra.
  assert (Hm : scale_mean (N := exact_arithmetic) [1] [3] 2
               = Ok (Fin (ln 3 / ln 2 + 1))).
  { rewrite exact_scale_mean;
      [|discriminate|repeat constructor; lra|lra|lra].
    unfold mean_log_ratio.
    cbn [combine map np_sum fold_right fst snd length INR].
    rewrite E. do 2 f_equal. lra. }
  assert (Hm' : spec_scale_mean (N := exact_arithmetic) [1] [3] 2
                = Ok (Fin (ln 3 / ln 2 + 1))).
  { unfold spec_scale_mean. rewrite broadcast2_same_length by reflexivity.
    cbn [mbind result_bind combine map fst snd f_div f_log f_add
         exact_arithmetic].
    rewrite exact_log_ratio by lra.
    pose proof (exact_mean [ln (3 / 1) / ln 2] ltac:(discriminate)) as Em.
    cbn [map] in Em. rewrite Em.
    cbn [exact_add np_sum fold_right length INR].
    rewrite E. do 2 f_equal. lra. }
  split; [exact Hm|].
  apply (scale_count_truncates_under_rounding _ _ Hm Hm');
    replace (ln 3 / ln 2 + 1 - (ln 3 / ln 2 + 1)) with 0 by lra;
    rewrite Rabs_R0; lra.
Qed.

Lemma blob_dog_scale_count_truncates_witness :
  exists (m : R) (k : Z) (sl : list (list R)),
    scale_mean (N := exact_arithmetic) [1] [3] 2 = Ok (Fin m) /\
    (Rabs (IZR k) <= Rabs m < Rabs (IZR k) + 1 /\ 0 <= IZR k * m) /\
    scale_count (N := exact_arithmetic) [1] [3] 2 = Ok k /\
    k = 2%Z /\
    sigma_list (N := exact_arithmetic) [1] 2 k = Ok sl /\
    length sl = 3%nat /\
    blob_dog (N := exact_arithmetic) (H := blank_backend) 1%nat
             (Scalar 1) (Scalar 3) 2 (1 / 20) (4 / 5)
    = detect (H := blank_backend) 1%nat true sl k (1 / 20) (4 / 5).
Proof.
  destruct exact_scale_count_1_3 as (Hm & Hsc & _).
  pose proof (blob_dog_scale_count_truncates (N := exact_arithmetic)
                (H := blank_backend) 1%nat (Scalar 1) (Scalar 3) 2
                (1 / 20) (4 / 5)) as T.
  cbn zeta in T. cbn [ndim blank_backend as_array repeat] in T.
  rewrite Hm in T. destruct T as (k & Htrunc & Hk & T).
  assert (Ek : k = 2%Z) by congruence.
  exists (ln 3 / ln 2 + 1), k.
  destruct (sigma_list (N := exact_arithmetic) [1] 2 k) as [sl|e] eqn:Esl.
  - destruct T as (Hlen & _ & Hdog). exists sl.
    split; [exact Hm|]. split; [exact Htrunc|]. split; [exact Hk|].
    split; [exact Ek|]. split; [reflexivity|].
    split; [rewrite Hlen, Ek; reflexivity|exact Hdog].
  - exfalso. destruct (exact_sigma_list [1] 2 k) as [sl Hsl]. congruence.
Defined.

(** C1, refuted as stated: with [min_sigma = 1], [max_sigma = 3] and
    [sigma_ratio = 2] the mean is [log(3)/log(2) + 1], about 2.585; the
    code's scale count is 2 and its progression has 3 vectors, the
    rounded count of the specification is 3. *)
Lemma scale_count_is_not_rounded :
  scale_count (N := exact_arithmetic) [1] [3] 2 = Ok 2%Z /\
  spec_scale_count (N := exact_arithmetic) [1] [3] 2 = Ok 3%Z /\
  length (sigma_progression (N := exact_arithmetic) [1] 2 2) = 3%nat.
Proof.
  destruct exact_scale_count_1_3 as (_ & H1 & H2).
  split; [exact H1|]. split; [exact H2|reflexivity].
Qed.

(** With reversed bounds in exact arithmetic, on the first backend:
    nothing is found, there being no scale to look at, and the call
    raises. *)
Lemma blank_reversed_bounds (n : nat) (min_sigma max_sigma : sigma_arg) :
  as_array (S n) min_sigma = repeat 3 (S n) ->
  as_array (S n) max_sigma = repeat 1 (S n) ->
  no_peaks (N := exact_arithmetic) (H := blank_backend) (S n)
           min_sigma max_sigma 2 (1 / 20) /\
  blob_dog (N := exact_arithmetic) (H := blank_backend) (S n)
           min_sigma max_sigma 2 (1 / 20) (4 / 5)
  = Raise (ValueError "need at least one array to concatenate").
Proof.
  intros Hmin Hmax. split.
  - apply blank_no_peaks. rewrite Hmin. apply repeat_length.
  - pose proof (blob_dog_no_scale (N := exact_arithmetic) (H := blank_backend)
                  (S n) min_sigma max_sigma 2 (1 / 20) (4 / 5) 0) as Hraise.
    cbn [ndim blank_backend] in Hraise. rewrite Hmin, Hmax in Hraise.
    specialize (Hraise (exact_scale_count_3_1 n) ltac:(lia)).
    destruct (exact_sigma_list (repeat 3 (S n)) 2 0) as [sl Hsl].
    rewrite Hsl in Hraise. exact Hraise.
Qed.

(** C6, refuted as stated: on a one-dimensional image with
    [min_sigma = 3], [max_sigma = 1] and [sigma_ratio = 2] the scale
    count is 0; no local maximum is found at any scale, there being no
    scale to look at, and [blob_dog] raises [ValueError] instead of
    returning an empty result. *)
Lemma blob_dog_no_scale_no_peaks_raises :
  no_peaks (N := exact_arithmetic) (H := blank_backend) 1%nat
           (Scalar 3) (Scalar 1) 2 (1 / 20) /\
  exists msg : string,
    blob_dog (N := exact_arithmetic) (H := blank_backend) 1%nat
             (Scalar 3) (Scalar 1) 2 (1 / 20) (4 / 5)
    = Raise (ValueError msg).
Proof.
  destruct (blank_reversed_bounds 0 (Scalar 3) (Scalar 1) eq_refl eq_refl)
    as [Hnone Hraise].
  split; [exact Hnone|]. eexists. exact Hraise.
Qed.

(** C10, refuted as stated: on a three-dimensional image with per-axis
    sigmas [min_sigma = (3, 3, 3)] and [max_sigma = (1, 1, 1)] and
    [sigma_ratio = 2] no candidate is found at any scale, and
    [blob_dog] returns no array at all, of 3 columns or otherwise: it
    raises. *)
Lemma blob_dog_no_scale_has_no_shape :
  no_peaks (N := exact_arithmetic) (H := blank_backend) 3%nat
           (Sequence [3; 3; 3]) (Sequence [1; 1; 1]) 2 (1 / 20) /\
  (forall a : ndarray,
     blob_dog (N := exact_arithmetic) (H := blank_backend) 3%nat
              (Sequence [3; 3; 3]) (Sequence [1; 1; 1]) 2 (1 / 20) (4 / 5)
     <> Ok a) /\
  is_ok (blob_dog (N := exact_arithmetic) (H := blank_backend) 3%nat
                  (Sequence [3; 3; 3]) (Sequence [1; 1; 1]) 2 (1 / 20) (4 / 5))
  = false.
Proof.
  destruct (blank_reversed_bounds 2 (Sequence [3; 3; 3]) (Sequence [1; 1; 1])
              eq_refl eq_refl) as [Hnone Hraise].
  split; [exact Hnone|]. rewrite Hraise. split; [discriminate|reflexivity].
Qed.

Lemma blob_dog_no_peaks_returns_empty_witness :
  exists a : ndarray,
    blob_dog (N := exact_arithmetic) (H := blank_backend) 3%nat
             (Scalar 1) (Scalar 3) 2 (1 / 20) (4 / 5) = Ok a /\
    nrows a = 0%nat /\ rows a = [].
Proof.
  destruct (admissible_scale_count _ _ _ (admissible_1_3 2)) as (k & Hsc & Hk).
  destruct (exact_sigma_list (as_array 3 (Scalar 1)) 2 k) as [sl Hsl].
  apply (blob_dog_no_peaks_returns_empty (N := exact_arithmetic)
           (H := blank_backend) (H0 := blank_backend_laws) 3%nat (Scalar 1)
           (Scalar 3) 2 (1 / 20) (4 / 5) k sl Hsc Hk Hsl).
  now apply blank_no_peaks.
Defined.

Lemma blob_dog_empty_result_shape_witness :
  exists a : ndarray,
    blob_dog (N := exact_arithmetic) (H := blank_backend) 3%nat
             (Sequence [1; 1; 1]) (Sequence [3; 4; 5]) 2 (1 / 20) (4 / 5)
    = Ok a /\
    nrows a = 0%nat /\ ncols a = 3%nat /\
    (3%nat = 3%nat -> ncols a <> (3 + 1)%nat /\ ncols a <> (3 + 3)%nat).
Proof.
  assert (Hadm : admissible (as_array 3 (Sequence [1; 1; 1]))
                            (as_array 3 (Sequence [3; 4; 5])) 2).
  { split; [discriminate|]. split; [|lra].
    cbn [as_array]. repeat constructor; lra. }
  destruct (admissible_scale_count _ _ _ Hadm) as (k & Hsc & Hk).
  destruct (exact_sigma_list (as_array 3 (Sequence [1; 1; 1])) 2 k)
    as [sl Hsl].
  apply (blob_dog_empty_result_shape (N := exact_arithmetic)
           (H := blank_backend) (H0 := blank_backend_laws) 3%nat
           (Sequence [1; 1; 1]) (Sequence [3; 4; 5]) 2 (1 / 20) (4 / 5) k sl
           Hsc Hk Hsl).
  now apply blank_no_peaks.
Defined.

(** On the second backend a call with [min_sigma = 1], [max_sigma = 3]
    and [sigma_ratio = 2] on a three-dimensional image returns at least
    one row. *)
Lemma origin_blob_dog_nonempty :
  exists a : ndarray,
    blob_dog (N := exact_arithmetic) (H := origin_backend) 3%nat
             (Scalar 1) (Scalar 3) 2 (1 / 20) (4 / 5) = Ok a /\
    rows a <> [].
Proof.
  destruct (admissible_scale_count _ _ _ (admissible_1_3 2)) as (k & Hsc & Hk).
  destruct (exact_sigma_list (as_array 3 (Scalar 1)) 2 k) as [sl Hsl].
  destruct (origin_passes (N := exact_arithmetic) 3 (as_array 3 (Scalar 1)) 2
              (1 / 20) k sl eq_refl Hk Hsl) as (arrs & Hm & Hne).
  pose proof (blob_dog_eq (N := exact_arithmetic) (H := origin_backend)
                (H0 := origin_backend_laws) 3%nat (Scalar 1) (Scalar 3)
                2 (1 / 20) (4 / 5) k sl arrs Hsc Hk Hsl Hm) as E.
  cbn zeta in E. cbn [ndim origin_backend] in E.
  destruct (concat (map rows arrs)) as [|b l]; [congruence|].
  eexists. split; [exact E|].
  cbn [isscalar andb prune_blobs origin_backend rows sigmas_of_peaks map
       hstack_sigmas combine]. discriminate.
Qed.

Lemma blob_dog_sigma_columns_witness :
  exists a : ndarray,
    blob_dog (N := exact_arithmetic) (H := origin_backend) 3%nat
             (Scalar 1) (Scalar 3) 2 (1 / 20) (4 / 5) = Ok a /\
    rows a <> [] /\
    ncols a = (3 + 1)%nat /\
    Forall (fun row => length row = (3 + 1)%nat) (rows a).
Proof.
  destruct origin_blob_dog_nonempty as (a & E & Hrows).
  exists a. split; [exact E|]. split; [exact Hrows|].
  apply (blob_dog_sigma_columns (N := exact_arithmetic) (H := origin_backend)
           (H0 := origin_backend_laws) 3%nat (Scalar 1) (Scalar 3)
           2 (1 / 20) (4 / 5) _ eq_refl E Hrows).
Defined.

End BlobDogFacts.

(** * Properties of the class [BlobDoG] *)

Module DetectorFacts.

Import Detector.
Local Open Scope string_scope.

(** ** Evaluation modes *)

Lemma metrics_keys `{Env} (df : list counts) (key : string) :
  In key ["f1"; "acc"; "prec"; "rec"] -> exists v, getitem (metrics df) key = Ok v.
Proof.
  intros Hin. unfold getitem, metrics. cbn zeta.
  destruct Hin as [<-|[<-|[<-|[<-|[]]]]]; simplify_map_eq; eauto.
Qed.

(** C5: an evaluation type outside
    [complete, counts, f1, acc, prec, rec] makes [evaluate] raise the
    assertion's error whatever the matcher would do, the matcher not
    being consulted; with a type inside the list the only exception that
    [evaluate] can raise is one raised by the matching itself. *)
Theorem evaluate_validates_mode_first `{Env} (self : BlobDoG)
    (y_pred : centers) (y_true : truth) (max_match_dist : Q)
    (evaluation_type : string) :
  (~ In evaluation_type admitted_types ->
   evaluate self y_pred y_true max_match_dist evaluation_type
   = Raise (AssertionError "Wrong evaluation_type provided."))
  /\
  (In evaluation_type admitted_types ->
   forall e : exn,
     evaluate self y_pred y_true max_match_dist evaluation_type = Raise e ->
     bipartite_match y_true y_pred max_match_dist (dim_resolution self)
     = Raise e).
Proof.
  unfold evaluate. split.
  - intros Hout.
    destruct (existsb (String.eqb evaluation_type) admitted_types) eqn:Ex;
      [|reflexivity].
    apply existsb_exists in Ex as (t & Hin & Heq).
    apply String.eqb_eq in Heq. subst t. contradiction.
  - intros Hin e.
    assert (Ex : existsb (String.eqb evaluation_type) admitted_types = true).
    { apply existsb_exists. exists evaluation_type. split; [exact Hin|].
      apply String.eqb_refl. }
    rewrite Ex. cbn [negb].
    destruct (bipartite_match y_true y_pred max_match_dist (dim_resolution self))
      as [names|e']; cbn [mbind result_bind]; [|congruence].
    destruct (String.eqb evaluation_type "complete") eqn:Ea; [discriminate|].
    destruct (String.eqb evaluation_type "counts") eqn:Ec; [discriminate|].
    destruct (metrics_keys
                [mk_counts (count_label TP names) (count_label FP names)
                   (count_label FN names) (pred_rows y_pred) (true_rows y_true)]
                evaluation_type) as [v Hv].
    { unfold admitted_types in Hin.
      destruct Hin as [<-|[<-|Hin]]; [discriminate Ea|discriminate Ec|exact Hin]. }
    rewrite Hv. discriminate.
Qed.

Lemma evaluate_validates_mode_first_witness :
  evaluate (H := toy_env) (init 3 [1%Q; 1%Q; 1%Q] None) [TP] tt 1 "auc"
  = Raise (AssertionError "Wrong evaluation_type provided.")
  /\
  (forall e : exn,
     evaluate (H := toy_env) (init 3 [1%Q; 1%Q; 1%Q] None) [TP] tt 1 "f1"
     = Raise e ->
     bipartite_match (Env := toy_env) tt [TP] 1 [1%Q; 1%Q; 1%Q] = Raise e).
Proof.
  split.
  - apply (proj1 (evaluate_validates_mode_first (H := toy_env)
                    (init 3 [1%Q; 1%Q; 1%Q] None) [TP] tt 1 "auc")).
    cbn. intros [E|[E|[E|[E|[E|[E|[]]]]]]]; discriminate E.
  - apply (proj2 (evaluate_validates_mode_first (H := toy_env)
                    (init 3 [1%Q; 1%Q; 1%Q] None) [TP] tt 1 "f1")).
    cbn. tauto.
Defined.

(** ** Aggregation over the dataset *)

Lemma mapM_perm {A B : Type} (f : A -> result B) (l1 l2 : list A) :
  Permutation l1 l2 ->
  forall v1, mapM f l1 = Ok v1 ->
  exists v2, mapM f l2 = Ok v2 /\ Permutation v1 v2.
Proof.
  induction 1 as [|x l1 l2 _ IH|x y l|l1 l2 l3 _ IH1 _ IH2]; intros v1 Hv1.
  - cbn in Hv1. injection Hv1 as <-. exists []. split; [reflexivity|constructor].
  - cbn in Hv1 |- *. destruct (f x) as [b|e]; cbn in Hv1 |- *; [|discriminate].
    destruct (mapM f l1) as [v|e]; cbn in Hv1; [|discriminate].
    injection Hv1 as <-. destruct (IH v eq_refl) as (v2 & -> & Hp).
    cbn. exists (b :: v2). split; [reflexivity|now constructor].
  - cbn in Hv1 |- *.
    destruct (f y) as [b|e]; cbn in Hv1 |- *; [|discriminate].
    destruct (f x) as [c|e]; cbn in Hv1 |- *; [|discriminate].
    destruct (mapM f l) as [v|e]; cbn in Hv1 |- *; [|discriminate].
    injection Hv1 as <-. exists (c :: b :: v). split; [reflexivity|constructor].
  - destruct (IH1 v1 Hv1) as (v2 & Hv2 & Hp12).
    destruct (IH2 v2 Hv2) as (v3 & Hv3 & Hp23).
    exists v3. split; [exact Hv3|]. now transitivity v2.
Qed.

Lemma concat_perm {A : Type} (l1 l2 : list (list A)) :
  Permutation l1 l2 -> Permutation (concat l1) (concat l2).
Proof.
  induction 1 as [|x l1 l2 _ IH|x y l|l1 l2 l3 _ IH1 _ IH2]; cbn [concat].
  - constructor.
  - now apply Permutation_app_head.
  - apply Permutation_app_swap_app.
  - now transitivity (concat l2).
Qed.

Lemma sumZ_perm (l1 l2 : list Z) : Permutation l1 l2 -> sumZ l1 = sumZ l2.
Proof.
  unfold sumZ.
  induction 1 as [|x l1 l2 _ IH|x y l|l1 l2 l3 _ IH1 _ IH2];
    cbn [fold_right]; lia.
Qed.

(** The metrics see the frame only through the sums of its columns. *)
Lemma metrics_perm `{Env} (df1 df2 : list counts) :
  Permutation df1 df2 -> metrics df1 = metrics df2.
Proof.
  intros Hp. unfold metrics.
  rewrite (sumZ_perm _ _ (Permutation_map c_TP Hp)).
  rewrite (sumZ_perm _ _ (Permutation_map c_FP Hp)).
  rewrite (sumZ_perm _ _ (Permutation_map c_FN Hp)).
  reflexivity.
Qed.

Lemma pd_concat_perm (res1 res2 : list evaluation) :
  Permutation res1 res2 ->
  forall df1, pd_concat res1 = Ok df1 ->
  exists df2, pd_concat res2 = Ok df2 /\ Permutation df1 df2.
Proof.
  intros Hp df1. unfold pd_concat.
  destruct res1 as [|r1 res1]; [discriminate|].
  destruct res2 as [|r2 res2].
  { apply Permutation_length in Hp. discriminate. }
  destruct (mapM _ (r1 :: res1)) as [dfs1|e] eqn:E1; cbn [mbind result_bind];
    [|discriminate].
  intros [= <-].
  destruct (mapM_perm _ _ _ Hp _ E1) as (dfs2 & -> & Hp2).
  cbn [mbind result_bind]. eexists. split; [reflexivity|].
  now apply concat_perm.
Qed.

Section OrderIndependence.

Context `{Env}.

(** Whatever the scheduler, the results are those of the jobs, in some
    order. *)
Lemma evaluate_dataset_jobs (S : Scheduler) `{!SchedulerLaws S}
    (self : BlobDoG) (parameters : dict) (X : list image) (Y : list truth)
    (mmd : Q) (n_cpu : Z) :
  (0 < n_cpu)%Z ->
  exists jobs',
    Permutation
      (map (fun xy => predict_and_evaluate self (fst xy) (snd xy) mmd
                        "counts" (Some parameters)) (combine X Y))
      jobs' /\
    evaluate_dataset (H0 := S) self parameters X Y mmd n_cpu
    = mapM (fun r => r) jobs'.
Proof.
  intros Hn. unfold evaluate_dataset. destruct (Z.eqb n_cpu 1).
  - eexists. split; [reflexivity|reflexivity].
  - rewrite (proj2 (Z.leb_gt _ _) Hn).
    eexists. split; [apply as_completed_perm|reflexivity].
Qed.

Lemma dataset_f1_order (S1 S2 : Scheduler)
    `{!SchedulerLaws S1} `{!SchedulerLaws S2}
    (self : BlobDoG) (parameters : dict) (X : list image) (Y : list truth)
    (mmd : Q) (n1 n2 : Z) (v : Q) :
  (0 < n1)%Z -> (0 < n2)%Z ->
  dataset_f1 (H0 := S1) self parameters X Y mmd n1 = Ok v ->
  dataset_f1 (H0 := S2) self parameters X Y mmd n2 = Ok v.
Proof.
  intros Hn1 Hn2. unfold dataset_f1.
  destruct (evaluate_dataset_jobs S1 self parameters X Y mmd n1 Hn1)
    as (j1 & Hp1 & ->).
  destruct (evaluate_dataset_jobs S2 self parameters X Y mmd n2 Hn2)
    as (j2 & Hp2 & ->).
  destruct (mapM (fun r => r) j1) as [res1|e] eqn:E1; cbn [mbind result_bind];
    [|discriminate].
  assert (Hp : Permutation j1 j2) by (now rewrite <- Hp1, <- Hp2).
  destruct (mapM_perm _ _ _ Hp _ E1) as (res2 & -> & Hres).
  cbn [mbind result_bind].
  destruct (pd_concat res1) as [df1|e] eqn:E2; cbn [mbind result_bind];
    [|discriminate].
  destruct (pd_concat_perm _ _ Hres _ E2) as (df2 & -> & Hdf).
  cbn [mbind result_bind]. now rewrite (metrics_perm _ _ Hdf).
Qed.

End OrderIndependence.

(** ** One evaluation of the objective *)

Section Objective.

Context `{Env} `{Scheduler}.

(** The world after lines 313-314 and after the evaluation, and the
    world after a [json.dump] of the new state. *)
Lemma objective_unfold (parameters : dict) (X : list image) (Y : list truth)
    (mmd : Q) (checkpoint_dir : option string) (n_cpu : Z) (w : world) :
  _objective parameters X Y mmd checkpoint_dir n_cpu w
  = let s1 := set_train_step (train_step (self w) + 1) (self w) in
    let w1 := mk_world s1 (fs w) (dumps w) (evaluated w) in
    match getitem parameters "min_rad" with
    | Raise e => (Raise e, w1)
    | Ok lo =>
    match getitem parameters "min_max_rad_diff" with
    | Raise e => (Raise e, w1)
    | Ok diff =>
    let p := <["max_rad" := (lo + diff)%Q]> parameters in
    let w2 := mk_world s1 (fs w) (dumps w) (evaluated w ++ [p])%list in
    match dataset_f1 s1 p X Y mmd n_cpu with
    | Raise e => (Raise e, w2)
    | Ok f1 =>
    match checkpoint_dir with
    | None => (Ok (- f1)%Q, w2)
    | Some dir =>
        let new_state :=
          <["step" := inject_Z (Z.of_nat (train_step (self w) + 1))]>
            (<["f1" := f1]> p) in
        let w3 := mk_world s1 (<[checkpoint_file dir := new_state]> (fs w))
                    (dumps w ++ [(checkpoint_file dir, new_state)])%list
                    (evaluated w ++ [p])%list in
        if Nat.eqb (train_step (self w) + 1) 1 then (Ok (- f1)%Q, w3)
        else
          match fs w !! checkpoint_file dir with
          | None => (Raise (UnboundLocalError "state"), w2)
          | Some state =>
              match getitem state "f1" with
              | Raise e => (Raise e, w2)
              | Ok best =>
                  if Qltb best f1 then (Ok (- f1)%Q, w3) else (Ok (- f1)%Q, w2)
              end
          end
    end end end end.
Proof.
  unfold _objective, mbind, M_bind, modify_self, lift, get_self,
    note_evaluated, load_if_isfile, json_dump, raise, mret, M_ret.
  cbn [self fs dumps evaluated].
  destruct (getitem parameters "min_rad") as [lo|e]; [|reflexivity].
  destruct (getitem parameters "min_max_rad_diff") as [diff|e]; [|reflexivity].
  destruct checkpoint_dir as [dir|]; cbn [self fs dumps evaluated].
  - destruct (dataset_f1 _ _ X Y mmd n_cpu) as [f1|e]; [|reflexivity].
    cbn [train_step set_train_step].
    destruct (Nat.eqb (train_step (self w) + 1) 1); [reflexivity|].
    destruct (fs w !! checkpoint_file dir) as [state|]; [|reflexivity].
    destruct (getitem state "f1") as [best|e]; [|reflexivity].
    destruct (Qltb best f1); reflexivity.
  - destruct (dataset_f1 _ _ X Y mmd n_cpu) as [f1|e]; reflexivity.
Qed.

End Objective.

Lemma Qltb_lt (x y : Q) : Qltb x y = true <-> (x < y)%Q.
Proof.
  unfold Qltb. rewrite negb_true_iff.
  split.
  - intros Hb. apply Qnot_le_lt. intros Hle.
    apply Qle_bool_iff in Hle. congruence.
  - intros Hlt. destruct (Qle_bool y x) eqn:E; [|reflexivity].
    apply Qle_bool_iff in E. exfalso. exact (Qlt_not_le _ _ Hlt E).
Qed.

Lemma Qltb_ge (x y : Q) : Qltb x y = false <-> (y <= x)%Q.
Proof.
  unfold Qltb. rewrite negb_false_iff. apply Qle_bool_iff.
Qed.

Section Checkpoint.

Context `{Env} `{Scheduler}.

(** C2 (as the code has it): with a checkpoint directory, an evaluation
    that returns has written the new state (the parameters with their
    [max_rad], the score and the step) unconditionally when it is the
    first of the detector ([train_step] was 0); otherwise it has read
    the persisted state and overwritten it exactly when the new score is
    strictly above the persisted one, leaving the file system as it was
    when it is not.  An evaluation that raises writes nothing. *)
Theorem objective_checkpoint_update (parameters : dict) (X : list image)
    (Y : list truth) (mmd : Q) (dir : string) (n_cpu : Z) (w w' : world)
    (r : result Q) :
  _objective parameters X Y mmd (Some dir) n_cpu w = (r, w') ->
  match r with
  | Raise _ => fs w' = fs w
  | Ok loss =>
      exists (lo diff f1 : Q),
        parameters !! "min_rad" = Some lo /\
        parameters !! "min_max_rad_diff" = Some diff /\
        loss = (- f1)%Q /\
        let new_state :=
          <["step" := inject_Z (Z.of_nat (train_step (self w) + 1))]>
            (<["f1" := f1]> (<["max_rad" := (lo + diff)%Q]> parameters)) in
        (train_step (self w) = 0%nat ->
         fs w' = <[checkpoint_file dir := new_state]> (fs w)) /\
        (train_step (self w) <> 0%nat ->
         exists (state : dict) (best : Q),
           fs w !! checkpoint_file dir = Some state /\
           state !! "f1" = Some best /\
           ((best < f1)%Q ->
            fs w' = <[checkpoint_file dir := new_state]> (fs w)) /\
           (~ (best < f1)%Q -> fs w' = fs w))
  end.
Proof.
  rewrite objective_unfold. cbn zeta. unfold getitem.
  destruct (parameters !! "min_rad") as [lo|]; [|now intros [= <- <-]].
  destruct (parameters !! "min_max_rad_diff") as [diff|];
    [|now intros [= <- <-]].
  destruct (dataset_f1 _ _ X Y mmd n_cpu) as [f1|e]; [|now intros [= <- <-]].
  destruct (Nat.eqb (train_step (self w) + 1) 1) eqn:Estep.
  - intros [= <- <-]. exists lo, diff, f1.
    do 3 (split; [reflexivity|]). split; [reflexivity|].
    apply Nat.eqb_eq in Estep. intros Hne. lia.
  - apply Nat.eqb_neq in Estep.
    destruct (fs w !! checkpoint_file dir) as [state|];
      [|now intros [= <- <-]].
    destruct (state !! "f1") as [best|] eqn:Ebest; [|now intros [= <- <-]].
    destruct (Qltb best f1) eqn:Elt; intros [= <- <-];
      exists lo, diff, f1; (do 3 (split; [reflexivity|]));
      (split; [intros Hz; lia|]);
      intros _; exists state, best;
      (split; [reflexivity|]); (split; [exact Ebest|]); cbn [fs]; split.
    + reflexivity.
    + intros Hn. apply Qltb_lt in Elt. contradiction.
    + intros Hlt. apply Qltb_lt in Hlt. congruence.
    + reflexivity.
Qed.

End Checkpoint.

Lemma objective_checkpoint_update_witness :
  let out := _objective (H := toy_env) (H0 := in_order) (toy_candidate false)
               [[FP]] [tt] 1 (Some "ckpt") 1 resumed_world in
  match fst out with
  | Raise _ => fs (snd out) = fs resumed_world
  | Ok loss =>
      exists (lo diff f1 : Q),
        toy_candidate false !! "min_rad" = Some lo /\
        toy_candidate false !! "min_max_rad_diff" = Some diff /\
        loss = (- f1)%Q /\
        let new_state :=
          <["step" := inject_Z (Z.of_nat (train_step (self resumed_world) + 1))]>
            (<["f1" := f1]>
               (<["max_rad" := (lo + diff)%Q]> (toy_candidate false))) in
        (train_step (self resumed_world) = 0%nat ->
         fs (snd out) = <[checkpoint_file "ckpt" := new_state]> (fs resumed_world)) /\
        (train_step (self resumed_world) <> 0%nat ->
         exists (state : dict) (best : Q),
           fs resumed_world !! checkpoint_file "ckpt" = Some state /\
           state !! "f1" = Some best /\
           ((best < f1)%Q ->
            fs (snd out)
            = <[checkpoint_file "ckpt" := new_state]> (fs resumed_world)) /\
           (~ (best < f1)%Q -> fs (snd out) = fs resumed_world))
  end.
Proof.
  intros out.
  apply (objective_checkpoint_update (H := toy_env) (H0 := in_order)
           (toy_candidate false) [[FP]] [tt] 1 "ckpt" 1 resumed_world
           (snd out) (fst out)).
  apply surjective_pairing.
Defined.

(** C2, refuted as stated: a checkpoint of score 9/10 is on disk; the
    first evaluation of a new detector scores 0, which is not above
    9/10, and the file is overwritten with the score 0. *)
Lemma first_evaluation_overwrites_checkpoint :
  let path := checkpoint_file "ckpt" in
  let out := _objective (H := toy_env) (H0 := in_order) (toy_candidate false)
               [[FP]] [tt] 1 (Some "ckpt") 1 resumed_world in
  (exists old, fs resumed_world !! path = Some old /\
               old !! "f1" = Some (9 # 10)) /\
  fst out = Ok (- 0)%Q /\
  ~ (9 # 10 < 0)%Q /\
  (exists new, fs (snd out) !! path = Some new /\ new !! "f1" = Some 0%Q) /\
  fs (snd out) <> fs resumed_world.
Proof.
  cbn zeta. split; [|split; [|split; [|split]]].
  - eexists. split; vm_compute; reflexivity.
  - vm_compute. reflexivity.
  - intros Hlt. vm_compute in Hlt. discriminate.
  - eexists. split; vm_compute; reflexivity.
  - intros Heq.
    apply (f_equal (fun m => m !! checkpoint_file "ckpt" ≫= (.!! "f1"))) in Heq.
    vm_compute in Heq. discriminate.
Qed.

(** ** Parallelism *)

Lemma objective_order_one_way `{Env} (S1 S2 : Scheduler)
    `{!SchedulerLaws S1} `{!SchedulerLaws S2}
    (parameters : dict) (X : list image) (Y : list truth) (mmd : Q)
    (checkpoint_dir : option string) (n1 n2 : Z) (w w' : world) (loss : Q) :
  (0 < n1)%Z -> (0 < n2)%Z ->
  _objective (H0 := S1) parameters X Y mmd checkpoint_dir n1 w = (Ok loss, w') ->
  _objective (H0 := S2) parameters X Y mmd checkpoint_dir n2 w = (Ok loss, w').
Proof.
  intros Hn1 Hn2. rewrite !objective_unfold. cbn zeta.
  destruct (getitem parameters "min_rad") as [lo|e]; [|discriminate].
  destruct (getitem parameters "min_max_rad_diff") as [diff|e]; [|discriminate].
  destruct (dataset_f1 (H0 := S1) _ _ X Y mmd n1) as [f1|e] eqn:E1;
    [|discriminate].
  rewrite (dataset_f1_order S1 S2 _ _ _ _ _ n1 n2 _ Hn1 Hn2 E1).
  trivial.
Qed.

(** C8: the objective returns the same loss, and leaves the same world,
    whether the per-element evaluations run in dataset order
    ([n_cpu = 1]) or on a pool of any number of workers ([n_cpu > 1])
    whose futures complete in any order: two runs that differ only in
    the worker count [n_cpu >= 1] and in the completion order agree, the
    counts being summed.  (With [n_cpu <= 0] there is no pool: its
    construction raises.) *)
Theorem objective_order_independent `{Env} (S1 S2 : Scheduler)
    `{!SchedulerLaws S1} `{!SchedulerLaws S2}
    (parameters : dict) (X : list image) (Y : list truth) (mmd : Q)
    (checkpoint_dir : option string) (n_cpu1 n_cpu2 : Z) (w w' : world)
    (loss : Q) :
  (0 < n_cpu1)%Z -> (0 < n_cpu2)%Z ->
  (_objective (H0 := S1) parameters X Y mmd checkpoint_dir n_cpu1 w
   = (Ok loss, w')
   <->
   _objective (H0 := S2) parameters X Y mmd checkpoint_dir n_cpu2 w
   = (Ok loss, w')).
Proof.
  intros Hn1 Hn2. split; apply objective_order_one_way; assumption.
Qed.

Lemma in_order_laws : SchedulerLaws in_order.
Proof. split. intros l. reflexivity. Qed.

Lemma reversed_laws : SchedulerLaws reversed.
Proof. split. intros l. apply Permutation_rev. Qed.

Lemma objective_order_independent_witness :
  _objective (H := toy_env) (H0 := reversed) (toy_candidate false)
    [[TP; FP]; [FN]; [TP]] [tt; tt; tt] 1 (Some "ckpt") 4 fresh_world
  = _objective (H := toy_env) (H0 := in_order) (toy_candidate false)
      [[TP; FP]; [FN]; [TP]] [tt; tt; tt] 1 (Some "ckpt") 1 fresh_world.
Proof.
  set (out := _objective (H := toy_env) (H0 := in_order) (toy_candidate false)
                [[TP; FP]; [FN]; [TP]] [tt; tt; tt] 1 (Some "ckpt") 1
                fresh_world).
  assert (E : out
              = (Ok (match fst out with Ok l => l | Raise _ => 0%Q end),
                 snd out)) by (vm_compute; reflexivity).
  rewrite E.
  apply (proj1 (objective_order_independent (H := toy_env) in_order reversed
                  (SchedulerLaws0 := in_order_laws)
                  (SchedulerLaws1 := reversed_laws)
                  (toy_candidate false) [[TP; FP]; [FN]; [TP]] [tt; tt; tt] 1
                  (Some "ckpt") 1 4 fresh_world (snd out)
                  (match fst out with Ok l => l | Raise _ => 0%Q end)
                  ltac:(lia) ltac:(lia))).
  exact E.
Defined.

(** ** Zero iterations *)

(** C3 (as the code has it): with [n_iter = 0] the objective is never
    evaluated, so nothing is written and the detector keeps its
    parameters, but [fit] does not return: [fmin] has no trial to take
    the best of and raises. *)
Theorem fit_zero_iterations_raises `{Env} `{Scheduler}
    (X : list image) (Y : list truth) (mmd : Q)
    (checkpoint_dir : option string) (n_cpu : Z) (w : world) :
  fit X Y mmd 0 checkpoint_dir n_cpu w
  = (Raise (Exception "There are no evaluation tasks, cannot return argmin of task losses."),
     w).
Proof. reflexivity. Qed.

(** C3, refuted as stated: on a new detector [fit] with [n_iter = 0]
    ends with an exception instead of returning. *)
Lemma fit_zero_iterations_not_normal :
  is_ok (fst (fit (H := toy_env) (H0 := in_order) [[TP; FP]] [tt] 1 0
                (Some "ckpt") 1 fresh_world)) = false.
Proof. reflexivity. Qed.

(** ** The checkpoint over a run *)

Lemma strictly_increasing_snoc (l : list (option Q)) (y : Q) :
  strictly_increasing l ->
  (l <> [] -> exists x, List.last l None = Some x /\ (x < y)%Q) ->
  strictly_increasing (l ++ [Some y]).
Proof.
  induction l as [|a rest IH]; intros Hinc Hlast.
  - cbn. split; [eexists; reflexivity|]. split; exact I.
  - destruct Hinc as (Ha & Hnext & Hrest).
    change ((a :: rest) ++ [Some y])%list with (a :: (rest ++ [Some y]))%list.
    cbn [strictly_increasing]. split; [exact Ha|]. split.
    + destruct rest as [|b rest'].
      * cbn [app]. destruct Hlast as (x & Hx & Hlt); [discriminate|].
        cbn in Hx. subst a. exact Hlt.
      * exact Hnext.
    + apply IH; [exact Hrest|]. intros Hne.
      destruct Hlast as (x & Hx & Hlt); [discriminate|].
      exists x. split; [|exact Hlt].
      destruct rest; [congruence|exact Hx].
Qed.

Lemma written_scores_snoc (new : list (string * dict)) (d : string * dict) :
  written_scores (new ++ [d]) = (written_scores new ++ [snd d !! "f1"])%list.
Proof. unfold written_scores. now rewrite map_app. Qed.

Lemma last_written_scores (new : list (string * dict)) (d : string * dict) :
  new <> [] ->
  List.last (written_scores new) None = snd (List.last new d) !! "f1".
Proof.
  induction new as [|a rest IH]; [congruence|]. intros _.
  destruct rest as [|b rest']; [reflexivity|].
  change (List.last (written_scores (a :: b :: rest')) None)
    with (List.last (written_scores (b :: rest')) None).
  change (List.last (a :: b :: rest') d) with (List.last (b :: rest') d).
  apply IH. discriminate.
Qed.

Lemma set_parameters_frame (p : dict) (w w' : world) (r : result unit) :
  set_parameters p w = (r, w') ->
  fs w' = fs w /\ dumps w' = dumps w /\ evaluated w' = evaluated w /\
  train_step (self w') = train_step (self w).
Proof.
  unfold set_parameters, mbind, M_bind, modify_self, lift.
  destruct (getitem p "min_rad"); [|now intros [= <- <-]].
  destruct (getitem p "max_rad"); [|now intros [= <- <-]].
  destruct (getitem p "sigma_ratio"); [|now intros [= <- <-]].
  destruct (getitem p "overlap"); [|now intros [= <- <-]].
  destruct (getitem p "threshold"); now intros [= <- <-].
Qed.

Section Run.

Context `{Env} `{Scheduler}.

Variables (X : list image) (Y : list truth) (mmd : Q) (dir : string)
          (n_cpu : Z) (base : list (string * dict)).

Lemma objective_trace (p : dict) (w w' : world) (r : result Q)
    (new : list (string * dict)) :
  dumps w = (base ++ new)%list ->
  checkpoint_trace (checkpoint_file dir) new w ->
  _objective p X Y mmd (Some dir) n_cpu w = (r, w') ->
  exists new',
    dumps w' = (base ++ new')%list /\
    checkpoint_trace (checkpoint_file dir) new' w'.
Proof.
  intros Hd (Hpath & Hinc & Hlast).
  assert (Hkeep : forall s' ev,
            checkpoint_trace (checkpoint_file dir) new
              (mk_world (set_train_step (train_step (self w) + 1) s')
                        (fs w) (dumps w) ev)).
  { intros s' ev. split; [exact Hpath|]. split; [exact Hinc|].
    intros Hne. destruct (Hlast Hne) as (_ & obj & Hl & Hf).
    split; [destruct s'; cbn; lia|]. exists obj. now split. }
  rewrite objective_unfold. cbn zeta.
  destruct (getitem p "min_rad") as [lo|e];
    [|intros [= <- <-]; exists new; split; [exact Hd|apply Hkeep]].
  destruct (getitem p "min_max_rad_diff") as [diff|e];
    [|intros [= <- <-]; exists new; split; [exact Hd|apply Hkeep]].
  destruct (dataset_f1 _ _ X Y mmd n_cpu) as [f1|e];
    [|intros [= <- <-]; exists new; split; [exact Hd|apply Hkeep]].
  set (ns := <["step" := _]> (<["f1" := f1]> _)).
  assert (Hns : ns !! "f1" = Some f1).
  { unfold ns. now simplify_map_eq. }
  assert (Hwrite : forall s' ev,
            (new <> [] -> exists x, List.last (written_scores new) None = Some x
                                    /\ (x < f1)%Q) ->
            checkpoint_trace (checkpoint_file dir)
              (new ++ [(checkpoint_file dir, ns)])
              (mk_world (set_train_step (train_step (self w) + 1) s')
                        (<[checkpoint_file dir := ns]> (fs w))
                        (dumps w ++ [(checkpoint_file dir, ns)]) ev)).
  { intros s' ev Hlt. split; [|split].
    - apply Forall_app. split; [exact Hpath|]. now constructor.
    - rewrite written_scores_snoc. cbn [snd]. rewrite Hns.
      apply strictly_increasing_snoc; [exact Hinc|].
      intros Hne. apply Hlt. intros ->. now apply Hne.
    - intros _. split; [destruct s'; cbn; lia|]. exists ns.
      rewrite List.last_last. split; [reflexivity|].
      cbn [fs]. apply lookup_insert_eq. }
  destruct (Nat.eqb (train_step (self w) + 1) 1) eqn:Estep.
  - apply Nat.eqb_eq in Estep. intros [= <- <-].
    exists (new ++ [(checkpoint_file dir, ns)])%list. split.
    + cbn [dumps]. rewrite Hd. now rewrite <- app_assoc.
    + apply Hwrite. intros Hne. destruct (Hlast Hne) as (Hge & _). lia.
  - destruct (fs w !! checkpoint_file dir) as [state|] eqn:Efile;
      [|intros [= <- <-]; exists new; split; [exact Hd|apply Hkeep]].
    unfold getitem.
    destruct (state !! "f1") as [best|] eqn:Ebest;
      [|intros [= <- <-]; exists new; split; [exact Hd|apply Hkeep]].
    destruct (Qltb best f1) eqn:Elt;
      [|intros [= <- <-]; exists new; split; [exact Hd|apply Hkeep]].
    intros [= <- <-].
    exists (new ++ [(checkpoint_file dir, ns)])%list. split.
    + cbn [dumps]. rewrite Hd. now rewrite <- app_assoc.
    + apply Hwrite. intros Hne.
      destruct (Hlast Hne) as (_ & obj & Hl & Hf).
      exists best. split; [|now apply Qltb_lt].
      rewrite (last_written_scores new (checkpoint_file dir, ∅) Hne), Hl.
      cbn [snd]. congruence.
Qed.

Lemma fmin_loop_trace (space : list (string * Q * Q)) (n : nat) :
  forall (trials : list (dict * Q)) (w w' : world)
         (r : result (list (dict * Q))) (new : list (string * dict)),
    dumps w = (base ++ new)%list ->
    checkpoint_trace (checkpoint_file dir) new w ->
    fmin_loop (fun p => _objective p X Y mmd (Some dir) n_cpu) space n trials w
    = (r, w') ->
    exists new',
      dumps w' = (base ++ new')%list /\
      checkpoint_trace (checkpoint_file dir) new' w'.
Proof.
  induction n as [|n IH]; intros trials w w' r new Hd Htr.
  - cbn. intros [= <- <-]. now exists new.
  - cbn [fmin_loop]. unfold mbind, M_bind.
    destruct (_objective (suggest space trials) X Y mmd (Some dir) n_cpu w)
      as [[loss|e] w1] eqn:Eobj.
    + destruct (objective_trace _ _ _ _ _ Hd Htr Eobj) as (new1 & Hd1 & Htr1).
      intros Hloop. exact (IH _ _ _ _ _ Hd1 Htr1 Hloop).
    + intros [= <- <-]. exact (objective_trace _ _ _ _ _ Hd Htr Eobj).
Qed.

End Run.

(** [fit] by the outcome of the search loop. *)
Lemma fit_unfold `{Env} `{Scheduler} (X : list image) (Y : list truth)
    (mmd : Q) (n_iter : Z) (checkpoint_dir : option string) (n_cpu : Z)
    (w : world) :
  fit X Y mmd n_iter checkpoint_dir n_cpu w
  = match fmin_loop (fun parameters =>
                       _objective parameters X Y mmd checkpoint_dir n_cpu)
            search_space (Z.to_nat n_iter) [] w with
    | (Raise e, w1) => (Raise e, w1)
    | (Ok trials, w1) =>
        match argmin trials with
        | None =>
            (Raise (Exception "There are no evaluation tasks, cannot return argmin of task losses."),
             w1)
        | Some b =>
            match getitem (fst b) "min_rad" with
            | Raise e => (Raise e, w1)
            | Ok lo =>
                match getitem (fst b) "min_max_rad_diff" with
                | Raise e => (Raise e, w1)
                | Ok diff =>
                    set_parameters (<["max_rad" := (lo + diff)%Q]> (fst b)) w1
                end
            end
        end
    end.
Proof.
  unfold fit, fmin, mbind, M_bind, lift, raise, mret, M_ret.
  destruct (fmin_loop _ search_space (Z.to_nat n_iter) [] w)
    as [[trials|e] w1]; [|reflexivity].
  destruct (argmin trials) as [b|]; [|reflexivity].
  destruct (getitem (fst b) "min_rad"); [|reflexivity].
  destruct (getitem (fst b) "min_max_rad_diff"); reflexivity.
Qed.

(** C9: the scores that one run of [fit] writes to the checkpoint file
    increase strictly from each write to the next; so they are
    non-decreasing, and every write after the first records a score
    above the one persisted before it. *)
Theorem checkpoint_scores_increase `{Env} `{Scheduler}
    (X : list image) (Y : list truth) (mmd : Q) (n_iter : Z) (dir : string)
    (n_cpu : Z) (w : world) :
  exists new : list (string * dict),
    dumps (snd (fit X Y mmd n_iter (Some dir) n_cpu w)) = (dumps w ++ new)%list /\
    Forall (fun d => fst d = checkpoint_file dir) new /\
    strictly_increasing (written_scores new).
Proof.
  assert (Hstart : checkpoint_trace (checkpoint_file dir) [] w).
  { split; [constructor|]. split; [exact I|]. congruence. }
  assert (Hd0 : dumps w = (dumps w ++ [])%list) by now rewrite app_nil_r.
  rewrite fit_unfold.
  destruct (fmin_loop (fun parameters =>
                         _objective parameters X Y mmd (Some dir) n_cpu)
              search_space (Z.to_nat n_iter) [] w)
    as [[trials|e] w1] eqn:Eloop;
    destruct (fmin_loop_trace X Y mmd dir n_cpu (dumps w) search_space
                (Z.to_nat n_iter) [] w w1 _ [] Hd0 Hstart Eloop)
      as (new & Hd & Hpath & Hinc & _).
  - exists new. split; [|now split].
    destruct (argmin trials) as [b|]; [|exact Hd].
    destruct (getitem (fst b) "min_rad"); [|exact Hd].
    destruct (getitem (fst b) "min_max_rad_diff"); [|exact Hd].
    destruct (set_parameters _ w1) as [r w2] eqn:Eset.
    apply set_parameters_frame in Eset as (_ & Hd2 & _). cbn [snd]. congruence.
  - exists new. split; [exact Hd|now split].
Qed.

(** The run of the small environment writes twice, 2/3 then 1, and
    skips the third evaluation, which scores 2/3 again. *)
Example toy_run_writes :
  written_scores
    (dumps (snd (fit (H := toy_env) (H0 := in_order) [[TP; FP]] [tt] 1 3
                   (Some "ckpt") 1 fresh_world)))
  = [Some (4 # 6); Some (2 # 2)].
Proof. vm_compute. reflexivity. Qed.

(** ** The parameter sets of a run *)

Lemma argmin_spec (trials : list (dict * Q)) (b : dict * Q) :
  argmin trials = Some b ->
  In b trials /\ forall t, In t trials -> (snd b <= snd t)%Q.
Proof.
  revert b. induction trials as [|t rest IH]; intros b; [discriminate|].
  cbn [argmin]. destruct (argmin rest) as [b'|] eqn:Erest.
  - destruct (IH b' eq_refl) as [Hin Hmin].
    destruct (Qltb (snd b') (snd t)) eqn:Elt; intros [= <-].
    + split; [now right|]. intros t' [<-|Ht'].
      * apply Qlt_le_weak. now apply Qltb_lt.
      * now apply Hmin.
    + apply Qltb_ge in Elt. split; [now left|]. intros t' [<-|Ht'].
      * apply Qle_refl.
      * apply Qle_trans with (snd b'); [exact Elt|now apply Hmin].
  - intros [= <-]. destruct rest as [|t' rest'].
    + split; [now left|]. intros t' [<-|[]]. apply Qle_refl.
    + cbn [argmin] in Erest. destruct (argmin rest') as [b'|].
      * destruct (Qltb (snd b') (snd t')); discriminate.
      * discriminate.
Qed.



Lemma set_parameters_ok (p : dict) (w w' : world) :
  set_parameters p w = (Ok tt, w') ->
  p !! "min_rad" = Some (min_rad (self w')) /\
  p !! "max_rad" = Some (max_rad (self w')) /\
  p !! "sigma_ratio" = Some (sigma_ratio (self w')) /\
  p !! "overlap" = Some (overlap (self w')) /\
  p !! "threshold" = Some (threshold (self w')).
Proof.
  unfold set_parameters, mbind, M_bind, modify_self, lift, getitem.
  destruct (p !! "min_rad"); [|discriminate].
  destruct (p !! "max_rad"); [|discriminate].
  destruct (p !! "sigma_ratio"); [|discriminate].
  destruct (p !! "overlap"); [|discriminate].
  destruct (p !! "threshold"); [|discriminate].
  intros [= <-]. cbn. repeat split.
Qed.




Section Candidates.

Context `{Env} `{Scheduler}.

Variables (X : list image) (Y : list truth) (mmd : Q)
          (checkpoint_dir : option string) (n_cpu : Z).

Hypothesis suggest_in_space :
  forall trials, in_space search_space (suggest search_space trials).



(** The trials of the loop: those it started with, then candidates of
    the search space. *)
Lemma fmin_loop_trials (n : nat) :
  forall (trials ts : list (dict * Q)) (w w' : world),
    fmin_loop (fun p => _objective p X Y mmd checkpoint_dir n_cpu)
      search_space n trials w = (Ok ts, w') ->
    exists more,
      ts = (trials ++ more)%list /\
      Forall (fun t => in_space search_space (fst t)) more.
Proof.
  induction n as [|n IH]; intros trials ts w w'.
  - cbn. intros [= <- <-]. exists []. split; [now rewrite app_nil_r|constructor].
  - cbn [fmin_loop]. unfold mbind, M_bind.
    destruct (_objective (suggest search_space trials) X Y mmd checkpoint_dir
                n_cpu w) as [[loss|e] w1]; [|discriminate].
    intros Hloop. destruct (IH _ _ _ _ Hloop) as (more & -> & Hall).
    exists ((suggest search_space trials, loss) :: more). split.
    + now rewrite <- app_assoc.
    + constructor; [apply suggest_in_space|exact Hall].
Qed.


End Candidates.


Lemma toy_suggest_in_space (trials : list (dict * Q)) :
  in_space search_space (suggest (Env := toy_env) search_space trials).
Proof.
  cbn [suggest toy_env]. unfold in_space, search_space.
  destruct (Nat.odd (length trials));
    repeat constructor; eexists;
    (split; [vm_compute; reflexivity|split; discriminate]).
Qed.


(** On the small environment the run returns and installs the candidate
    of the second trial, whose F1 is 1. *)
Example toy_run_installs :
  let out := fit (H := toy_env) (H0 := in_order) [[TP; FP]] [tt] 1 3
               (Some "ckpt") 1 fresh_world in
  fst out = Ok tt /\
  min_rad (self (snd out)) = 5%Q /\ max_rad (self (snd out)) = (5 + 3)%Q /\
  threshold (self (snd out)) = 3 # 4.
Proof. vm_compute. repeat split. Qed.

End DetectorFacts.

(** * Further properties of the class [BlobDoG] *)

Module DetectorMore.

Import Detector DetectorAux DetectorFacts Prediction.
Local Open Scope string_scope.

(** ** [get_parameters] and [set_parameters] *)

Lemma get_parameters_lookup (s : BlobDoG) :
  get_parameters s !! "min_rad" = Some (min_rad s) /\
  get_parameters s !! "max_rad" = Some (max_rad s) /\
  get_parameters s !! "sigma_ratio" = Some (sigma_ratio s) /\
  get_parameters s !! "overlap" = Some (overlap s) /\
  get_parameters s !! "threshold" = Some (threshold s).
Proof. unfold get_parameters. repeat split; now simplify_map_eq. Qed.

(** X1: installing the dictionary that [get_parameters] returns succeeds and
    changes nothing. *)
Theorem set_parameters_of_get_parameters (w : world) :
  set_parameters (get_parameters (self w)) w = (Ok tt, w).
Proof.
  destruct (get_parameters_lookup (self w)) as (H1 & H2 & H3 & H4 & H5).
  unfold set_parameters, mbind, M_bind, modify_self, lift, getitem.
  rewrite H1, H2, H3, H4, H5. cbn [self fs dumps evaluated].
  destruct w as [[? ? ? ? ? ? ? ? ?] ? ? ?]. reflexivity.
Qed.

(** X2: after a successful [set_parameters], [get_parameters] returns the
    five values of the dictionary and nothing else; the other attributes
    of the detector and the rest of the world are as before. *)
Theorem get_parameters_after_set (p : dict) (w w' : world) :
  set_parameters p w = (Ok tt, w') ->
  (forall k, In k parameter_keys -> get_parameters (self w') !! k = p !! k) /\
  (forall k, ~ In k parameter_keys -> get_parameters (self w') !! k = None) /\
  same_geometry (self w) (self w') /\
  train_step (self w') = train_step (self w) /\
  fs w' = fs w /\ dumps w' = dumps w /\ evaluated w' = evaluated w.
Proof.
  intros Hset.
  destruct (set_parameters_frame _ _ _ _ Hset) as (Hfs & Hd & Hev & Hts).
  pose proof (set_parameters_ok _ _ _ Hset) as (H1 & H2 & H3 & H4 & H5).
  destruct (get_parameters_lookup (self w')) as (G1 & G2 & G3 & G4 & G5).
  split; [|split; [|split; [|repeat split; assumption]]].
  - intros k [<-|[<-|[<-|[<-|[<-|[]]]]]]; congruence.
  - intros k Hk. unfold get_parameters.
    rewrite !lookup_insert_ne; [apply lookup_empty|..];
      intros <-; apply Hk; cbn; tauto.
  - revert Hset.
    unfold set_parameters, mbind, M_bind, modify_self, lift, getitem.
    destruct (p !! "min_rad"); [|discriminate].
    destruct (p !! "max_rad"); [|discriminate].
    destruct (p !! "sigma_ratio"); [|discriminate].
    destruct (p !! "overlap"); [|discriminate].
    destruct (p !! "threshold"); [|discriminate].
    intros [= <-]. repeat split.
Qed.

Lemma get_parameters_after_set_witness :
  let p := <["max_rad" := 8%Q]> (toy_candidate true) in
  let w' := snd (set_parameters p fresh_world) in
  (forall k, In k parameter_keys -> get_parameters (self w') !! k = p !! k) /\
  (forall k, ~ In k parameter_keys -> get_parameters (self w') !! k = None) /\
  same_geometry (self fresh_world) (self w') /\
  train_step (self w') = train_step (self fresh_world) /\
  fs w' = fs fresh_world /\ dumps w' = dumps fresh_world /\
  evaluated w' = evaluated fresh_world.
Proof.
  intros p w'.
  apply (get_parameters_after_set p fresh_world w').
  vm_compute. reflexivity.
Defined.

(** The ways of splitting the five keys around one of them. *)
Lemma parameter_keys_split (k : string) (before after : list string) :
  parameter_keys = (before ++ k :: after)%list ->
  (before = [] /\ k = "min_rad" /\
   after = ["max_rad"; "sigma_ratio"; "overlap"; "threshold"]) \/
  (before = ["min_rad"] /\ k = "max_rad" /\
   after = ["sigma_ratio"; "overlap"; "threshold"]) \/
  (before = ["min_rad"; "max_rad"] /\ k = "sigma_ratio" /\
   after = ["overlap"; "threshold"]) \/
  (before = ["min_rad"; "max_rad"; "sigma_ratio"] /\ k = "overlap" /\
   after = ["threshold"]) \/
  (before = ["min_rad"; "max_rad"; "sigma_ratio"; "overlap"] /\
   k = "threshold" /\ after = []).
Proof.
  unfold parameter_keys. intros Hsplit.
  destruct before as [|b0 [|b1 [|b2 [|b3 [|b4 rest]]]]];
    cbn [app] in Hsplit; injection Hsplit as <-; subst; try tauto.
  destruct rest; discriminate.
Qed.

(** X3: when the dictionary lacks one of the five keys, [set_parameters]
    raises [KeyError] for the first one missing, in the order min_rad,
    max_rad, sigma_ratio, overlap, threshold.  It is not atomic: the
    attributes read before that key have already been assigned, the
    others keep their values. *)
Theorem set_parameters_missing_key (p : dict) (w : world) (k : string)
    (before after : list string) :
  parameter_keys = (before ++ k :: after)%list ->
  Forall (fun j => is_Some (p !! j)) before ->
  p !! k = None ->
  exists w',
    set_parameters p w = (Raise (KeyError k), w') /\
    (forall j, In j before -> get_parameters (self w') !! j = p !! j) /\
    (forall j, In j (k :: after) ->
       get_parameters (self w') !! j = get_parameters (self w) !! j) /\
    fs w' = fs w /\ dumps w' = dumps w.
Proof.
  intros Hsplit Hbefore Hk.
  destruct (parameter_keys_split _ _ _ Hsplit)
    as [(-> & -> & ->)|[(-> & -> & ->)|[(-> & -> & ->)|[(-> & -> & ->)
       |(-> & -> & ->)]]]];
    repeat match goal with
           | H : Forall _ (_ :: _) |- _ =>
               apply Forall_cons in H as [[? ?] H]
           end;
    unfold set_parameters, mbind, M_bind, modify_self, lift, getitem;
    repeat match goal with
           | H : p !! _ = _ |- _ => rewrite H
           end;
    cbn [self fs dumps evaluated];
    (eexists; split; [reflexivity|]);
    cbn [self fs dumps];
    (split; [|split; [|split; reflexivity]]);
    intros j Hj; cbn in Hj;
    repeat match goal with
           | H : _ \/ _ |- _ => destruct H as [<-|H]
           | H : False |- _ => destruct H
           end;
    unfold get_parameters; simplify_map_eq; reflexivity.
Qed.

Lemma set_parameters_missing_key_witness :
  exists w',
    set_parameters (toy_candidate true) fresh_world
    = (Raise (KeyError "max_rad"), w') /\
    (forall j, In j ["min_rad"] ->
       get_parameters (self w') !! j = toy_candidate true !! j) /\
    (forall j, In j ["max_rad"; "sigma_ratio"; "overlap"; "threshold"] ->
       get_parameters (self w') !! j
       = get_parameters (self fresh_world) !! j) /\
    fs w' = fs fresh_world /\ dumps w' = dumps fresh_world.
Proof.
  apply (set_parameters_missing_key (toy_candidate true) fresh_world "max_rad"
           ["min_rad"] ["sigma_ratio"; "overlap"; "threshold"]).
  - reflexivity.
  - constructor; [|constructor]. eexists. vm_compute. reflexivity.
  - vm_compute. reflexivity.
Defined.

(** ** One evaluation of the objective *)

Section ObjectiveMore.

Context `{Env} `{Scheduler}.

Lemma objective_self (p : dict) (X : list image) (Y : list truth) (mmd : Q)
    (checkpoint_dir : option string) (n_cpu : Z) (w : world) :
  self (snd (_objective p X Y mmd checkpoint_dir n_cpu w))
  = set_train_step (train_step (self w) + 1) (self w).
Proof.
  rewrite objective_unfold. cbn zeta.
  destruct (getitem p "min_rad"); [|reflexivity].
  destruct (getitem p "min_max_rad_diff"); [|reflexivity].
  destruct (dataset_f1 _ _ X Y mmd n_cpu) as [f1|e]; [|reflexivity].
  destruct checkpoint_dir as [dir|]; [|reflexivity].
  destruct (Nat.eqb (train_step (self w) + 1) 1); [reflexivity|].
  destruct (fs w !! checkpoint_file dir) as [state|]; [|reflexivity].
  destruct (getitem state "f1") as [best|]; [|reflexivity].
  destruct (Qltb best f1); reflexivity.
Qed.

Lemma objective_steps (p : dict) (X : list image) (Y : list truth)
    (mmd : Q) (checkpoint_dir : option string) (n_cpu : Z) (w : world) :
  let w' := snd (_objective p X Y mmd checkpoint_dir n_cpu w) in
  train_step (self w') = (train_step (self w) + 1)%nat /\
  same_parameters (self w) (self w') /\
  same_geometry (self w) (self w').
Proof.
  cbn zeta. rewrite objective_self.
  destruct (self w). cbn. repeat split.
Qed.

Lemma objective_no_checkpoint_frame (p : dict) (X : list image)
    (Y : list truth) (mmd : Q) (n_cpu : Z) (w : world) :
  let w' := snd (_objective p X Y mmd None n_cpu w) in
  fs w' = fs w /\ dumps w' = dumps w.
Proof.
  cbn zeta. rewrite objective_unfold. cbn zeta.
  destruct (getitem p "min_rad"); [|split; reflexivity].
  destruct (getitem p "min_max_rad_diff"); [|split; reflexivity].
  destruct (dataset_f1 _ _ X Y mmd n_cpu); split; reflexivity.
Qed.

(** X4: every call of the objective, whether it returns or raises, advances
    [train_step] by exactly one and leaves the detection parameters and
    the construction arguments of the detector as they were. *)
Theorem objective_steps_once (p : dict) (X : list image) (Y : list truth)
    (mmd : Q) (checkpoint_dir : option string) (n_cpu : Z) (w : world) :
  let w' := snd (_objective p X Y mmd checkpoint_dir n_cpu w) in
  train_step (self w') = (train_step (self w) + 1)%nat /\
  same_parameters (self w) (self w') /\
  same_geometry (self w) (self w').
Proof. apply objective_steps. Qed.

(** X5: without a checkpoint directory the objective neither reads nor
    writes any file, whether it returns or raises: the files on disk and
    the record of the [json.dump] calls are what they were before the
    call, and what the call returns or raises, the detector and the
    candidates evaluated are the same whatever files are on disk. *)
Theorem objective_without_checkpoint (p : dict) (X : list image)
    (Y : list truth) (mmd : Q) (n_cpu : Z) (w : world) :
  let w' := snd (_objective p X Y mmd None n_cpu w) in
  fs w' = fs w /\ dumps w' = dumps w /\
  forall files : gmap string dict,
    let v := _objective p X Y mmd None n_cpu
               (mk_world (self w) files (dumps w) (evaluated w)) in
    fst v = fst (_objective p X Y mmd None n_cpu w) /\
    self (snd v) = self w' /\
    evaluated (snd v) = evaluated w' /\
    fs (snd v) = files.
Proof.
  cbn zeta.
  destruct (objective_no_checkpoint_frame p X Y mmd n_cpu w) as [Hfs Hdumps].
  split; [exact Hfs|]. split; [exact Hdumps|].
  intros files. rewrite !objective_unfold. cbn zeta.
  cbn [self fs dumps evaluated].
  destruct (getitem p "min_rad"); [|repeat split].
  destruct (getitem p "min_max_rad_diff"); [|repeat split].
  destruct (dataset_f1 _ _ X Y mmd n_cpu); repeat split.
Qed.

(** X6: a candidate without [min_rad] or [min_max_rad_diff] makes the
    objective raise [KeyError] before any evaluation and any file
    access, the step counter being already advanced. *)
Theorem objective_missing_key (p : dict) (X : list image) (Y : list truth)
    (mmd : Q) (checkpoint_dir : option string) (n_cpu : Z) (w : world) :
  p !! "min_rad" = None \/ p !! "min_max_rad_diff" = None ->
  exists k,
    (k = "min_rad" \/ k = "min_max_rad_diff") /\ p !! k = None /\
    _objective p X Y mmd checkpoint_dir n_cpu w
    = (Raise (KeyError k),
       mk_world (set_train_step (train_step (self w) + 1) (self w))
                (fs w) (dumps w) (evaluated w)).
Proof.
  intros Hmiss. rewrite objective_unfold. cbn zeta. unfold getitem.
  destruct (p !! "min_rad") as [lo|] eqn:Elo.
  - destruct Hmiss as [Hm|Hm]; [discriminate|]. rewrite Hm.
    exists "min_max_rad_diff". split; [now right|]. split; [exact Hm|reflexivity].
  - exists "min_rad". split; [now left|]. split; [exact Elo|reflexivity].
Qed.


(** X8: the state written by the first evaluation of a detector can be
    installed with [set_parameters] whenever the candidate carries
    [sigma_ratio], [overlap] and [threshold]: the detector then holds
    the candidate's values, with [max_rad = min_rad + min_max_rad_diff]. *)
Theorem checkpoint_loads_back (p : dict) (X : list image) (Y : list truth)
    (mmd : Q) (dir : string) (n_cpu : Z) (w w' : world) (loss sr ov th : Q) :
  train_step (self w) = 0%nat ->
  p !! "sigma_ratio" = Some sr ->
  p !! "overlap" = Some ov ->
  p !! "threshold" = Some th ->
  _objective p X Y mmd (Some dir) n_cpu w = (Ok loss, w') ->
  exists (state : dict) (lo diff : Q),
    fs w' !! checkpoint_file dir = Some state /\
    p !! "min_rad" = Some lo /\ p !! "min_max_rad_diff" = Some diff /\
    forall w0 : world,
      exists w1,
        set_parameters state w0 = (Ok tt, w1) /\
        min_rad (self w1) = lo /\ max_rad (self w1) = (lo + diff)%Q /\
        sigma_ratio (self w1) = sr /\ overlap (self w1) = ov /\
        threshold (self w1) = th.
Proof.
  intros Hstep Hsr Hov Hth. rewrite objective_unfold. cbn zeta.
  unfold getitem.
  destruct (p !! "min_rad") as [lo|] eqn:Elo; [|discriminate].
  destruct (p !! "min_max_rad_diff") as [diff|] eqn:Ediff; [|discriminate].
  destruct (dataset_f1 _ _ X Y mmd n_cpu) as [f1|e]; [|discriminate].
  rewrite Hstep. cbn [Nat.add Nat.eqb]. intros [= <- <-].
  eexists _, lo, diff. split; [cbn [fs]; apply lookup_insert_eq|].
  split; [reflexivity|]. split; [reflexivity|].
  intros w0. unfold set_parameters, mbind, M_bind, modify_self, lift, getitem.
  simplify_map_eq. cbn [self]. eexists. split; [reflexivity|].
  destruct (self w0). cbn. repeat split.
Qed.

End ObjectiveMore.

Lemma objective_missing_key_witness :
  exists k,
    (k = "min_rad" \/ k = "min_max_rad_diff") /\
    delete "min_max_rad_diff" (toy_candidate true) !! k = None /\
    _objective (H := toy_env) (H0 := in_order)
      (delete "min_max_rad_diff" (toy_candidate true)) [[TP]] [tt] 1
      (Some "ckpt") 1 fresh_world
    = (Raise (KeyError k),
       mk_world (set_train_step (train_step (self fresh_world) + 1)
                   (self fresh_world))
                (fs fresh_world) (dumps fresh_world) (evaluated fresh_world)).
Proof.
  apply (objective_missing_key (H := toy_env) (H0 := in_order)).
  right. vm_compute. reflexivity.
Defined.


Lemma checkpoint_loads_back_witness :
  let out := _objective (H := toy_env) (H0 := in_order) (toy_candidate true)
               [[TP; FP]] [tt] 1 (Some "ckpt") 1 fresh_world in
  exists (state : dict) (lo diff : Q),
    fs (snd out) !! checkpoint_file "ckpt" = Some state /\
    toy_candidate true !! "min_rad" = Some lo /\
    toy_candidate true !! "min_max_rad_diff" = Some diff /\
    forall w0 : world,
      exists w1,
        set_parameters state w0 = (Ok tt, w1) /\
        min_rad (self w1) = lo /\ max_rad (self w1) = (lo + diff)%Q /\
        sigma_ratio (self w1) = 3 # 2 /\ overlap (self w1) = 1 # 2 /\
        threshold (self w1) = 3 # 4.
Proof.
  intros out.
  apply (checkpoint_loads_back (H := toy_env) (H0 := in_order)
           (toy_candidate true) [[TP; FP]] [tt] 1 "ckpt" 1 fresh_world
           (snd out) (- (2 # 2))%Q (3 # 2) (1 # 2) (3 # 4)).
  - reflexivity.
  - vm_compute. reflexivity.
  - vm_compute. reflexivity.
  - vm_compute. reflexivity.
  - vm_compute. reflexivity.
Defined.

(** ** A run of [fit] *)

Lemma same_parameters_refl (s : BlobDoG) : same_parameters s s.
Proof. repeat split. Qed.

Lemma same_geometry_refl (s : BlobDoG) : same_geometry s s.
Proof. repeat split. Qed.

Lemma same_parameters_trans (s1 s2 s3 : BlobDoG) :
  same_parameters s1 s2 -> same_parameters s2 s3 -> same_parameters s1 s3.
Proof. unfold same_parameters. intuition congruence. Qed.

Lemma same_geometry_trans (s1 s2 s3 : BlobDoG) :
  same_geometry s1 s2 -> same_geometry s2 s3 -> same_geometry s1 s3.
Proof. unfold same_geometry. intuition congruence. Qed.

Lemma set_parameters_geometry (p : dict) (w w' : world) (r : result unit) :
  set_parameters p w = (r, w') -> same_geometry (self w) (self w').
Proof.
  unfold set_parameters, mbind, M_bind, modify_self, lift.
  destruct (getitem p "min_rad"); [|intros [= <- <-]; repeat split].
  destruct (getitem p "max_rad"); [|intros [= <- <-]; repeat split].
  destruct (getitem p "sigma_ratio"); [|intros [= <- <-]; repeat split].
  destruct (getitem p "overlap"); [|intros [= <- <-]; repeat split].
  destruct (getitem p "threshold"); intros [= <- <-]; repeat split.
Qed.

Lemma in_space_keys (c : dict) :
  in_space search_space c ->
  is_Some (c !! "min_rad") /\ is_Some (c !! "min_max_rad_diff") /\
  is_Some (c !! "sigma_ratio") /\ is_Some (c !! "overlap") /\
  is_Some (c !! "threshold").
Proof.
  unfold in_space, search_space. intros Hc.
  repeat match goal with
         | H : Forall _ (_ :: _) |- _ =>
             apply Forall_cons in H as [(? & ? & _) H]
         end.
  repeat split; eexists; eassumption.
Qed.

Section FitMore.

Context `{Env} `{Scheduler}.

Variables (X : list image) (Y : list truth) (mmd : Q)
          (checkpoint_dir : option string) (n_cpu : Z).

Lemma objective_counts (p : dict) (w w' : world) (r : result Q) :
  _objective p X Y mmd checkpoint_dir n_cpu w = (r, w') ->
  length (evaluated w') <= S (length (evaluated w)) /\
  (forall loss, r = Ok loss ->
     length (evaluated w') = S (length (evaluated w))).
Proof.
  rewrite objective_unfold. cbn zeta.
  assert (Hone : forall q : dict,
            length (evaluated w ++ [q]) = S (length (evaluated w))).
  { intros q. rewrite length_app. cbn. lia. }
  destruct (getitem p "min_rad");
    [|intros [= <- <-]; cbn; split; [lia|discriminate]].
  destruct (getitem p "min_max_rad_diff");
    [|intros [= <- <-]; cbn; split; [lia|discriminate]].
  destruct (dataset_f1 _ _ X Y mmd n_cpu) as [f1|e];
    [|intros [= <- <-]; cbn [evaluated]; rewrite Hone; split;
      [lia|discriminate]].
  destruct checkpoint_dir as [dir|];
    [|intros [= <- <-]; cbn [evaluated]; rewrite Hone; split; [lia|reflexivity]].
  destruct (Nat.eqb (train_step (self w) + 1) 1);
    [intros [= <- <-]; cbn [evaluated]; rewrite Hone; split; [lia|reflexivity]|].
  destruct (fs w !! checkpoint_file dir) as [state|];
    [|intros [= <- <-]; cbn [evaluated]; rewrite Hone; split;
      [lia|discriminate]].
  destruct (getitem state "f1") as [best|];
    [|intros [= <- <-]; cbn [evaluated]; rewrite Hone; split;
      [lia|discriminate]].
  destruct (Qltb best f1); intros [= <- <-]; cbn [evaluated]; rewrite Hone;
    split; (lia || reflexivity).
Qed.

(** The loop calls the objective [m <= n] times, [n] times when it
    returns. *)
Lemma fmin_loop_calls (space : list (string * Q * Q)) (n : nat) :
  forall (trials : list (dict * Q)) (w w' : world)
         (r : result (list (dict * Q))),
    fmin_loop (fun p => _objective p X Y mmd checkpoint_dir n_cpu)
      space n trials w = (r, w') ->
    exists m,
      m <= n /\
      train_step (self w') = train_step (self w) + m /\
      same_parameters (self w) (self w') /\
      same_geometry (self w) (self w') /\
      length (evaluated w') <= length (evaluated w) + m /\
      (forall ts, r = Ok ts ->
         m = n /\ length ts = length trials + n /\
         length (evaluated w') = length (evaluated w) + n).
Proof.
  induction n as [|n IH]; intros trials w w' r.
  - cbn. intros [= <- <-]. exists 0.
    split; [lia|]. split; [lia|].
    split; [apply same_parameters_refl|]. split; [apply same_geometry_refl|].
    split; [lia|]. intros ts [= <-]. lia.
  - cbn [fmin_loop]. unfold mbind, M_bind.
    destruct (_objective (suggest space trials) X Y mmd checkpoint_dir n_cpu w)
      as [[loss|e] w1] eqn:Eobj;
      pose proof (objective_steps (suggest space trials) X Y mmd
                    checkpoint_dir n_cpu w) as Hstep;
      cbn zeta in Hstep; rewrite Eobj in Hstep; cbn [snd] in Hstep;
      destruct Hstep as (Hts & Hpar & Hgeo);
      destruct (objective_counts _ _ _ _ Eobj) as (Hle & Hok).
    + intros Hloop.
      destruct (IH _ _ _ _ Hloop) as (m & Hm & Hts2 & Hpar2 & Hgeo2 & Hev2 & Hr).
      exists (S m). split; [lia|]. split; [lia|].
      split; [now apply same_parameters_trans with (self w1)|].
      split; [now apply same_geometry_trans with (self w1)|].
      specialize (Hok loss eq_refl). split; [lia|].
      intros ts Hts3. destruct (Hr ts Hts3) as (-> & Hlen & Hev3).
      rewrite length_app in Hlen. cbn in Hlen. lia.
    + intros [= <- <-]. exists 1. split; [lia|]. split; [lia|].
      split; [exact Hpar|]. split; [exact Hgeo|]. split; [lia|discriminate].
Qed.

Lemma argmin_nonempty (trials : list (dict * Q)) (b : dict * Q) :
  argmin trials = Some b -> 1 <= length trials.
Proof. destruct trials; [discriminate|cbn; lia]. Qed.

(** X9: [fit] evaluates the objective at most [n_iter] times and never
    changes the construction arguments of the detector; when it returns,
    [n_iter] is at least 1 and exactly [n_iter] parameter sets have been
    evaluated, the step counter having advanced by as much. *)
Theorem fit_counts_evaluations (n_iter : Z) (w w' : world) (r : result unit) :
  fit X Y mmd n_iter checkpoint_dir n_cpu w = (r, w') ->
  train_step (self w') <= train_step (self w) + Z.to_nat n_iter /\
  length (evaluated w') <= length (evaluated w) + Z.to_nat n_iter /\
  same_geometry (self w) (self w') /\
  (r = Ok tt ->
   (1 <= n_iter)%Z /\
   train_step (self w') = train_step (self w) + Z.to_nat n_iter /\
   length (evaluated w') = length (evaluated w) + Z.to_nat n_iter).
Proof.
  rewrite fit_unfold.
  destruct (fmin_loop _ search_space (Z.to_nat n_iter) [] w)
    as [[trials|e] w1] eqn:Eloop;
    destruct (fmin_loop_calls _ _ _ _ _ _ Eloop)
      as (m & Hm & Hts & Hpar & Hgeo & Hev & Hr);
    [|intros [= <- <-]; repeat split; (lia || apply Hgeo || discriminate)].
  destruct (Hr trials eq_refl) as (-> & Hlen & Hev1). cbn [length] in Hlen.
  destruct (argmin trials) as [b|] eqn:Eargmin;
    [|intros [= <- <-]; repeat split; (lia || apply Hgeo || discriminate)].
  apply argmin_nonempty in Eargmin.
  destruct (getitem (fst b) "min_rad");
    [|intros [= <- <-]; repeat split; (lia || apply Hgeo || discriminate)].
  destruct (getitem (fst b) "min_max_rad_diff");
    [|intros [= <- <-]; repeat split; (lia || apply Hgeo || discriminate)].
  intros Hset.
  pose proof (set_parameters_geometry _ _ _ _ Hset) as Hgeo2.
  apply set_parameters_frame in Hset as (_ & _ & Hev2 & Hts2).
  rewrite Hev2, Hts2.
  split; [lia|]. split; [lia|].
  split; [now apply same_geometry_trans with (self w1)|].
  intros _. split; lia.
Qed.

(** X10: a run on candidates of the search space that ends with an exception
    has not touched the detection parameters of the detector. *)
Theorem fit_failure_keeps_parameters (n_iter : Z) (w w' : world) (e : exn) :
  (forall trials, in_space search_space (suggest search_space trials)) ->
  fit X Y mmd n_iter checkpoint_dir n_cpu w = (Raise e, w') ->
  same_parameters (self w) (self w').
Proof.
  intros Hsuggest. rewrite fit_unfold.
  destruct (fmin_loop _ search_space (Z.to_nat n_iter) [] w)
    as [[trials|e1] w1] eqn:Eloop;
    destruct (fmin_loop_calls _ _ _ _ _ _ Eloop)
      as (m & _ & _ & Hpar & _);
    [|now intros [= <- <-]].
  destruct (fmin_loop_trials X Y mmd checkpoint_dir n_cpu Hsuggest
              _ _ _ _ _ Eloop) as (more & Hts & Hmore).
  cbn [app] in Hts. subst more.
  destruct (argmin trials) as [b|] eqn:Eargmin; [|now intros [= <- <-]].
  destruct (argmin_spec _ _ Eargmin) as [Hin _].
  rewrite List.Forall_forall in Hmore. specialize (Hmore b Hin).
  destruct (in_space_keys _ Hmore)
    as ([lo Hlo] & [diff Hdiff] & [sr Hsr] & [ov Hov] & [th Hth]).
  unfold set_parameters, mbind, M_bind, modify_self, lift, getitem.
  rewrite Hlo, Hdiff. simplify_map_eq. discriminate.
Qed.

End FitMore.

(** X11: without a checkpoint directory a run of [fit] leaves the files
    alone. *)
Theorem fit_without_checkpoint `{Env} `{Scheduler}
    (X : list image) (Y : list truth) (mmd : Q) (n_iter : Z) (n_cpu : Z)
    (w : world) :
  let w' := snd (fit X Y mmd n_iter None n_cpu w) in
  fs w' = fs w /\ dumps w' = dumps w.
Proof.
  cbn zeta.
  assert (Hloop : forall n trials w0,
            let w1 := snd (fmin_loop
                             (fun p => _objective p X Y mmd None n_cpu)
                             search_space n trials w0) in
            fs w1 = fs w0 /\ dumps w1 = dumps w0).
  { induction n as [|n IH]; intros trials w0; cbn zeta.
    - split; reflexivity.
    - cbn [fmin_loop]. unfold mbind, M_bind.
      pose proof (objective_no_checkpoint_frame (suggest search_space trials)
                    X Y mmd n_cpu w0) as Hobj.
      cbn zeta in Hobj.
      destruct (_objective (suggest search_space trials) X Y mmd None n_cpu w0)
        as [[loss|e] w1]; cbn [snd] in Hobj; [|exact Hobj].
      destruct Hobj as [Hf Hd].
      destruct (IH (trials ++ [(suggest search_space trials, loss)])%list w1)
        as [Hf2 Hd2].
      split; congruence. }
  rewrite fit_unfold.
  specialize (Hloop (Z.to_nat n_iter) [] w). cbn zeta in Hloop.
  destruct (fmin_loop _ search_space (Z.to_nat n_iter) [] w)
    as [[trials|e] w1]; cbn [snd] in Hloop |- *; [|exact Hloop].
  destruct (argmin trials) as [b|]; [|exact Hloop].
  destruct (getitem (fst b) "min_rad"); [|exact Hloop].
  destruct (getitem (fst b) "min_max_rad_diff"); [|exact Hloop].
  destruct (set_parameters _ w1) as [r w2] eqn:Eset.
  apply set_parameters_frame in Eset as (Hf & Hd & _). cbn [snd].
  destruct Hloop. split; congruence.
Qed.

Lemma fit_counts_evaluations_witness :
  let out := fit (H := toy_env) (H0 := in_order) [[TP; FP]] [tt] 1 3
               (Some "ckpt") 1 fresh_world in
  train_step (self (snd out)) <= train_step (self fresh_world) + Z.to_nat 3 /\
  length (evaluated (snd out))
  <= length (evaluated fresh_world) + Z.to_nat 3 /\
  same_geometry (self fresh_world) (self (snd out)) /\
  (fst out = Ok tt ->
   (1 <= 3)%Z /\
   train_step (self (snd out))
   = train_step (self fresh_world) + Z.to_nat 3 /\
   length (evaluated (snd out))
   = length (evaluated fresh_world) + Z.to_nat 3).
Proof.
  intros out.
  apply (fit_counts_evaluations (H := toy_env) (H0 := in_order)
           [[TP; FP]] [tt] 1 (Some "ckpt") 1 3 fresh_world (snd out) (fst out)).
  apply surjective_pairing.
Defined.

Lemma fit_failure_keeps_parameters_witness :
  same_parameters (self stepped_world)
    (self (snd (fit (H := toy_env) (H0 := in_order) [[TP; FP]] [tt] 1 3
                  (Some "ckpt") 1 stepped_world))).
Proof.
  apply (fit_failure_keeps_parameters (H := toy_env) (H0 := in_order)
           [[TP; FP]] [tt] 1 (Some "ckpt") 1 3 stepped_world _
           (UnboundLocalError "state") toy_suggest_in_space).
  vm_compute. reflexivity.
Defined.

(** ** The checkpoint at the end of a run *)

Lemma Qltb_opp (x y : Q) : Qltb (- x) (- y) = Qltb y x.
Proof.
  destruct (Qltb y x) eqn:E.
  - apply Qltb_lt in E. apply Qltb_lt. Lqa.lra.
  - apply Qltb_ge in E. apply Qltb_ge. Lqa.lra.
Qed.

(** [argmin] when a trial is added at the end: the new trial wins only
    with a strictly smaller loss. *)
Lemma argmin_snoc (trials : list (dict * Q)) (t : dict * Q) :
  argmin (trials ++ [t])
  = match argmin trials with
    | None => Some t
    | Some b => if Qltb (snd t) (snd b) then Some t else Some b
    end.
Proof.
  induction trials as [|a rest IH]; [reflexivity|].
  change ((a :: rest) ++ [t])%list with (a :: (rest ++ [t]))%list.
  cbn [argmin]. rewrite IH.
  destruct (argmin rest) as [b|].
  - destruct (Qltb (snd t) (snd b)) eqn:Etb;
      destruct (Qltb (snd b) (snd a)) eqn:Eba;
      destruct (Qltb (snd t) (snd a)) eqn:Eta;
      try reflexivity;
      try rewrite Etb; try reflexivity;
      repeat match goal with
             | H : Qltb _ _ = true |- _ => apply Qltb_lt in H
             | H : Qltb _ _ = false |- _ => apply Qltb_ge in H
             end;
      exfalso; Lqa.lra.
  - reflexivity.
Qed.

Lemma argmin_none (trials : list (dict * Q)) :
  argmin trials = None -> trials = [].
Proof.
  destruct trials as [|t rest]; [reflexivity|].
  cbn [argmin]. destruct (argmin rest) as [b|]; [|discriminate].
  destruct (Qltb (snd b) (snd t)); discriminate.
Qed.

Section CheckpointAtEnd.

Context `{Env} `{Scheduler}.

Variables (X : list image) (Y : list truth) (mmd : Q) (dir : string)
          (n_cpu : Z).

Lemma objective_tracks_best (c : dict) (trials : list (dict * Q))
    (w w' : world) (loss : Q) :
  tracks_best dir trials w ->
  _objective c X Y mmd (Some dir) n_cpu w = (Ok loss, w') ->
  tracks_best dir (trials ++ [(c, loss)]) w'.
Proof.
  intros [Hstep Hbest] Hobj.
  pose proof (objective_steps c X Y mmd (Some dir) n_cpu w) as Hs.
  cbn zeta in Hs. rewrite Hobj in Hs. cbn [snd] in Hs. destruct Hs as (Hts & _).
  split; [rewrite length_app; cbn; lia|].
  revert Hobj. rewrite objective_unfold. cbn zeta. unfold getitem.
  destruct (c !! "min_rad") as [lo|] eqn:Elo; [|discriminate].
  destruct (c !! "min_max_rad_diff") as [diff|] eqn:Ediff; [|discriminate].
  destruct (dataset_f1 _ _ X Y mmd n_cpu) as [f1|e]; [|discriminate].
  rewrite argmin_snoc.
  destruct (Nat.eqb (train_step (self w) + 1) 1) eqn:Efirst.
  - apply Nat.eqb_eq in Efirst. intros [= <- <-].
    assert (Hnil : trials = []) by (destruct trials; [reflexivity|cbn in Hstep; lia]).
    subst trials. cbn [argmin]. intros b [= <-]. cbn [fst snd fs].
    exists lo, diff, f1, (train_step (self w) + 1).
    repeat split; try assumption. apply lookup_insert_eq.
  - apply Nat.eqb_neq in Efirst.
    destruct (argmin trials) as [b0|] eqn:Eargmin.
    2:{ apply argmin_none in Eargmin. subst trials. cbn in Hstep. lia. }
    destruct (Hbest b0 eq_refl) as (lo0 & diff0 & f0 & step0 & Hlo0 & Hdiff0 & Hloss0 & Hfile).
    rewrite Hfile. unfold checkpoint_of at 1.
    rewrite lookup_insert_ne by discriminate. rewrite lookup_insert_eq.
    cbn [snd]. rewrite Hloss0.
    destruct (Qltb f0 f1) eqn:Elt; intros [= <- <-]; rewrite Qltb_opp, Elt;
      intros b [= <-]; cbn [fst snd fs].
    + exists lo, diff, f1, (train_step (self w) + 1).
      repeat split; try assumption. apply lookup_insert_eq.
    + exists lo0, diff0, f0, step0. repeat split; assumption.
Qed.

Lemma fmin_loop_tracks_best (space : list (string * Q * Q)) (n : nat) :
  forall (trials ts : list (dict * Q)) (w w' : world),
    tracks_best dir trials w ->
    fmin_loop (fun p => _objective p X Y mmd (Some dir) n_cpu)
      space n trials w = (Ok ts, w') ->
    tracks_best dir ts w'.
Proof.
  induction n as [|n IH]; intros trials ts w w' Htr.
  - cbn. now intros [= <- <-].
  - cbn [fmin_loop]. unfold mbind, M_bind.
    destruct (_objective (suggest space trials) X Y mmd (Some dir) n_cpu w)
      as [[loss|e] w1] eqn:Eobj; [|discriminate].
    apply IH. exact (objective_tracks_best _ _ _ _ _ Htr Eobj).
Qed.

(** X12: when [fit] returns on a new detector ([train_step] 0) with a
    checkpoint directory, the checkpoint file holds the five parameters
    that the detector now has, together with the best score of the run:
    some trial has the negated persisted [f1] as its loss and no trial
    has a loss below it. *)
Theorem fit_checkpoint_agrees (n_iter : Z) (w w' : world) :
  train_step (self w) = 0%nat ->
  fit X Y mmd n_iter (Some dir) n_cpu w = (Ok tt, w') ->
  exists (state : dict) (f1 : Q) (trials : list (dict * Q)) (w1 : world),
    fs w' !! checkpoint_file dir = Some state /\
    state !! "min_rad" = Some (min_rad (self w')) /\
    state !! "max_rad" = Some (max_rad (self w')) /\
    state !! "sigma_ratio" = Some (sigma_ratio (self w')) /\
    state !! "overlap" = Some (overlap (self w')) /\
    state !! "threshold" = Some (threshold (self w')) /\
    state !! "f1" = Some f1 /\
    fmin_loop (fun p => _objective p X Y mmd (Some dir) n_cpu)
      search_space (Z.to_nat n_iter) [] w = (Ok trials, w1) /\
    (exists best, In best trials /\ snd best = (- f1)%Q) /\
    forall t, In t trials -> (- f1 <= snd t)%Q.
Proof.
  intros Hzero. rewrite fit_unfold.
  destruct (fmin_loop _ search_space (Z.to_nat n_iter) [] w)
    as [[trials|e] w1] eqn:Eloop; [|discriminate].
  assert (Hstart : tracks_best dir [] w) by (split; [exact Hzero|discriminate]).
  destruct (fmin_loop_tracks_best _ _ _ _ _ _ Hstart Eloop) as [_ Hbest].
  destruct (argmin trials) as [b|] eqn:Eargmin; [|discriminate].
  destruct (argmin_spec _ _ Eargmin) as [Hin Hmin].
  destruct (Hbest b eq_refl)
    as (lo & diff & f1 & step & Hlo & Hdiff & Hloss & Hfile).
  unfold getitem. rewrite Hlo, Hdiff. intros Hset.
  pose proof (set_parameters_ok _ _ _ Hset) as (H1 & H2 & H3 & H4 & H5).
  apply set_parameters_frame in Hset as (Hfs & _).
  rewrite lookup_insert_ne in H1, H3, H4, H5 by discriminate.
  rewrite lookup_insert_eq in H2.
  exists (checkpoint_of (fst b) lo diff f1 step), f1, trials, w1.
  split; [now rewrite Hfs|].
  unfold checkpoint_of.
  split; [now simplify_map_eq|].
  split; [simplify_map_eq; congruence|].
  split; [now simplify_map_eq|].
  split; [now simplify_map_eq|].
  split; [now simplify_map_eq|].
  split; [now simplify_map_eq|].
  split; [reflexivity|].
  split; [now exists b|].
  intros t Ht. rewrite <- Hloss. now apply Hmin.
Qed.

End CheckpointAtEnd.

Lemma fit_checkpoint_agrees_witness :
  let out := fit (H := toy_env) (H0 := in_order) [[TP; FP]] [tt] 1 3
               (Some "ckpt") 1 fresh_world in
  exists (state : dict) (f1 : Q) (trials : list (dict * Q)) (w1 : world),
    fs (snd out) !! checkpoint_file "ckpt" = Some state /\
    state !! "min_rad" = Some (min_rad (self (snd out))) /\
    state !! "max_rad" = Some (max_rad (self (snd out))) /\
    state !! "sigma_ratio" = Some (sigma_ratio (self (snd out))) /\
    state !! "overlap" = Some (overlap (self (snd out))) /\
    state !! "threshold" = Some (threshold (self (snd out))) /\
    state !! "f1" = Some f1 /\
    fmin_loop (H := toy_env)
      (fun p => _objective (H := toy_env) (H0 := in_order) p [[TP; FP]] [tt]
                  1 (Some "ckpt") 1)
      search_space (Z.to_nat 3) [] fresh_world = (Ok trials, w1) /\
    (exists best, In best trials /\ snd best = (- f1)%Q) /\
    forall t, In t trials -> (- f1 <= snd t)%Q.
Proof.
  intros out.
  apply (fit_checkpoint_agrees (H := toy_env) (H0 := in_order)
           [[TP; FP]] [tt] 1 "ckpt" 1 3 fresh_world (snd out)).
  - reflexivity.
  - vm_compute. reflexivity.
Defined.

(** ** Evaluation *)

Lemma count_label_partition (names : list label) :
  (count_label TP names + count_label FP names + count_label FN names
   = Z.of_nat (length names))%Z.
Proof.
  unfold count_label.
  induction names as [|n names IH]; [reflexivity|].
  rewrite !filter_cons.
  destruct n; cbn [label_eqb]; repeat case_decide;
    try discriminate; try congruence; cbn [length]; lia.
Qed.

(** X13: in mode ["counts"], when the matching returns, [evaluate] gives one
    row whose TP, FP and FN add up to the number of labelled centers and
    whose totals are the numbers of rows of its two arguments. *)
Theorem evaluate_counts_partition `{Env} (self : BlobDoG) (y_pred : centers)
    (y_true : truth) (mmd : Q) (names : list label) :
  bipartite_match y_true y_pred mmd (dim_resolution self) = Ok names ->
  exists c : counts,
    evaluate self y_pred y_true mmd "counts" = Ok (Counts [c]) /\
    (c_TP c + c_FP c + c_FN c = Z.of_nat (length names))%Z /\
    tot_pred c = pred_rows y_pred /\ tot_true c = true_rows y_true.
Proof.
  intros Hm. unfold evaluate. cbn [existsb admitted_types negb]. rewrite Hm.
  cbn. eexists. split; [reflexivity|]. cbn.
  split; [apply count_label_partition|]. split; reflexivity.
Qed.

Lemma evaluate_counts_partition_witness :
  exists c : counts,
    evaluate (H := toy_env) (init 3 [1%Q; 1%Q; 1%Q] None) [TP; FP; TP] tt 1
      "counts" = Ok (Counts [c]) /\
    (c_TP c + c_FP c + c_FN c = Z.of_nat (length [TP; FP; TP]))%Z /\
    tot_pred c = pred_rows (Env := toy_env) [TP; FP; TP] /\
    tot_true c = true_rows (Env := toy_env) tt.
Proof.
  apply (evaluate_counts_partition (H := toy_env)
           (init 3 [1%Q; 1%Q; 1%Q] None) [TP; FP; TP] tt 1 [TP; FP; TP]).
  reflexivity.
Defined.

(** X14: [predict_and_evaluate] runs the prediction before the evaluation
    type is looked at: an exception of [predict] comes out whatever the
    type, and a type outside the admitted ones is only rejected once the
    prediction has returned. *)
Theorem predict_and_evaluate_predicts_first `{Env} (self : BlobDoG)
    (x : image) (y : truth) (mmd : Q) (evaluation_type : string)
    (parameters : option dict) :
  ~ In evaluation_type admitted_types ->
  predict_and_evaluate self x y mmd evaluation_type parameters
  = match Detector.predict self x parameters with
    | Raise e => Raise e
    | Ok _ => Raise (AssertionError "Wrong evaluation_type provided.")
    end.
Proof.
  intros Hout. unfold predict_and_evaluate.
  destruct (Detector.predict self x parameters) as [c|e]; [|reflexivity].
  cbn [mbind result_bind]. unfold evaluate.
  destruct (existsb (String.eqb evaluation_type) admitted_types) eqn:Ex;
    [|reflexivity].
  apply existsb_exists in Ex as (t & Hin & Heq).
  apply String.eqb_eq in Heq. subst t. contradiction.
Qed.

Lemma predict_and_evaluate_predicts_first_witness :
  predict_and_evaluate (H := toy_env) (init 3 [1%Q; 1%Q; 1%Q] None)
    [TP; FP] tt 1 "auc" None
  = match Detector.predict (Env := toy_env) (init 3 [1%Q; 1%Q; 1%Q] None)
            [TP; FP] None with
    | Raise e => Raise e
    | Ok _ => Raise (AssertionError "Wrong evaluation_type provided.")
    end.
Proof.
  apply (predict_and_evaluate_predicts_first (H := toy_env)).
  cbn. intros [E|[E|[E|[E|[E|[E|[]]]]]]]; discriminate E.
Defined.

End DetectorMore.

(** * Further properties of [blob_dog] *)

Module BlobDogMore.

Import BlobDog ResultFacts BlobDogFacts.
Local Open Scope R_scope.

Section MoreWithBackend.

Context {N : Numpy} {image : Type} `{BackendLaws image}.

(** X16: when the float64 mean of line 88 is a finite number below 1, as it
    is once [max_sigma] lies far enough below [min_sigma], the scale
    count is at most 0, the loop over the scales does not run and
    [blob_dog] raises: the [ValueError] of concatenating an empty list,
    unless building the progression has raised before. *)
Theorem blob_dog_reversed_bounds_raise (img : image)
    (min_sigma max_sigma : sigma_arg) (sigma_ratio threshold_rel overlap : R)
    (m : R) :
  scale_mean (as_array (ndim img) min_sigma) (as_array (ndim img) max_sigma)
             sigma_ratio = Ok (Fin m) ->
  m < 1 ->
  exists k : Z,
    scale_count (as_array (ndim img) min_sigma)
                (as_array (ndim img) max_sigma) sigma_ratio = Ok k /\
    (k <= 0)%Z /\
    match sigma_list (as_array (ndim img) min_sigma) sigma_ratio k with
    | Ok _ =>
        exists msg : string,
          blob_dog img min_sigma max_sigma sigma_ratio threshold_rel overlap
          = Raise (ValueError msg)
    | Raise e =>
        blob_dog img min_sigma max_sigma sigma_ratio threshold_rel overlap
        = Raise e
    end.
Proof.
  intros Hm Hlt. exists (py_int m).
  pose proof (scale_count_of_mean _ _ _ _ Hm) as Hsc. cbn [int_of_float] in Hsc.
  pose proof (py_int_below_1 m Hlt) as Hk.
  split; [exact Hsc|]. split; [exact Hk|].
  pose proof (blob_dog_no_scale img min_sigma max_sigma sigma_ratio
                threshold_rel overlap _ Hsc Hk) as Hraise.
  destruct (sigma_list _ sigma_ratio (py_int m)); [|exact Hraise].
  eexists. exact Hraise.
Qed.

(** The shape of what [blob_dog] returns: the empty array, or rows made
    of the coordinates of a peak followed by the sigma vector of its
    scale [i < k] (its first entry alone in scalar mode). *)
Lemma blob_dog_rows (img : image) (min_sigma max_sigma : sigma_arg)
    (r t ov : R) (a : ndarray) :
  blob_dog img min_sigma max_sigma r t ov = Ok a ->
  exists k : Z,
    scale_count (as_array (ndim img) min_sigma)
                (as_array (ndim img) max_sigma) r = Ok k /\
    (1 <= k)%Z /\
    (a = np_empty 3 \/
     let sc := isscalar max_sigma && isscalar min_sigma in
     ncols a
     = (ndim img
        + (if sc then 1 else length (as_array (ndim img) min_sigma)))%nat /\
     Forall (fun row =>
               exists (r0 : list Z) (i : nat),
                 length r0 = ndim img /\ (i < Z.to_nat k)%nat /\
                 row = (map IZR r0
                        ++ (if sc then firstn 1 else fun s => s)
                             (nth i (sigma_progression
                                       (as_array (ndim img) min_sigma) r k)
                                  []))%list /\
                 length (nth i (sigma_progression
                                  (as_array (ndim img) min_sigma) r k) [])
                 = length (as_array (ndim img) min_sigma))
            (rows a)).
Proof.
  intros Hok.
  destruct (blob_dog_ok_inv _ _ _ _ _ _ _ Hok)
    as (k & sl & arrs & Hsc & Hk & Hsl & Hm).
  exists k. split; [exact Hsc|]. split; [exact Hk|].
  pose proof (scale_count_ok_nonempty _ _ _ _ Hsc) as Hne.
  rewrite (blob_dog_eq _ _ _ _ _ _ k sl arrs Hsc Hk Hsl Hm) in Hok.
  cbn zeta in Hok.
  rewrite (sigma_progression_ok _ _ _ _ Hsl).
  set (mn := as_array (ndim img) min_sigma) in *.
  set (sc := isscalar max_sigma && isscalar min_sigma) in *.
  destruct (concat (map rows arrs)) as [|b0 blobs] eqn:Eg.
  { left. now injection Hok as <-. }
  right. cbn zeta.
  set (g := fun b : list R =>
              (if sc then firstn 1 else fun s => s)
                (nth (Z.to_nat (py_int (List.last b 0))) sl [])).
  assert (Hsig : (if sc then map (firstn 1) (sigmas_of_peaks sl (b0 :: blobs))
                  else sigmas_of_peaks sl (b0 :: blobs))
                 = map g (b0 :: blobs)).
  { unfold sigmas_of_peaks, g. destruct sc; [now rewrite map_map|reflexivity]. }
  rewrite Hsig in Hok. clear Hsig.
  assert (Hd : length (hd [] (map g (b0 :: blobs)))
               = if sc then 1%nat else length mn).
  { cbn [map hd].
    destruct (sigma_columns_length img mn r t k sl arrs sc b0 Hne Hsl Hm)
      as (_ & _ & Hl).
    - rewrite Eg. now left.
    - exact Hl. }
  rewrite Hd in Hok. injection Hok as <-. split.
  - rewrite prune_ncols. cbn [ncols]. lia.
  - apply List.Forall_forall. intros row Hrow.
    apply prune_rows in Hrow. cbn [rows] in Hrow.
    unfold hstack_sigmas in Hrow.
    change (g b0 :: map g blobs) with (map g (b0 :: blobs)) in Hrow.
    rewrite combine_map_self, map_map in Hrow.
    apply List.in_map_iff in Hrow as (b & <- & Hb). cbn [fst snd].
    rewrite <- Eg in Hb.
    destruct (gathered_row _ _ _ _ _ _ Hm Hb) as (r0 & i & -> & Hr0 & Hi).
    exists r0, i. split; [exact Hr0|]. split; [exact Hi|].
    unfold g. rewrite List.removelast_last, List.last_last, py_int_INR, Nat2Z.id.
    split; [reflexivity|].
    apply (sigma_list_nth_length mn r k sl i Hsl). lia.
Qed.


End MoreWithBackend.

Lemma blob_dog_reversed_bounds_raise_witness :
  exists k : Z,
    scale_count (N := exact_arithmetic) (as_array 2 (Sequence [3; 3]))
                (as_array 2 (Scalar 1)) 2 = Ok k /\
    (k <= 0)%Z /\
    match sigma_list (N := exact_arithmetic) (as_array 2 (Sequence [3; 3])) 2 k
    with
    | Ok _ =>
        exists msg : string,
          blob_dog (N := exact_arithmetic) (H := blank_backend) 2%nat
                   (Sequence [3; 3]) (Scalar 1) 2 (1 / 20) (4 / 5)
          = Raise (ValueError msg)
    | Raise e =>
        blob_dog (N := exact_arithmetic) (H := blank_backend) 2%nat
                 (Sequence [3; 3]) (Scalar 1) 2 (1 / 20) (4 / 5)
        = Raise e
    end.
Proof.
  assert (Hm : scale_mean (N := exact_arithmetic) [3; 3] [1; 1] 2
               = Ok (Fin (mean_log_ratio [3; 3] [1; 1] 2))).
  { apply exact_scale_mean; [discriminate|repeat constructor; lra|lra|].
    pose proof (ln_above_1 2 ltac:(lra)). lra. }
  apply (blob_dog_reversed_bounds_raise (N := exact_arithmetic)
           (H := blank_backend) 2%nat (Sequence [3; 3]) (Scalar 1) 2
           (1 / 20) (4 / 5) _ Hm).
  pose proof log2_3_bounds as [Hlo Hhi].
  unfold mean_log_ratio.
  cbn [combine map np_sum fold_right fst snd length INR].
  replace (1 / 3) with (/ 3) by lra. rewrite ln_Rinv by lra.
  replace (- ln 3 / ln 2) with (- (ln 3 / ln 2)) by (unfold Rdiv; ring).
  lra.
Defined.


End BlobDogMore.

(** * Properties of [BlobDoG.predict] *)

Module PredictionFacts.

Import BlobDog ResultFacts BlobDogFacts BlobDogMore Detector Prediction.
Local Open Scope R_scope.

Lemma Q2R_pos (q : Q) : (0 < q)%Q -> 0 < Q2R q.
Proof. intros Hq. rewrite <- RMicromega.Q2R_0. now apply Qreals.Qlt_Rlt. Qed.

(** The sigmas that [predict] derives from radii, resolutions and a
    ratio that make sense are admissible for [blob_dog]. *)
Lemma sigmas_admissible (lo hi sr : Q) (dim_resolution : list Q) (D n : nat) :
  dim_resolution <> [] ->
  Forall (fun res => (0 < res)%Q) dim_resolution ->
  (0 < D)%nat ->
  (0 < lo)%Q -> (lo <= hi)%Q -> (1 < sr)%Q ->
  admissible (as_array n (sigma_of_radius lo dim_resolution D))
             (as_array n (sigma_of_radius hi dim_resolution D)) (Q2R sr).
Proof.
  intros Hne Hres HD Hlo Hle Hr.
  assert (Hsq : 0 < sqrt (INR D)) by (apply sqrt_lt_R0; now apply lt_0_INR).
  cbn [as_array sigma_of_radius]. split; [|split].
  - destruct dim_resolution; [congruence|discriminate].
  - apply Q2R_pos in Hlo. apply Qreals.Qle_Rle in Hle.
    clear Hne. induction Hres as [|res l Hp _ IH]; cbn [map]; constructor;
      [|exact IH].
    apply Q2R_pos in Hp.
    assert (Hinv : 0 < / Q2R res * / sqrt (INR D)).
    { apply Rmult_lt_0_compat; now apply Rinv_0_lt_compat. }
    unfold Rdiv. rewrite !Rmult_assoc. split.
    + now apply Rmult_lt_0_compat.
    + apply Rmult_le_compat_r; [lra|exact Hle].
  - rewrite <- RMicromega.Q2R_1. now apply Qreals.Qlt_Rlt.
Qed.

Section PredictFacts.

Context {N : Numpy} {image : Type} `{BackendLaws image}.

Variable remove_border_points_from_array :
  ndarray -> image -> list Z -> ndarray.

Abbreviation predict := (Prediction.predict remove_border_points_from_array).

(** X19: calling [predict] without parameters is calling it with the
    detector's own, as [get_parameters] returns them. *)
Theorem predict_default_parameters (self : BlobDoG) (x : image) :
  predict self x None = predict self x (Some (get_parameters self)).
Proof.
  unfold Prediction.predict, getitem, get_parameters.
  simplify_map_eq. reflexivity.
Qed.

(** X20: with a dictionary that lacks one of the five keys [predict] raises
    [KeyError] for the first one it reads, in the order min_rad,
    max_rad, sigma_ratio, overlap, threshold, and no detection takes
    place. *)
Theorem predict_missing_key (self : BlobDoG) (x : image) (p : dict)
    (k : string) (before after : list string) :
  parameter_keys = (before ++ k :: after)%list ->
  Forall (fun j => is_Some (p !! j)) before ->
  p !! k = None ->
  predict self x (Some p) = Raise (KeyError k).
Proof.
  intros Hsplit Hbefore Hk.
  destruct (DetectorMore.parameter_keys_split _ _ _ Hsplit)
    as [(-> & -> & ->)|[(-> & -> & ->)|[(-> & -> & ->)|[(-> & -> & ->)
       |(-> & -> & ->)]]]];
    repeat match goal with
           | H : Forall _ (_ :: _) |- _ =>
               apply Forall_cons in H as [[? ?] H]
           end;
    unfold Prediction.predict, getitem;
    repeat match goal with
           | H : p !! _ = _ |- _ => rewrite H
           end;
    reflexivity.
Qed.

(** X21: [predict] never runs [blob_dog] in scalar-sigma mode: without border
    exclusion, every non-empty prediction has one sigma column per entry
    of [dim_resolution] after the coordinates, also when the resolution
    is the same on all axes. *)
Theorem predict_sigma_per_axis (self : BlobDoG) (x : image)
    (parameters : option dict) (a : ndarray) :
  exclude_border self = None ->
  predict self x parameters = Ok a ->
  rows a <> [] ->
  ncols a = (ndim x + length (dim_resolution self))%nat /\
  Forall (fun row => length row = (ndim x + length (dim_resolution self))%nat)
         (rows a).
Proof.
  intros Hborder Hok Hrows.
  assert (Hdog : exists lo hi sr th ov,
            blob_dog x (sigma_of_radius lo (dim_resolution self) (D self))
                     (sigma_of_radius hi (dim_resolution self) (D self))
                     sr th ov = Ok a).
  { revert Hok. unfold Prediction.predict. rewrite Hborder.
    destruct parameters as [p|].
    - destruct (getitem p "min_rad") as [lo|]; [|discriminate].
      destruct (getitem p "max_rad") as [hi|]; [|discriminate].
      destruct (getitem p "sigma_ratio") as [sr|]; [|discriminate].
      destruct (getitem p "overlap") as [ov|]; [|discriminate].
      destruct (getitem p "threshold") as [th|]; [|discriminate].
      cbn [mbind result_bind].
      destruct (blob_dog x _ _ (Q2R sr) (Q2R th) (Q2R ov)) as [c|e] eqn:E;
        [|discriminate].
      intros [= <-]. now exists lo, hi, (Q2R sr), (Q2R th), (Q2R ov).
    - destruct (blob_dog x _ _ _ _ _) as [c|e] eqn:E; [|discriminate].
      cbn [mbind result_bind]. intros [= <-]. eauto 10. }
  destruct Hdog as (lo & hi & sr & th & ov & Hdog).
  destruct (blob_dog_rows _ _ _ _ _ _ _ Hdog) as (k & _ & _ & [->|Hshape]).
  { now contradiction Hrows. }
  cbn [isscalar sigma_of_radius andb as_array] in Hshape.
  rewrite length_map in Hshape. destruct Hshape as [Hcols Hall].
  split; [exact Hcols|].
  apply List.Forall_forall. intros row Hrow.
  rewrite List.Forall_forall in Hall.
  destruct (Hall row Hrow) as (r0 & i & Hr0 & _ & -> & Hnth).
  rewrite length_app, length_map, Hnth. lia.
Qed.

End PredictFacts.

Lemma predict_missing_key_witness :
  Prediction.predict (N := exact_arithmetic) (H := blank_backend)
    (fun c _ _ => c)
    (init 3 [1%Q; 1%Q; 1%Q] None) 3%nat
    (Some (delete "overlap" (get_parameters (init 3 [1%Q; 1%Q; 1%Q] None))))
  = Raise (KeyError "overlap").
Proof.
  apply (predict_missing_key (N := exact_arithmetic) (H := blank_backend)
           (fun c _ _ => c)
           (init 3 [1%Q; 1%Q; 1%Q] None) 3%nat _ "overlap"
           ["min_rad"; "max_rad"; "sigma_ratio"]%string ["threshold"]%string).
  - reflexivity.
  - repeat constructor; eexists; vm_compute; reflexivity.
  - vm_compute. reflexivity.
Defined.

(** On the second backend and in exact arithmetic, the prediction of a
    new detector on a three-dimensional image returns at least one
    row. *)
Lemma origin_predict_nonempty :
  exists a : ndarray,
    Prediction.predict (N := exact_arithmetic) (H := origin_backend)
      (fun c _ _ => c)
      (init 3 [1%Q; 1%Q; 1%Q] None) 3%nat None = Ok a /\ rows a <> [].
Proof.
  assert (Hadm : admissible
            (as_array 3 (sigma_of_radius 7 [1%Q; 1%Q; 1%Q] 3))
            (as_array 3 (sigma_of_radius 15 [1%Q; 1%Q; 1%Q] 3))
            (Q2R (14 # 10))).
  { apply sigmas_admissible; try reflexivity; try discriminate;
      [repeat constructor|lia]. }
  destruct (admissible_scale_count _ _ _ Hadm) as (k & Hsc & Hk).
  destruct (exact_sigma_list
              (as_array 3 (sigma_of_radius 7 [1%Q; 1%Q; 1%Q] 3))
              (Q2R (14 # 10)) k) as [sl Hsl].
  destruct (origin_passes (N := exact_arithmetic) 3
              (as_array 3 (sigma_of_radius 7 [1%Q; 1%Q; 1%Q] 3))
              (Q2R (14 # 10)) (Q2R (5 # 100)) k sl eq_refl Hk Hsl)
    as (arrs & Hm & Hg).
  unfold Prediction.predict. cbn [init exclude_border min_rad max_rad
    dim_resolution D sigma_ratio threshold overlap].
  rewrite (blob_dog_eq (N := exact_arithmetic) (H := origin_backend)
             (H0 := origin_backend_laws) 3%nat _ _ _ _ _ k sl arrs Hsc Hk
             Hsl Hm).
  cbn zeta. cbn [ndim origin_backend] in *.
  destruct (concat (map rows arrs)) as [|b l]; [congruence|].
  cbn [mbind result_bind]. eexists. split; [reflexivity|].
  cbn [isscalar sigma_of_radius andb prune_blobs origin_backend rows
       sigmas_of_peaks map hstack_sigmas combine]. discriminate.
Qed.

Lemma predict_sigma_per_axis_witness :
  exists a : ndarray,
    Prediction.predict (N := exact_arithmetic) (H := origin_backend)
      (fun c _ _ => c)
      (init 3 [1%Q; 1%Q; 1%Q] None) 3%nat None = Ok a /\
    rows a <> [] /\
    ncols a = (3 + 3)%nat /\
    Forall (fun row => length row = (3 + 3)%nat) (rows a).
Proof.
  destruct origin_predict_nonempty as (a & Ha & Hrows).
  exists a. split; [exact Ha|]. split; [exact Hrows|].
  apply (predict_sigma_per_axis (N := exact_arithmetic) (H := origin_backend)
           (H0 := origin_backend_laws) (fun c _ _ => c)
           (init 3 [1%Q; 1%Q; 1%Q] None) 3%nat None a eq_refl Ha Hrows).
Defined.

End PredictionFacts.

(** * Properties of [bcfind/augmentation.py] *)

Module AugmentationFacts.

Import ResultFacts Augmentation.
Local Open Scope string_scope.

(** X23: On a list or tuple, [get_op_list] returns exactly when every
    element is the name of an implemented operation or a callable, and
    then gives one operation per element, in order: the implemented
    operation with its defaults for a name, the callable itself
    otherwise. *)
Theorem get_op_list_of_list (l : list pyobj) (ops : list operation) :
  get_op_list (AList l) = Ok ops
  <->
  Forall2 (fun e o =>
             match e with
             | Str s => exists f, implemented_ops !! s = Some f /\ o = Default f
             | Callable c => o = Custom c
             | _ => False
             end) l ops.
Proof.
  cbn [get_op_list]. rewrite mapM_ok_Forall2.
  split; intros Hall; induction Hall as [|e o l' ops' He _ IH];
    constructor; try exact IH.
  - destruct e as [s|c|r|]; unfold op_of_element in He; try discriminate.
    + destruct (implemented_ops !! s) as [f|] eqn:Ef; [|discriminate].
      injection He as <-. now exists f.
    + now injection He as <-.
  - destruct e as [s|c|r|]; unfold op_of_element; try contradiction.
    + destruct He as (f & -> & ->). reflexivity.
    + now subst o.
Qed.

(** X24: On a list or tuple whose first unacceptable element is [bad],
    [get_op_list] raises [AssertionError] when [bad] is a string (a name
    that is not implemented) and [ValueError] when it is neither a
    string nor a callable. *)
Theorem get_op_list_first_bad (good rest : list pyobj) (bad : pyobj) :
  Forall (fun e => exists o, op_of_element e = Ok o) good ->
  (forall o, op_of_element bad <> Ok o) ->
  get_op_list (AList (good ++ bad :: rest))
  = match bad with
    | Str _ => Raise (AssertionError "not allowed")
    | _ => Raise (ValueError "neither a string nor a callable")
    end.
Proof.
  intros Hgood Hbad. cbn [get_op_list].
  destruct bad as [s|c|r|]; unfold op_of_element in Hbad.
  - apply mapM_first_error; [exact Hgood|]. unfold op_of_element.
    destruct (implemented_ops !! s) as [f|]; [|reflexivity].
    now contradiction (Hbad (Default f)).
  - now contradiction (Hbad (Custom c)).
  - now apply mapM_first_error.
  - now apply mapM_first_error.
Qed.

(** X25: On a dictionary, [get_op_list] returns exactly when every key is an
    implemented name whose value has length 2, or another key whose
    value is a callable; it gives, in insertion order, the implemented
    operation bound to that range, or the callable. *)
Theorem get_op_list_of_dict (d : list (string * pyobj))
    (ops : list operation) :
  get_op_list (ADict d) = Ok ops
  <->
  Forall2 (fun item o =>
             match implemented_ops !! fst item with
             | Some f => py_len (snd item) = Ok 2 /\ o = Partial f (snd item)
             | None => exists c, snd item = Callable c /\ o = Custom c
             end) d ops.
Proof.
  cbn [get_op_list]. rewrite mapM_ok_Forall2.
  split; intros Hall; induction Hall as [|[key v] o l' ops' He _ IH];
    constructor; try exact IH; cbn [fst snd] in *.
  - unfold op_of_item in He. cbn [fst snd] in He.
    destruct (implemented_ops !! key) as [f|].
    + destruct (py_len v) as [n|e]; cbn in He; [|discriminate].
      destruct (Nat.eqb n 2) eqn:En; [|discriminate].
      apply Nat.eqb_eq in En. subst n. now injection He as <-.
    + destruct v as [s|c|r|]; try discriminate.
      injection He as <-. now exists c.
  - unfold op_of_item. cbn [fst snd].
    destruct (implemented_ops !! key) as [f|].
    + destruct He as [-> ->]. reflexivity.
    + destruct He as (c & -> & ->). reflexivity.
Qed.

Lemma get_op_list_first_bad_witness :
  get_op_list (AList ([Str "gamma"; Callable 0] ++ Str "flip" :: [Str "zoom"]))
  = Raise (AssertionError "not allowed").
Proof.
  apply (get_op_list_first_bad [Str "gamma"; Callable 0] [Str "zoom"]
           (Str "flip")).
  - repeat constructor; eexists; vm_compute; reflexivity.
  - intros o. vm_compute. discriminate.
Defined.

(** ** [random_crop] *)

Lemma forallb_positive (high : list Z) :
  forallb (fun h => Z.ltb 0 h) high = true <-> Forall (fun h => 0 < h)%Z high.
Proof.
  rewrite forallb_forall, List.Forall_forall.
  split; intros Hall h Hh; specialize (Hall h Hh); lia.
Qed.

Lemma crop_window (shape target f : list Z) :
  length shape = length target ->
  Forall (fun h => 0 < h)%Z (crop_high shape target) ->
  Forall2 (fun h x => 0 <= x < h)%Z (crop_high shape target) f ->
  Forall2 (fun st ft =>
             0 <= fst ft /\ snd ft = fst ft + snd st /\ snd ft <= fst st /\
             (snd st < fst st -> snd ft < fst st))%Z
          (combine shape target)
          (combine f (map (fun p => (fst p + snd p)%Z) (combine f target))).
Proof.
  revert target f.
  induction shape as [|s shape IH]; intros [|tg target] f Hlen Hpos Hf;
    try discriminate.
  - cbn in Hf. inversion Hf. constructor.
  - cbn [crop_high combine map fst snd] in Hpos, Hf.
    inversion Hf as [|h x hs xs Hx Hrest]; subst.
    apply Forall_cons in Hpos as [Hh Hpos].
    cbn [combine map fst snd]. constructor.
    + cbn [fst snd]. destruct (Z.eqb_spec (s - tg) 0); lia.
    + apply IH; [cbn in Hlen; lia|exact Hpos|exact Hrest].
Qed.

(** X26: a crop that succeeds takes, on each axis, a window of exactly the
    target length that starts at a non-negative offset and ends inside
    the image; where the image is longer than the target the window
    never reaches the last index, the upper bound of the draw being
    excluded. *)
Theorem random_crop_window (draw : list Z -> list Z) (shape target f t : list Z) :
  draws_below draw ->
  length shape = length target ->
  random_crop draw shape target = Ok (f, t) ->
  length f = length shape /\
  Forall2 (fun st ft =>
             0 <= fst ft /\ snd ft = fst ft + snd st /\ snd ft <= fst st /\
             (snd st < fst st -> snd ft < fst st))%Z
          (combine shape target) (combine f t).
Proof.
  intros Hdraw Hlen. unfold random_crop.
  destruct (forallb _ (crop_high shape target)) eqn:Epos; [|discriminate].
  apply forallb_positive in Epos. intros [= <- <-].
  pose proof (Hdraw _ Epos) as Hf. split.
  - rewrite <- (Forall2_length _ _ _ Hf). unfold crop_high.
    rewrite length_map, length_combine. lia.
  - now apply crop_window.
Qed.


Lemma draw_last_below : draws_below draw_last.
Proof.
  intros high Hpos. unfold draw_last.
  induction Hpos as [|h l Hh _ IH]; cbn [map]; constructor; [lia|exact IH].
Qed.

Lemma random_crop_window_witness :
  let out := random_crop draw_last [60; 100; 120]%Z [50; 100; 100]%Z in
  exists f t,
    out = Ok (f, t) /\
    length f = length [60; 100; 120]%Z /\
    Forall2 (fun st ft =>
               0 <= fst ft /\ snd ft = fst ft + snd st /\ snd ft <= fst st /\
               (snd st < fst st -> snd ft < fst st))%Z
            (combine [60; 100; 120]%Z [50; 100; 100]%Z) (combine f t).
Proof.
  intros out. exists [9; 0; 19]%Z, [59; 100; 119]%Z.
  split; [reflexivity|].
  apply (random_crop_window draw_last [60; 100; 120]%Z [50; 100; 100]%Z
           [9; 0; 19]%Z [59; 100; 119]%Z draw_last_below eq_refl eq_refl).
Defined.


End AugmentationFacts.

(** * Properties of the padded prediction of [bcfind/train.py] *)

Module TrainingFacts.

Import Training.

Section Padding.

Context {P : Type} (unet : shape -> call P) (x : shape).

Abbreviation refused_before := (Training.refused_before unet x).

Lemma predict_padded_inv (fuel : nat) :
  forall a : nat,
    a <= max_attempts ->
    S max_attempts <= fuel + a ->
    refused_before a ->
    exists out,
      predict_padded unet fuel a (padded x a) = Some out /\
      match out with
      | Ok (pred, x', j) =>
          j <= max_attempts /\ x' = padded x j /\
          unet x' = Returned pred /\ refused_before j
      | Raise (ValueError e) =>
          refused_before max_attempts /\
          unet (padded x max_attempts) = ShapeError e
      | Raise (Exception e) =>
          exists j, j <= max_attempts /\ refused_before j /\
                    unet (padded x j) = OtherError e
      | Raise _ => False
      end.
Proof.
  induction fuel as [|fuel IH]; intros a Ha Hfuel Href.
  - unfold max_attempts in *. lia.
  - cbn [predict_padded].
    destruct (unet (padded x a)) as [pred|e|e] eqn:Ecall.
    + eexists. split; [reflexivity|]. cbn. repeat split; assumption.
    + destruct (Nat.eqb a max_attempts) eqn:Emax.
      * apply Nat.eqb_eq in Emax. subst a.
        eexists. split; [reflexivity|]. cbn. split; assumption.
      * apply Nat.eqb_neq in Emax.
        change (pad (padded x a) a) with (padded x (S a)).
        apply IH; [lia|lia|].
        intros i Hi. destruct (Nat.eq_dec i a) as [->|Hne].
        -- now exists e.
        -- apply Href. lia.
    + eexists. split; [reflexivity|]. cbn. exists a. repeat split; assumption.
Qed.

Lemma padded_closed_form (j : nat) :
  j <= max_attempts ->
  padded x j
  = (fst (fst x) + Nat.div2 (S j), snd (fst x) + Nat.div2 j,
     snd x + Nat.div2 j).
Proof.
  destruct x as [[d1 d2] d3]. unfold max_attempts. intros Hj.
  do 11 (destruct j as [|j]; [cbn; repeat f_equal; lia|]). lia.
Qed.

(** X28: the loop ends after at most eleven calls of the network, whatever
    the fuel from eleven on.  When it returns, [attempt = j <= 10], the
    network has refused the tensor after each of the first [j] paddings
    and accepted it after [j] of them, axis 1 having grown by
    [ceil(j/2)] and axes 2 and 3 by [floor(j/2)]. *)
Theorem predict_padded_returns (fuel : nat) (pred : P) (x' : shape)
    (j : nat) :
  S max_attempts <= fuel ->
  predict_padded unet fuel 0 x = Some (Ok (pred, x', j)) ->
  predict_padded unet (S max_attempts) 0 x = Some (Ok (pred, x', j)) /\
  j <= max_attempts /\
  x' = (fst (fst x) + Nat.div2 (S j), snd (fst x) + Nat.div2 j,
        snd x + Nat.div2 j) /\
  unet x' = Returned pred /\
  refused_before j.
Proof.
  intros Hfuel Hrun.
  assert (H0 : refused_before 0) by (intros i Hi; lia).
  destruct (predict_padded_inv fuel 0 (Nat.le_0_l _)) as (out & Hout & Hspec);
    [lia|exact H0|].
  destruct (predict_padded_inv (S max_attempts) 0 (Nat.le_0_l _))
    as (out11 & Hout11 & Hspec11); [lia|exact H0|].
  change (padded x 0) with x in Hout, Hout11.
  rewrite Hrun in Hout. injection Hout as <-.
  destruct Hspec as (Hj & Hx' & Hacc & Href).
  split.
  - rewrite Hout11. f_equal.
    destruct out11 as [[[pred1 x1] j1]|e1].
    + destruct Hspec11 as (Hj1 & Hx1 & Hacc1 & Href1).
      assert (j1 = j).
      { destruct (Nat.lt_trichotomy j1 j) as [Hlt|[Heq|Hgt]]; [|exact Heq|].
        - destruct (Href j1 Hlt) as [e He]. rewrite <- Hx1 in He. congruence.
        - destruct (Href1 j Hgt) as [e He]. rewrite <- Hx' in He. congruence. }
      subst j1. congruence.
    + exfalso. destruct e1; try contradiction.
      * destruct Hspec11 as (Href1 & He11).
        destruct (Nat.eq_dec j max_attempts) as [->|Hne].
        -- rewrite <- Hx' in He11. congruence.
        -- destruct (Href1 j) as [e He]; [lia|].
           rewrite <- Hx' in He. congruence.
      * destruct Hspec11 as (j1 & Hj1 & Href1 & He1).
        destruct (Nat.lt_trichotomy j1 j) as [Hlt|[Heq|Hgt]].
        -- destruct (Href j1 Hlt) as [e He]. congruence.
        -- subst j1. rewrite <- Hx' in He1. congruence.
        -- destruct (Href1 j Hgt) as [e He]. rewrite <- Hx' in He. congruence.
  - split; [exact Hj|]. split; [|split; assumption].
    rewrite Hx'. now apply padded_closed_form.
Qed.

(** X29: when the network refuses the tensor after each of the paddings up
    to the tenth, the loop gives up after eleven calls and lets the last
    exception out. *)
Theorem predict_padded_gives_up (fuel : nat) :
  S max_attempts <= fuel ->
  refused_before (S max_attempts) ->
  exists e,
    unet (padded x max_attempts) = ShapeError e /\
    predict_padded unet fuel 0 x = Some (Raise (ValueError e)).
Proof.
  intros Hfuel Href.
  assert (H0 : refused_before 0) by (intros i Hi; lia).
  destruct (predict_padded_inv fuel 0 (Nat.le_0_l _)) as (out & Hout & Hspec);
    [lia|exact H0|].
  change (padded x 0) with x in Hout.
  destruct out as [[[pred x'] j]|e].
  - destruct Hspec as (Hj & Hx' & Hacc & _).
    destruct (Href j) as [e He]; [lia|]. rewrite <- Hx' in He. congruence.
  - destruct e as [e| | | |e]; try contradiction.
    + destruct Hspec as [_ He]. now exists e.
    + destruct Hspec as (j & Hj & _ & He).
      destruct (Href j) as [e' He']; [lia|]. congruence.
Qed.

End Padding.

Lemma predict_padded_returns_witness :
  predict_padded even_unet (S max_attempts) 0 (49, 99, 99)
  = Some (Ok (250, (50, 100, 100), 2)) /\
  2 <= max_attempts /\
  (50, 100, 100)
  = (fst (fst (49, 99, 99)) + Nat.div2 (S 2),
     snd (fst (49, 99, 99)) + Nat.div2 2, snd (49, 99, 99) + Nat.div2 2) /\
  even_unet (50, 100, 100) = Returned 250 /\
  Training.refused_before even_unet (49, 99, 99) 2.
Proof.
  apply (predict_padded_returns even_unet (49, 99, 99) 20 250 (50, 100, 100) 2).
  - unfold max_attempts. lia.
  - reflexivity.
Defined.

Lemma predict_padded_gives_up_witness :
  exists e,
    (fun _ : shape => @ShapeError nat "Invalid input shape")
      (padded (49, 99, 99) max_attempts) = ShapeError e /\
    predict_padded (fun _ : shape => @ShapeError nat "Invalid input shape")
      20 0 (49, 99, 99) = Some (Raise (ValueError e)).
Proof.
  apply (predict_padded_gives_up
           (fun _ : shape => @ShapeError nat "Invalid input shape")
           (49, 99, 99) 20).
  - unfold max_attempts. lia.
  - intros i _. eexists. reflexivity.
Defined.

End TrainingFacts.
